(** * our-garden: the deterministic garden layout engine

    A shallow embedding of [src/lib/hiddenMessage.ts] (text mask, spawn
    points, species assignment) and [src/lib/garden.ts] (the day loop of
    [generateGarden]), followed by the properties of the layout that the
    specification states.  The embedding goes on with the emoji layer and
    the earlier revisions that the two files hold, and with the callers:
    the pages, the pure parts of the [Garden] component and the scene of
    [useAmbientAudio]; their properties close the development.

    Number model.  TypeScript's [number] is used in two roles.  Counters,
    indices and sizes are integers and are modelled by [nat] (array indices,
    sizes) or [Z] (where the code uses a negative sentinel or an offset that
    may be negative).  Coordinates, densities and random draws are modelled
    by exact rationals [Q]: rounding of IEEE doubles is not modelled.

    Text model.  A line of text is modelled by its sequence of ASCII
    characters.  For ASCII text ([asciiText]) a character of the model is a
    character of the string and one unit of its [length], and
    [toUpperCase] is the map of a..z to A..Z.  The properties that relate
    the letters list, the [letterMeta] entries and the size of a mask to
    the characters of the lines are stated for ASCII text.

    Object model.  The table of variants by species is a plain object and
    is modelled by a finite map over its own keys.  The properties that
    read the table are stated for species, in the catalog and in the
    palettes, that are not names inherited from [Object.prototype]
    ([inheritedName]). *)

From Stdlib Require Import ZArith QArith Qround Qminmax Lia Lqa.
From Stdlib Require Import String Ascii Permutation.
From Stdlib Require Import Sorted.
From stdpp Require Import gmap strings list.

Local Open Scope Z_scope.

(** ** src/lib/random.ts *)

Module Random.

(** [src/lib/random.ts] is not part of the sources; only its export
    [mulberry32] is imported.  Words are unsigned 32-bit integers. *)

(** [x >>> 0] *)
Definition u32 (x : Z) : Z := x mod 4294967296.

(** [Math.imul(x, y)], as an unsigned word. *)
Definition imul (x y : Z) : Z := u32 (x * y).

(** Modelled from the spec: the seeding of the generator of
    [src/lib/random.ts].  The closure returned by [mulberry32(seed)]
    captures one 32-bit word; the word is the state of the stream and is
    threaded explicitly. *)
Definition mulberry32 (seed : Z) : Z := u32 seed.

(** Modelled from the spec: one call of the closure returned by
    [mulberry32] ([src/lib/random.ts] is missing).  The spec asks for a
    number in [0,1) determined by the seed and the call count, computed in
    unsigned 32-bit arithmetic; this is the generator of that name.  The
    result pairs the number with the next state. *)
Definition next (a : Z) : Q * Z :=
  let a1 := u32 (a + 1831565813) in
  let t1 := imul (Z.lxor a1 (Z.shiftr a1 15)) (Z.lor a1 1) in
  let t2 := Z.lxor (u32 (t1 + imul (Z.lxor t1 (Z.shiftr t1 7)) (Z.lor t1 61))) t1 in
  (Qmake (u32 (Z.lxor t2 (Z.shiftr t2 14))) 4294967296, a1).

(** The state after [k] calls of the generator. *)
Definition advance (k : nat) (a : Z) : Z := Nat.iter k (fun s => snd (next s)) a.

End Random.

(** ** JavaScript helpers *)

Module Js.

(** [a < b] on numbers. *)
Definition Qltb (a b : Q) : bool := negb (Qle_bool b a).

(** [arr[i]] for a numeric index that may be negative: [undefined] is [None]. *)
Definition at_Z {A} (l : list A) (i : Z) : option A :=
  if i <? 0 then None else l !! Z.to_nat i.

(** [a ?? b] *)
Definition orElse {A} (a b : option A) : option A :=
  match a with Some _ => a | None => b end.

(** [[...new Set(l)]]: the first occurrence of each element, in order. *)
Fixpoint uniq (seen l : list string) : list string :=
  match l with
  | [] => []
  | x :: r => if bool_decide (x ∈ seen) then uniq seen r else x :: uniq (x :: seen) r
  end.

(** [s.startsWith(p)] *)
Fixpoint startsWith (p s : string) : bool :=
  match p, s with
  | EmptyString, _ => true
  | String a p', String b s' => if Ascii.eqb a b then startsWith p' s' else false
  | String _ _, EmptyString => false
  end.

(** [s.split("-")[0]]: the text before the first hyphen. *)
Fixpoint beforeHyphen (s : string) : string :=
  match s with
  | EmptyString => EmptyString
  | String c r => if Ascii.eqb c "-"%char then EmptyString else String c (beforeHyphen r)
  end.

(** [String.prototype.toUpperCase].  Text is ASCII: the letters a..z are
    mapped to A..Z and every other character below 128 is left as it is;
    characters from 128 on are outside the model ([asciiText] below is the
    text within it). *)
Definition upperChar (c : ascii) : ascii :=
  let n := nat_of_ascii c in
  if (97 <=? n)%nat && (n <=? 122)%nat then ascii_of_nat (n - 32) else c.

Definition toUpperCase (s : string) : list ascii := map upperChar (list_ascii_of_string s).

End Js.

(** ** src/lib/hiddenMessage.ts *)

Module HiddenMessage.

Import Js.

(** The glyph table, keys in declaration order. *)
Definition PIXEL_FONT : list (ascii * list string) :=
  [ (" "%char, ["000000"; "000000"; "000000"; "000000"; "000000"; "000000"; "000000"]%string);
    ("A"%char, ["001100"; "010010"; "100001"; "111111"; "100001"; "100001"; "100001"]%string);
    ("B"%char, ["111110"; "100001"; "111110"; "100001"; "100001"; "100001"; "111110"]%string);
    ("C"%char, ["001111"; "010000"; "100000"; "100000"; "100000"; "010000"; "001111"]%string);
    ("E"%char, ["111111"; "100000"; "111110"; "100000"; "100000"; "100000"; "111111"]%string);
    ("F"%char, ["111111"; "100000"; "111110"; "100000"; "100000"; "100000"; "100000"]%string);
    ("H"%char, ["100001"; "100001"; "111111"; "100001"; "100001"; "100001"; "100001"]%string);
    ("L"%char, ["100000"; "100000"; "100000"; "100000"; "100000"; "100000"; "111111"]%string);
    ("O"%char, ["011110"; "100001"; "100001"; "100001"; "100001"; "100001"; "011110"]%string);
    ("R"%char, ["111110"; "100001"; "111110"; "101000"; "100100"; "100010"; "100001"]%string);
    ("U"%char, ["100001"; "100001"; "100001"; "100001"; "100001"; "100001"; "011110"]%string);
    ("V"%char, ["100001"; "100001"; "100001"; "100001"; "010010"; "010010"; "001100"]%string);
    ("Y"%char, ["100001"; "010010"; "001100"; "001100"; "001100"; "001100"; "001100"]%string) ].

(** [PIXEL_FONT[ch]] *)
Definition fontLookup (ch : ascii) : option (list string) :=
  snd <$> List.find (fun kv => Ascii.eqb (fst kv) ch) PIXEL_FONT.

(** [PIXEL_FONT[ch] ?? PIXEL_FONT[" "]] *)
Definition glyphFor (ch : ascii) : list string :=
  default [] (orElse (fontLookup ch) (fontLookup " "%char)).

Record LetterMeta := {
  metaLineIndex : nat;
  metaLetterIndex : nat;
  metaChar : ascii
}.

Record TextMaskResult := {
  mask : list (list bool);
  letterMap : list (list Z);
  letters : list ascii;
  letterMeta : list LetterMeta
}.

Record MaskBounds := {
  width : Q;
  height : Q;
  offsetX : option Q;
  offsetY : option Q;
  seed : option Z;
  jitter : option Q
}.

Record SpawnPoint := {
  x : Q;
  y : Q;
  row : nat;
  col : nat;
  pixelIndex : nat;
  letterIndex : Z;
  lineIndex : nat;
  letterChar : string;
  species : option string
}.

(** The spacings are counts of columns and rows; the pixel scales are
    numbers that the code floors and clamps to at least 1. *)
Record TextMaskOptions := {
  charSpacing : option nat;
  lineSpacing : option nat;
  pixelScaleX : option Q;
  pixelScaleY : option Q
}.

(** [arr.forEach((a, i) => ...)] with the variables the callback updates
    threaded as a state. *)
Fixpoint forEachFrom {A St : Type} (f : St -> A -> nat -> St) (i : nat) (l : list A) (s : St)
    : St :=
  match l with
  | [] => s
  | a :: r => forEachFrom f (S i) r (f s a i)
  end.

Definition forEach {A St : Type} (f : St -> A -> nat -> St) (l : list A) (s : St) : St :=
  forEachFrom f 0%nat l s.

(** [g[row][col] = v] *)
Definition setCell {A : Type} (g : list (list A)) (row col : nat) (v : A) : list (list A) :=
  alter (fun r => <[col := v]> r) row g.

(** The glyph whose key is the first one that is not blank: its size is the
    size of every glyph cell. *)
Definition sampleGlyph : list string :=
  default (glyphFor " "%char)
    (fontLookup
       (default " "%char
          (fst <$> List.find (fun kv => negb (Ascii.eqb (fst kv) " "%char)) PIXEL_FONT))).

Definition baseCharWidth : nat := match sampleGlyph with [] => 0 | r :: _ => String.length r end.
Definition baseCharHeight : nat := length sampleGlyph.

(** The state of the stamping loops: the two grids, the two letter lists and
    the letter counter. *)
Record Canvas := {
  cMask : list (list bool);
  cLetterMap : list (list Z);
  cLetters : list ascii;
  cLetterMeta : list LetterMeta;
  letterCounter : Z
}.

Section Stamp.
Variables (rows cols psx psy : nat).

(** The two innermost loops: one glyph pixel, magnified. *)
Definition stampPixel (startRow colCursor : nat) (currentIndex : Z) (r c : nat)
    (g : list (list bool) * list (list Z)) : list (list bool) * list (list Z) :=
  foldl (fun g yScale =>
    foldl (fun g xScale =>
      let row := (startRow + r * psy + yScale)%nat in
      let col := (colCursor + c * psx + xScale)%nat in
      if (row <? rows)%nat && (col <? cols)%nat
      then (setCell (fst g) row col true, setCell (snd g) row col currentIndex)
      else g) g (seq 0 psx)) g (seq 0 psy).

(** The loops over the rows and columns of one glyph. *)
Definition stampGlyph (glyph : list string) (startRow colCursor : nat) (currentIndex : Z)
    (g : list (list bool) * list (list Z)) : list (list bool) * list (list Z) :=
  foldl (fun g r =>
    match glyph !! r with
    | None => g
    | Some EmptyString => g
    | Some glyphRow =>
        foldl (fun g c =>
          match String.get c glyphRow with
          | Some ch => if Ascii.eqb ch "1"%char
                       then stampPixel startRow colCursor currentIndex r c g else g
          | None => g
          end) g (seq 0 baseCharWidth)
    end) g (seq 0 baseCharHeight).

(** The body of [for (const ch of line)]; the state also carries
    [colCursor] and [charPosition]. *)
Definition stampChar (lineIndex startRow : nat) (st : Canvas * nat * nat) (ch : ascii)
    (scaledCharWidth charSp : nat) : Canvas * nat * nat :=
  let '(cv, colCursor, charPosition) := st in
  let glyph := glyphFor ch in
  let currentIndex := if Ascii.eqb ch " "%char then (-1)%Z else letterCounter cv in
  let counter' := if Ascii.eqb ch " "%char then letterCounter cv else (letterCounter cv + 1)%Z in
  let '(ls, ms) :=
    if (currentIndex =? -1)%Z then (cLetters cv, cLetterMeta cv)
    else (cLetters cv ++ [ch],
          cLetterMeta cv ++ [{| metaLineIndex := lineIndex;
                                metaLetterIndex := charPosition;
                                metaChar := ch |}]) in
  let g := stampGlyph glyph startRow colCursor currentIndex (cMask cv, cLetterMap cv) in
  ({| cMask := fst g; cLetterMap := snd g; cLetters := ls; cLetterMeta := ms;
      letterCounter := counter' |},
   (colCursor + (scaledCharWidth + charSp))%nat, S charPosition).
End Stamp.

Definition buildTextMask (lines : list string) (options : TextMaskOptions) : TextMaskResult :=
  let charSp := default 2%nat (charSpacing options) in
  let lineSp := default 2%nat (lineSpacing options) in
  let psx := Z.to_nat (Z.max 1 (Qfloor (default 1%Q (pixelScaleX options)))) in
  let psy := Z.to_nat (Z.max 1 (Qfloor (default 1%Q (pixelScaleY options)))) in
  let scaledCharWidth := (baseCharWidth * psx)%nat in
  let scaledCharHeight := (baseCharHeight * psy)%nat in
  let normalized := map toUpperCase lines in
  let maxLineLength := foldr Nat.max 0%nat (map (fun line => Nat.max (length line) 1) normalized) in
  let cols := (maxLineLength * (scaledCharWidth + charSp) - charSp)%nat in
  let rows := (length normalized * scaledCharHeight
               + Nat.max (length normalized - 1) 0 * lineSp)%nat in
  let cv0 := {| cMask := replicate rows (replicate cols false);
                cLetterMap := replicate rows (replicate cols (-1)%Z);
                cLetters := []; cLetterMeta := []; letterCounter := 0 |} in
  let cv := forEach (fun cv line lineIndex =>
      let startRow := (lineIndex * (scaledCharHeight + lineSp))%nat in
      let lineLength := Nat.max (length line) 1 in
      let lineWidth := (lineLength * (scaledCharWidth + charSp) - charSp)%nat in
      let colCursor := ((cols - lineWidth) / 2)%nat in
      fst (fst (foldl (fun st ch =>
                  stampChar rows cols psx psy lineIndex startRow st ch scaledCharWidth charSp)
                (cv, colCursor, 0%nat) line))) normalized cv0 in
  {| mask := cMask cv; letterMap := cLetterMap cv;
     letters := cLetters cv; letterMeta := cLetterMeta cv |}.

(** One row-major scan of the mask.  The state is the generator's word and
    the list of points pushed so far. *)
Section Spawn.
Variables (letterMapV : list (list Z)) (letterMetaV : list LetterMeta).
Variables (offX offY cellW cellH jit density : Q).

(** [for (let d = 0; d < totalCopies; d++)], with [n] iterations left.  A
    cell whose letter index is the sentinel leaves the callback after the
    two jitter draws. *)
Fixpoint copiesLoop (n : nat) (row col : nat) (st : Z * list SpawnPoint) : Z * list SpawnPoint :=
  match n with
  | O => st
  | S n' =>
      let '(r1, a1) := Random.next (fst st) in
      let '(r2, a2) := Random.next a1 in
      let jx := ((r1 - (1 # 2)) * jit)%Q in
      let jy := ((r2 - (1 # 2)) * jit)%Q in
      let letterIndex := default (-1)%Z (letterMapV !! row ≫= fun r => r !! col) in
      if (letterIndex =? -1)%Z then (a2, snd st)
      else copiesLoop n' row col
             (a2, snd st ++
                  [{| x := (offX + (inject_Z (Z.of_nat col) + (1 # 2) + jx) * cellW)%Q;
                      y := (offY + (inject_Z (Z.of_nat row) + (1 # 2) + jy) * cellH)%Q;
                      row := row;
                      col := col;
                      pixelIndex := length (snd st);
                      letterIndex := letterIndex;
                      lineIndex := default 0%nat (metaLineIndex <$> at_Z letterMetaV letterIndex);
                      letterChar := default EmptyString
                        ((fun m => String (metaChar m) EmptyString) <$> at_Z letterMetaV letterIndex);
                      species := None |}])
  end.

Definition baseCopies : Z := Qfloor density.
Definition fractional : Q := Qmax 0 (Qmin 1 (density - inject_Z baseCopies)).

(** [fractional > 0 && rng() < fractional ? 1 : 0]: the right operand of
    [&&], and with it the draw, is evaluated only when the left one holds. *)
Definition extraCopy (a : Z) : Z * Z :=
  if Qltb 0 fractional
  then let '(r, a1) := Random.next a in ((if Qltb r fractional then 1 else 0)%Z, a1)
  else (0%Z, a).

(** The callback of the inner [forEach]. *)
Definition spawnCell (st : Z * list SpawnPoint) (isOn : bool) (row col : nat)
    : Z * list SpawnPoint :=
  if negb isOn then st
  else
    let '(extra, a1) := extraCopy (fst st) in
    let totalCopies := (baseCopies + extra)%Z in
    if (totalCopies <=? 0)%Z then (a1, snd st)
    else copiesLoop (Z.to_nat totalCopies) row col (a1, snd st).
End Spawn.

Definition resolvedOffsetX (bounds : MaskBounds) : Q :=
  default ((100 - width bounds) / 2)%Q (offsetX bounds).
Definition resolvedOffsetY (bounds : MaskBounds) : Q :=
  default ((100 - height bounds) / 2)%Q (offsetY bounds).

Definition maskCols (m : list (list bool)) : nat :=
  match m with [] => 0%nat | r :: _ => length r end.

(** The scan with the generator's final word kept. *)
Definition spawnScan (maskResult : TextMaskResult) (bounds : MaskBounds) (density : Q)
    : Z * list SpawnPoint :=
  let rows := length (mask maskResult) in
  let cols := maskCols (mask maskResult) in
  let cellW := (width bounds / inject_Z (Z.of_nat cols))%Q in
  let cellH := (height bounds / inject_Z (Z.of_nat rows))%Q in
  let jit := default (3 # 20)%Q (jitter bounds) in
  let rng := Random.mulberry32 (default 2025%Z (seed bounds)) in
  forEach (fun st rowVals row =>
      forEach (fun st isOn col =>
          spawnCell (letterMap maskResult) (letterMeta maskResult)
            (resolvedOffsetX bounds) (resolvedOffsetY bounds) cellW cellH jit density
            st isOn row col) rowVals st)
    (mask maskResult) (rng, []).

Definition generateFlowerPositionsFromMask (maskResult : TextMaskResult) (bounds : MaskBounds)
    (density : Q) : list SpawnPoint :=
  let rows := length (mask maskResult) in
  let cols := maskCols (mask maskResult) in
  if (rows =? 0)%nat || (cols =? 0)%nat then []
  else snd (spawnScan maskResult bounds density).

Definition DEFAULT_SPECIES : list string :=
  ["forgetmenot"; "lily"; "peony"; "rose"; "tulip"; "sunflower"]%string.

Definition SPECIES_PER_LETTER : nat := 3.

Definition withSpecies (p : SpawnPoint) (s : option string) : SpawnPoint :=
  {| x := x p; y := y p; row := row p; col := col p; pixelIndex := pixelIndex p;
     letterIndex := letterIndex p; lineIndex := lineIndex p; letterChar := letterChar p;
     species := s |}.

Definition basePoolOf (enabledSpecies : list string) : list string :=
  match enabledSpecies with [] => DEFAULT_SPECIES | _ => enabledSpecies end.

Definition fallbackPoolOf (enabledSpecies : list string) : list string :=
  let basePool := basePoolOf enabledSpecies in
  let sanitizedFallback := filter (fun s => s ≠ "sunflower"%string) basePool in
  match sanitizedFallback with [] => basePool | _ => sanitizedFallback end.

Section Assign.
Variables (maskResult : TextMaskResult) (lineSpecies : list (list string)).
Variable fallbackPool : list string.

(** [activePool] of the letter with global index [li]. *)
Definition activePoolOf (li : Z) : list string :=
  let lineList :=
    match at_Z (letterMeta maskResult) li with
    | Some meta => default fallbackPool (lineSpecies !! metaLineIndex meta)
    | None => fallbackPool
    end in
  let filteredList :=
    filter (fun s => s ∈ fallbackPool) (filter (fun s => s ≠ "sunflower"%string) lineList) in
  match filteredList with [] => fallbackPool | _ => filteredList end.

(** [perLetterPool]: a window of three species from [startIndex] on, or
    the whole pool when it has fewer than three. *)
Definition perLetterPoolOf (activePool : list string) (startIndex : nat)
    : list (option string) :=
  if (SPECIES_PER_LETTER <=? length activePool)%nat
  then map (fun i => activePool !! ((startIndex + i) mod length activePool)%nat)
           (seq 0 SPECIES_PER_LETTER)
  else map Some activePool.

(** The species of the point with running index [idx] that is occurrence
    number [counter] of its letter. *)
Definition pickSpecies (activePool : list string) (startIndex counter idx : nat)
    : option string :=
  let perLetterPool := perLetterPoolOf activePool startIndex in
  Js.orElse (mjoin (perLetterPool !! (counter mod length perLetterPool)%nat))
    (Js.orElse (activePool !! (counter mod length activePool)%nat)
               (fallbackPool !! (idx mod length fallbackPool)%nat)).

(** The start index computed when a letter is met for the first time. *)
Definition firstStartIndex (point : SpawnPoint) (idx : nat) : nat :=
  match at_Z (letterMeta maskResult) (letterIndex point) with
  | Some meta => (metaLetterIndex meta mod length (activePoolOf (letterIndex point)))%nat
  | None => (idx mod length (activePoolOf (letterIndex point)))%nat
  end.

(** The callback of [points.map]; the state is the two maps
    [letterCounters] and [letterStartIndex]. *)
Definition assignPoint (st : gmap Z nat * gmap Z nat) (point : SpawnPoint) (idx : nat)
    : (gmap Z nat * gmap Z nat) * SpawnPoint :=
  let '(letterCounters, letterStartIndex) := st in
  let counter := default 0%nat (letterCounters !! letterIndex point) in
  let letterCounters' := <[letterIndex point := S counter]> letterCounters in
  let activePool := activePoolOf (letterIndex point) in
  let '(startIndex, letterStartIndex') :=
    match letterStartIndex !! letterIndex point with
    | Some s => (s, letterStartIndex)
    | None =>
        let s := firstStartIndex point idx in
        (s, <[letterIndex point := s]> letterStartIndex)
    end in
  ((letterCounters', letterStartIndex'),
   withSpecies point (pickSpecies activePool startIndex counter idx)).

Fixpoint assignFrom (idx : nat) (points : list SpawnPoint) (st : gmap Z nat * gmap Z nat)
    : list SpawnPoint :=
  match points with
  | [] => []
  | p :: r => let '(st', p') := assignPoint st p idx in p' :: assignFrom (S idx) r st'
  end.
End Assign.

Definition assignSpeciesToPoints (points : list SpawnPoint) (maskResult : TextMaskResult)
    (enabledSpecies : list string) (lineSpecies : list (list string)) : list SpawnPoint :=
  let fallbackPool := fallbackPoolOf enabledSpecies in
  match fallbackPool with
  | [] => points
  | _ => assignFrom maskResult lineSpecies fallbackPool 0 points (∅, ∅)
  end.

End HiddenMessage.

(** ** src/lib/gardenConfig.ts *)

Module GardenConfig.

Record Bounds := {
  width : Q;
  height : Q;
  offsetX : option Q;
  offsetY : option Q
}.

Record TextSetConfig := {
  id : string;
  label : string;
  lines : list string;
  startDay : Z;
  bounds : Bounds;
  density : Q;
  jitter : Q;
  seed : Z;
  maskOptions : HiddenMessage.TextMaskOptions;
  lineSpecies : list (list string)
}.

Definition TEXT_SETS : list TextSetConfig :=
  [ {| id := "valentine-2026";
       label := "Valentine's Day";
       lines := ["LOVE U"; "FOREVER"; "CHERRY"]%string;
       startDay := 1600;
       bounds := {| width := 80; height := 80; offsetX := Some 10%Q; offsetY := Some 10%Q |};
       density := 7 # 10;
       jitter := 1 # 10;
       seed := 1337;
       maskOptions := {| HiddenMessage.charSpacing := Some 14%nat;
                         HiddenMessage.lineSpacing := Some 4%nat;
                         HiddenMessage.pixelScaleX := Some 3%Q;
                         HiddenMessage.pixelScaleY := Some 2%Q |};
       lineSpecies := [ ["peony"; "lily"; "forgetmenot"; "rose"];
                        ["forgetmenot"; "rose"; "tulip"];
                        ["tulip"; "lily"; "forgetmenot"] ]%string |} ].

End GardenConfig.

(** ** src/lib/garden.ts *)

Module Garden.

Import Js.

Record FlowerData := {
  id : nat;
  x : Q;
  y : Q;
  svg : option string;
  scale : Q;
  rotation : Q;
  zIndex : Z;
  dayNumber : nat;
  date : string;
  textSetId : option string
}.

Definition COLS : nat := 64.
Definition ROWS : nat := 56.
Definition SEED : Z := 20201027.
Definition totalCells : nat := COLS * ROWS.

Record TextFlowerSlot := {
  dayIndex : Z;
  point : HiddenMessage.SpawnPoint;
  slotTextSetId : string;
  slotSvg : option string
}.

(** *** The calendar

    [new Date("2017-10-27")], [setDate(getDate() + i)] and
    [toISOString().split("T")[0]], in an environment whose local time is
    UTC: the civil date [i] days after 27 October 2017, for years of four
    digits. *)

Definition START_DAY : Z := 17466.

Definition civilFromDays (z0 : Z) : Z * Z * Z :=
  let z := z0 + 719468 in
  let era := z / 146097 in
  let doe := z - era * 146097 in
  let yoe := (doe - doe / 1460 + doe / 36524 - doe / 146096) / 365 in
  let doy := doe - (365 * yoe + yoe / 4 - yoe / 100) in
  let mp := (5 * doy + 2) / 153 in
  let d := doy - (153 * mp + 2) / 5 + 1 in
  let m := if mp <? 10 then mp + 3 else mp - 9 in
  ((yoe + era * 400 + (if m <=? 2 then 1 else 0)), m, d).

Definition digit (n : Z) : ascii := ascii_of_nat (48 + Z.to_nat (n mod 10)).

Definition pad2 (n : Z) (rest : string) : string :=
  String (digit (n / 10)) (String (digit n) rest).

Definition dateStr (i : nat) : string :=
  let '(yr, m, d) := civilFromDays (START_DAY + Z.of_nat i) in
  pad2 (yr / 100) (pad2 yr (String "-" (pad2 m (String "-" (pad2 d EmptyString))))).

(** *** The shuffle *)

(** [[l[i], l[j]] = [l[j], l[i]]].  Both indices are inside the array
    wherever the code swaps; outside it the model leaves the list alone. *)
Definition swap (i j : nat) (l : list nat) : list nat :=
  match l !! i, l !! j with
  | Some a, Some b => <[j := a]> (<[i := b]> l)
  | _, _ => l
  end.

(** [for (let i = indices.length - 1; i > 0; i--)], entered with [i]. *)
Fixpoint shuffleFrom (i : nat) (st : Z * list nat) : Z * list nat :=
  match i with
  | O => st
  | S i' =>
      let '(r, a1) := Random.next (fst st) in
      let j := Z.to_nat (Qfloor (r * inject_Z (Z.of_nat (i + 1)))) in
      shuffleFrom i' (a1, swap i j (snd st))
  end.

(** The generator's word and the permutation after the Fisher-Yates loop. *)
Definition shuffled : Z * list nat :=
  shuffleFrom (totalCells - 1) (Random.mulberry32 SEED, seq 0 totalCells).

(** *** The slots of the hidden messages *)

(** [a.sort((a, b) => a.dayIndex - b.dayIndex)]: the sort is stable. *)
Fixpoint insertSlot (s : TextFlowerSlot) (l : list TextFlowerSlot) : list TextFlowerSlot :=
  match l with
  | [] => [s]
  | h :: t => if (dayIndex s <=? dayIndex h)%Z then s :: l else h :: insertSlot s t
  end.

Definition sortSlots (l : list TextFlowerSlot) : list TextFlowerSlot := foldr insertSlot [] l.

Definition cellW : Q := 100 / inject_Z (Z.of_nat COLS).
Definition cellH : Q := 100 / inject_Z (Z.of_nat ROWS).

(** Which branch of the day loop emitted a flower, and from what: a record
    of the run kept next to each flower. *)
Inductive Source :=
  | FromText (slot : TextFlowerSlot)
  | FromGrid (cellIndex : nat)
  | Scattered.

Record LoopState := { rng : Z; gridCellUsed : nat }.

Section WithCatalog.
(** [src/lib/flowers.ts] is not part of the sources: the catalog of
    variant identifiers it exports is a parameter. *)
Variable FLOWER_SVGS : list string.

(** The object built here is used as a map from species to variants and is
    modelled by a finite map over its own keys: a species whose name is a
    property that every object inherits ([constructor], [toString], ...)
    is outside the model ([inheritedName] below lists these names). *)

Definition buildSpeciesVariants : gmap string (list string) :=
  foldl (fun m svg =>
           let species := beforeHyphen svg in
           <[species := default [] (m !! species) ++ [svg]]> m)
        ∅ FLOWER_SVGS.

(** The slots of one text set, in the order of its assigned points. *)
Definition assignedPointsOf (ts : GardenConfig.TextSetConfig) : list HiddenMessage.SpawnPoint :=
  let maskResult :=
    HiddenMessage.buildTextMask (GardenConfig.lines ts) (GardenConfig.maskOptions ts) in
  let spawnPoints :=
    HiddenMessage.generateFlowerPositionsFromMask maskResult
      {| HiddenMessage.width := GardenConfig.width (GardenConfig.bounds ts);
         HiddenMessage.height := GardenConfig.height (GardenConfig.bounds ts);
         HiddenMessage.offsetX := GardenConfig.offsetX (GardenConfig.bounds ts);
         HiddenMessage.offsetY := GardenConfig.offsetY (GardenConfig.bounds ts);
         HiddenMessage.seed := Some (GardenConfig.seed ts);
         HiddenMessage.jitter := Some (GardenConfig.jitter ts) |}
      (GardenConfig.density ts) in
  let allSpecies := uniq [] (concat (GardenConfig.lineSpecies ts)) in
  HiddenMessage.assignSpeciesToPoints spawnPoints maskResult allSpecies
    (GardenConfig.lineSpecies ts).

Definition slotOf (speciesVariants : gmap string (list string))
    (ts : GardenConfig.TextSetConfig) (index : nat) (p : HiddenMessage.SpawnPoint)
    : TextFlowerSlot :=
  let species := default "rose"%string (HiddenMessage.species p) in
  let variants :=
    default (List.filter (fun s => startsWith "rose-" s) FLOWER_SVGS)
            (speciesVariants !! species) in
  {| dayIndex := GardenConfig.startDay ts + Z.of_nat index;
     point := p;
     slotTextSetId := GardenConfig.id ts;
     slotSvg := orElse (variants !! (index mod length variants)%nat) (variants !! 0%nat) |}.

Definition slotsOf (speciesVariants : gmap string (list string))
    (ts : GardenConfig.TextSetConfig) : list TextFlowerSlot :=
  imap (slotOf speciesVariants ts) (assignedPointsOf ts).

Definition precomputeTextFlowers (textSets : list GardenConfig.TextSetConfig)
    (speciesVariants : gmap string (list string)) : list TextFlowerSlot :=
  sortSlots (concat (map (slotsOf speciesVariants) textSets)).

(** [textSlotMap]: a later [set] of a day replaces the earlier one. *)
Definition buildSlotMap (textSlots : list TextFlowerSlot) : gmap Z TextFlowerSlot :=
  foldl (fun m slot => <[dayIndex slot := slot]> m) ∅ textSlots.

Definition pickSvg (r : Q) : option string :=
  FLOWER_SVGS !! Z.to_nat (Qfloor (r * inject_Z (Z.of_nat (length FLOWER_SVGS)))).

(** The body of the day loop, for day [i]. *)
Definition plantDay (indices : list nat) (textSlotMap : gmap Z TextFlowerSlot)
    (st : LoopState) (i : nat) : (Source * FlowerData) * LoopState :=
  match textSlotMap !! Z.of_nat i with
  | Some textSlot =>
      ((FromText textSlot,
        {| id := i;
           x := HiddenMessage.x (point textSlot);
           y := HiddenMessage.y (point textSlot);
           svg := slotSvg textSlot;
           scale := 21 # 20;
           rotation := 0;
           zIndex := 200 + Z.of_nat (HiddenMessage.row (point textSlot));
           dayNumber := i + 1;
           date := dateStr i;
           textSetId := Some (slotTextSetId textSlot) |}), st)
  | None =>
      if (gridCellUsed st <? totalCells)%nat then
        let cellIndex := default 0%nat (indices !! gridCellUsed st) in
        let col := (cellIndex mod COLS)%nat in
        let row := (cellIndex / COLS)%nat in
        let '(r1, a1) := Random.next (rng st) in
        let '(r2, a2) := Random.next a1 in
        let '(r3, a3) := Random.next a2 in
        let '(r4, a4) := Random.next a3 in
        let '(r5, a5) := Random.next a4 in
        let x := (inject_Z (Z.of_nat col) * cellW + r1 * cellW)%Q in
        let y := (inject_Z (Z.of_nat row) * cellH + r2 * cellH)%Q in
        ((FromGrid cellIndex,
          {| id := i; x := x; y := y;
             svg := pickSvg r3;
             scale := (4 # 5) + r4 * (2 # 5);
             rotation := - (15) + r5 * 30;
             zIndex := Qfloor y;
             dayNumber := i + 1;
             date := dateStr i;
             textSetId := None |}),
         {| rng := a5; gridCellUsed := S (gridCellUsed st) |})
      else
        let '(r1, a1) := Random.next (rng st) in
        let '(r2, a2) := Random.next a1 in
        let '(r3, a3) := Random.next a2 in
        let '(r4, a4) := Random.next a3 in
        let '(r5, a5) := Random.next a4 in
        let x := (r1 * 100)%Q in
        let y := (r2 * 100)%Q in
        ((Scattered,
          {| id := i; x := x; y := y;
             svg := pickSvg r3;
             scale := (4 # 5) + r4 * (2 # 5);
             rotation := - (15) + r5 * 30;
             zIndex := Qfloor y;
             dayNumber := i + 1;
             date := dateStr i;
             textSetId := None |}),
         {| rng := a5; gridCellUsed := gridCellUsed st |})
  end.

(** [for (let i = 0; i < count; i++)] over the days still to come. *)
Fixpoint dayLoop (indices : list nat) (textSlotMap : gmap Z TextFlowerSlot)
    (days : list nat) (st : LoopState) : list (Source * FlowerData) :=
  match days with
  | [] => []
  | i :: r =>
      let '(f, st') := plantDay indices textSlotMap st i in
      f :: dayLoop indices textSlotMap r st'
  end.

Definition slotMapOf (textSets : list GardenConfig.TextSetConfig) : gmap Z TextFlowerSlot :=
  buildSlotMap (precomputeTextFlowers textSets buildSpeciesVariants).

(** The run of [generateGarden]: every flower with the branch that
    emitted it.  [count] is an integer; a count that is not positive
    gives no iteration. *)
Definition gardenRun (count : Z) (textSets : list GardenConfig.TextSetConfig)
    : list (Source * FlowerData) :=
  dayLoop (snd shuffled) (slotMapOf textSets) (seq 0 (Z.to_nat count))
    {| rng := fst shuffled; gridCellUsed := 0 |}.

Definition generateGarden (count : Z) (textSets : list GardenConfig.TextSetConfig)
    : list FlowerData :=
  map snd (gardenRun count textSets).

End WithCatalog.

End Garden.

(** ** src/lib/garden.ts: the emoji layer *)

Module Emojis.

Record EmojiData := {
  id : nat;
  emoji : string;
  x : Q;
  y : Q;
  rotation : Q;
  scale : Q;
  zIndex : Z;
  alwaysShow : bool
}.

Definition EMOJI_SEED : Z := 8888.

(** The body of the loop for index [i] and the entry [e] of [all] found
    there.  The object literal evaluates its properties in the order
    written, so the five draws are x, y, rotation, scale, zIndex. *)
Definition placeEmoji (nAlways : nat) (a : Z) (i : nat) (e : string) : EmojiData * Z :=
  let '(r1, a1) := Random.next a in
  let '(r2, a2) := Random.next a1 in
  let '(r3, a3) := Random.next a2 in
  let '(r4, a4) := Random.next a3 in
  let '(r5, a5) := Random.next a4 in
  ({| id := i;
      emoji := e;
      alwaysShow := (i <? nAlways)%nat;
      x := 2 + r1 * 96;
      y := 2 + r2 * 96;
      rotation := - (45) + r3 * 90;
      scale := (4 # 5) + r4 * (1 # 2);
      zIndex := 150 + Qfloor (r5 * 50) |}, a5).

(** [for (let i = 0; i < all.length; i++)], entered with index [i] and the
    entries of [all] from [i] on. *)
Fixpoint emojiLoop (nAlways : nat) (i : nat) (rest : list string) (a : Z) : list EmojiData :=
  match rest with
  | [] => []
  | e :: r =>
      let '(item, a') := placeEmoji nAlways a i e in
      item :: emojiLoop nAlways (S i) r a'
  end.

Definition generateEmojis (alwaysEmojis rotatingEmojis : list string) : list EmojiData :=
  let all := alwaysEmojis ++ rotatingEmojis in
  match all with
  | [] => []
  | _ => emojiLoop (length alwaysEmojis) 0 all (Random.mulberry32 EMOJI_SEED)
  end.

End Emojis.

(** ** src/lib/garden.ts: the earlier revision

    The file also holds the revision of [generateGarden] that draws a grid
    of 48 by 41 cells from 27 October 2020 on, takes no text sets and stops
    at the last cell. *)

Module GardenV1.

Record FlowerData := {
  id : nat;
  x : Q;
  y : Q;
  svg : option string;
  scale : Q;
  rotation : Q;
  zIndex : Z;
  dayNumber : nat;
  date : string
}.

Definition COLS : nat := 48.
Definition ROWS : nat := 41.
Definition SEED : Z := 20201027.
Definition totalCells : nat := COLS * ROWS.

(** The day number of 27 October 2020; the calendar is the one of
    [Garden.dateStr]. *)
Definition START_DAY : Z := 18562.

Definition dateStr (i : nat) : string :=
  let '(yr, m, d) := Garden.civilFromDays (START_DAY + Z.of_nat i) in
  Garden.pad2 (yr / 100)
    (Garden.pad2 yr (String "-" (Garden.pad2 m (String "-" (Garden.pad2 d EmptyString))))).

Definition shuffled : Z * list nat :=
  Garden.shuffleFrom (totalCells - 1) (Random.mulberry32 SEED, seq 0 totalCells).

Definition cellW : Q := 100 / inject_Z (Z.of_nat COLS).
Definition cellH : Q := 100 / inject_Z (Z.of_nat ROWS).

Section WithCatalog.
Variable FLOWER_SVGS : list string.

(** The body of the loop for day [i], with the generator's word threaded. *)
Definition plantCell (indices : list nat) (a : Z) (i : nat) : FlowerData * Z :=
  let cellIndex := default 0%nat (indices !! i) in
  let col := (cellIndex mod COLS)%nat in
  let row := (cellIndex / COLS)%nat in
  let '(r1, a1) := Random.next a in
  let '(r2, a2) := Random.next a1 in
  let '(r3, a3) := Random.next a2 in
  let '(r4, a4) := Random.next a3 in
  let '(r5, a5) := Random.next a4 in
  let x := (inject_Z (Z.of_nat col) * cellW + r1 * cellW)%Q in
  let y := (inject_Z (Z.of_nat row) * cellH + r2 * cellH)%Q in
  ({| id := i; x := x; y := y;
      svg := Garden.pickSvg FLOWER_SVGS r3;
      scale := (4 # 5) + r4 * (2 # 5);
      rotation := - (15) + r5 * 30;
      zIndex := Qfloor y;
      dayNumber := i + 1;
      date := dateStr i |}, a5).

Fixpoint flowerLoop (indices : list nat) (days : list nat) (a : Z) : list FlowerData :=
  match days with
  | [] => []
  | i :: r =>
      let '(f, a') := plantCell indices a i in
      f :: flowerLoop indices r a'
  end.

(** [for (let i = 0; i < Math.min(count, totalCells); i++)], for an
    integer [count]. *)
Definition generateGarden (count : Z) : list FlowerData :=
  flowerLoop (snd shuffled) (seq 0 (Z.to_nat (Z.min count (Z.of_nat totalCells))))
    (fst shuffled).

End WithCatalog.

End GardenV1.

(** ** src/lib/hiddenMessage.ts: the earlier revision

    The earlier [assignSpeciesToPoints] gives every letter one species.
    The points and the mask result are the records of the later revision,
    which have the same fields. *)

Module HiddenMessageV1.

Import Js HiddenMessage.

(** [pool] of the letter with the entry [meta]. *)
Definition poolOf (lineSpecies : list (list string)) (fallbackPool : list string)
    (meta : LetterMeta) : list string :=
  let pair := default fallbackPool (lineSpecies !! metaLineIndex meta) in
  let filtered := filter (fun s => s ∈ fallbackPool) pair in
  match filtered with [] => fallbackPool | _ => filtered end.

(** [letterSpecies]: the callback writes index [idx] on its call number
    [idx], so the array is filled from the left, one entry for each letter. *)
Definition letterSpeciesOf (maskResult : TextMaskResult) (lineSpecies : list (list string))
    (fallbackPool : list string) : list (option string) :=
  map (fun meta =>
         let pool := poolOf lineSpecies fallbackPool meta in
         pool !! (metaLetterIndex meta mod length pool)%nat)
      (letterMeta maskResult).

Definition assignSpeciesToPoints (points : list SpawnPoint) (maskResult : TextMaskResult)
    (enabledSpecies : list string) (lineSpecies : list (list string)) : list SpawnPoint :=
  let fallbackPool := match enabledSpecies with [] => DEFAULT_SPECIES | _ => enabledSpecies end in
  match fallbackPool with
  | [] => points
  | _ =>
      let letterSpecies := letterSpeciesOf maskResult lineSpecies fallbackPool in
      imap (fun idx point =>
              withSpecies point
                (orElse (mjoin (at_Z letterSpecies (letterIndex point)))
                        (fallbackPool !! (idx mod length fallbackPool)%nat)))
           points
  end.

End HiddenMessageV1.

(** ** src/app/page.tsx *)

Module Page.

(** Instants are milliseconds since the epoch, as [Date.prototype.getTime]
    gives them. *)
Definition MS_PER_DAY : Z := 1000 * 60 * 60 * 24.

(** The day number of a civil date, counted from 1 January 1970: the
    inverse of [Garden.civilFromDays]. *)
Definition daysFromCivil (y m d : Z) : Z :=
  let y' := if m <=? 2 then y - 1 else y in
  let era := y' / 400 in
  let yoe := y' - era * 400 in
  let doy := (153 * (if 2 <? m then m - 3 else m + 9) + 2) / 5 + d - 1 in
  let doe := yoe * 365 + yoe / 4 - yoe / 100 + doy in
  era * 146097 + doe - 719468.

(** [new Date("YYYY-MM-DD").getTime()]: a date-only string is midnight UTC. *)
Definition dateOnly (y m d : Z) : Z := daysFromCivil y m d * MS_PER_DAY.

Definition START_DATE : Z := dateOnly 2017 10 27.
Definition END_DATE : Z := dateOnly 2026 2 14.

(** [Math.floor((a - b) / (1000 * 60 * 60 * 24))] for instants [a], [b]. *)
Definition MAX_FLOWERS : Z := (END_DATE - START_DATE) / MS_PER_DAY.

Definition daysSinceStart (today : Z) : Z := (today - START_DATE) / MS_PER_DAY.

(** [count] of [Home], for the instant [today] that [new Date()] gives. *)
Definition count (today : Z) : Z := Z.max 0 (Z.min (daysSinceStart today) MAX_FLOWERS).

End Page.

(** ** The page that draws messages and emojis

    The revision of [page.tsx] that calls [generateGarden(count, TEXT_SETS)]
    and [generateEmojis].  The revision of [gardenConfig.ts] it imports from
    is not part of the sources: its three lists are parameters. *)

Module PageOfMessages.

Record GardenProps := {
  flowers : list Garden.FlowerData;
  total : Z;
  emojis : list Emojis.EmojiData
}.

Section Home.
Variable FLOWER_SVGS : list string.
Variable TEXT_SETS : list GardenConfig.TextSetConfig.
Variables ALWAYS_EMOJIS ROTATING_EMOJIS : list string.

(** The properties that [Home] hands to the [Garden] component, for the
    instant [today] that [new Date()] gives. *)
Definition Home (today : Z) : GardenProps :=
  let daysSinceStart := (today - Page.START_DATE) / Page.MS_PER_DAY in
  let count := Z.max 0 daysSinceStart in
  {| flowers := Garden.generateGarden FLOWER_SVGS count TEXT_SETS;
     total := count;
     emojis := Emojis.generateEmojis ALWAYS_EMOJIS ROTATING_EMOJIS |}.
End Home.

End PageOfMessages.

(** ** src/app/components/Garden.tsx *)

Module GardenView.

Inductive TimeOfDay := night | dawn | morning | day | sunset | dusk.

#[global] Instance TimeOfDay_eq_dec : EqDecision TimeOfDay.
Proof. solve_decision. Defined.

(** [hour] is what [Date.prototype.getHours] gives, an integer. *)
Definition getTimeOfDay (hour : Z) : TimeOfDay :=
  if (22 <=? hour) || (hour <? 5) then night
  else if (5 <=? hour) && (hour <? 7) then dawn
  else if (7 <=? hour) && (hour <? 10) then morning
  else if (10 <=? hour) && (hour <? 17) then day
  else if (17 <=? hour) && (hour <? 19) then sunset
  else dusk.

(** [Math.trunc], and [a % b] on numbers: the remainder has the sign of
    the dividend. *)
Definition Qtrunc (q : Q) : Z := if Qle_bool 0 q then Qfloor q else Qceiling q.

Definition rem (a b : Q) : Q := a - b * inject_Z (Qtrunc (a / b)).

Record Countdown := { days : Z; hours : Z; minutes : Z; seconds : Z }.

(** The value that [useCountdown] returns on a render.  [now] is the state
    of the hook ([None] before the first effect has run), an instant in
    milliseconds; [endDate] is [new Date(endDate).getTime()], taken as
    given. *)
Definition useCountdown (now : option Z) (endDate : Z) (isPastValentine : bool)
    : option Countdown :=
  match now with
  | None => None
  | Some now =>
      if isPastValentine then None
      else
        let diff := endDate - now in
        if diff <=? 0 then None
        else
          Some {| days := Qfloor (inject_Z diff / inject_Z (1000 * 60 * 60 * 24));
                  hours := Qfloor (rem (inject_Z diff / inject_Z (1000 * 60 * 60)) 24);
                  minutes := Qfloor (rem (inject_Z diff / inject_Z (1000 * 60)) 60);
                  seconds := Qfloor (rem (inject_Z diff / 1000) 60) |}
  end.

(** [FlowerData] as the component draws it: the flowers of the hidden
    message take negative ids. *)
Record RenderedFlower := {
  id : Z;
  x : Q;
  y : Q;
  svg : option string;
  scale : Q;
  rotation : Q;
  zIndex : Z;
  dayNumber : nat;
  date : string
}.

(** A flower of the [flowers] property. *)
Definition ofFlower (f : Garden.FlowerData) : RenderedFlower :=
  {| id := Z.of_nat (Garden.id f); x := Garden.x f; y := Garden.y f;
     svg := Garden.svg f; scale := Garden.scale f; rotation := Garden.rotation f;
     zIndex := Garden.zIndex f; dayNumber := Garden.dayNumber f; date := Garden.date f |}.

(** [hiddenFlowers].  [speciesVariants] is built as in [garden.ts]; the
    counter [hiddenId] is incremented before it is negated, on call number
    [index] of the callback. *)
Definition hiddenFlowers (FLOWER_SVGS : list string)
    (assignedHiddenPoints : list HiddenMessage.SpawnPoint) : list RenderedFlower :=
  match assignedHiddenPoints with
  | [] => []
  | _ =>
      let speciesVariants := Garden.buildSpeciesVariants FLOWER_SVGS in
      let fallbackVariants :=
        default (List.filter (fun svg => Js.startsWith "rose-" svg) FLOWER_SVGS)
                (speciesVariants !! "rose"%string) in
      imap (fun index point =>
              let species := default "rose"%string (HiddenMessage.species point) in
              let variants := default fallbackVariants (speciesVariants !! species) in
              {| id := - Z.of_nat (S index);
                 x := HiddenMessage.x point;
                 y := HiddenMessage.y point;
                 svg := Js.orElse (variants !! (index mod length variants)%nat)
                                  (variants !! 0%nat);
                 scale := 21 # 20;
                 rotation := 0;
                 zIndex := 200 + Z.of_nat (HiddenMessage.row point);
                 dayNumber := 0;
                 date := "2025-02-14" |})
           assignedHiddenPoints
  end.

(** [renderFlowers] *)
Definition renderFlowers (flowers : list Garden.FlowerData)
    (hidden : list RenderedFlower) : list RenderedFlower :=
  map ofFlower flowers ++ hidden.

End GardenView.

(** ** src/lib/useAmbientAudio.ts *)

Module AmbientAudio.

Inductive AmbientScene := day | night.

Definition NIGHT_SCENES : list GardenView.TimeOfDay :=
  [GardenView.night; GardenView.dusk; GardenView.dawn].

(** [scene] of [useAmbientAudio]. *)
Definition scene (timeOfDay : GardenView.TimeOfDay) : AmbientScene :=
  if bool_decide (timeOfDay ∈ NIGHT_SCENES) then night else day.

End AmbientAudio.

(** * Vocabulary of the properties *)

(** ** The loop of [generateGarden] *)

(** The loop state after the days [days]. *)
Definition stateAfter (FLOWER_SVGS : list string) (indices : list nat)
    (textSlotMap : gmap Z Garden.TextFlowerSlot) (days : list nat) (st : Garden.LoopState)
    : Garden.LoopState :=
  foldl (fun st i => snd (Garden.plantDay FLOWER_SVGS indices textSlotMap st i)) st days.

(** The flower of a text slot planted on day [i]. *)
Definition textFlower (i : nat) (textSlot : Garden.TextFlowerSlot) : Garden.FlowerData :=
  {| Garden.id := i;
     Garden.x := HiddenMessage.x (Garden.point textSlot);
     Garden.y := HiddenMessage.y (Garden.point textSlot);
     Garden.svg := Garden.slotSvg textSlot;
     Garden.scale := 21 # 20;
     Garden.rotation := 0;
     Garden.zIndex := 200 + Z.of_nat (HiddenMessage.row (Garden.point textSlot));
     Garden.dayNumber := i + 1;
     Garden.date := Garden.dateStr i;
     Garden.textSetId := Some (Garden.slotTextSetId textSlot) |}.

(** The flower lies in grid cell [c]. *)
Definition inCell (c : nat) (f : Garden.FlowerData) : Prop :=
  (inject_Z (Z.of_nat (c mod Garden.COLS)) * Garden.cellW <= Garden.x f)%Q
  /\ (Garden.x f < (inject_Z (Z.of_nat (c mod Garden.COLS)) + 1) * Garden.cellW)%Q
  /\ (inject_Z (Z.of_nat (c / Garden.COLS)) * Garden.cellH <= Garden.y f)%Q
  /\ (Garden.y f < (inject_Z (Z.of_nat (c / Garden.COLS)) + 1) * Garden.cellH)%Q.

(** The flower lies in the canvas [0,100] x [0,100]. *)
Definition inCanvas (f : Garden.FlowerData) : Prop :=
  (0 <= Garden.x f)%Q /\ (Garden.x f <= 100)%Q
  /\ (0 <= Garden.y f)%Q /\ (Garden.y f <= 100)%Q.

(** What one day emits and how it moves the loop state. *)
Definition dayFacts (indices : list nat) (textSlotMap : gmap Z Garden.TextFlowerSlot)
    (st : Garden.LoopState) (i : nat) (e : Garden.Source * Garden.FlowerData)
    (st' : Garden.LoopState) : Prop :=
  match fst e with
  | Garden.FromText slot =>
      textSlotMap !! Z.of_nat i = Some slot /\ st' = st /\ snd e = textFlower i slot
  | Garden.FromGrid c =>
      textSlotMap !! Z.of_nat i = None
      /\ (Garden.gridCellUsed st < Garden.totalCells)%nat
      /\ c = default 0%nat (indices !! Garden.gridCellUsed st)
      /\ Garden.gridCellUsed st' = S (Garden.gridCellUsed st)
      /\ Garden.textSetId (snd e) = None
      /\ inCell c (snd e)
  | Garden.Scattered =>
      textSlotMap !! Z.of_nat i = None
      /\ (Garden.totalCells <= Garden.gridCellUsed st)%nat
      /\ Garden.gridCellUsed st' = Garden.gridCellUsed st
      /\ Garden.textSetId (snd e) = None
      /\ (0 <= Garden.x (snd e))%Q /\ (Garden.x (snd e) < 100)%Q
      /\ (0 <= Garden.y (snd e))%Q /\ (Garden.y (snd e) < 100)%Q
  end.

Definition gridCellOf (e : Garden.Source * Garden.FlowerData) : option nat :=
  match fst e with Garden.FromGrid c => Some c | _ => None end.

(** The grid cells consumed by a run, in the order of consumption. *)
Definition gridCells (run : list (Garden.Source * Garden.FlowerData)) : list nat :=
  omap gridCellOf run.

(** The grid cursor [gridCellUsed] of [generateGarden] after its first [n]
    days. *)
Definition cursorAfter (FLOWER_SVGS : list string)
    (textSets : list GardenConfig.TextSetConfig) (n : nat) : nat :=
  Garden.gridCellUsed
    (stateAfter FLOWER_SVGS (snd Garden.shuffled) (Garden.slotMapOf FLOWER_SVGS textSets)
       (seq 0 n) {| Garden.rng := fst Garden.shuffled; Garden.gridCellUsed := 0 |}).

(** ** The slot table *)

(** The slots scheduled on day [d], in list order. *)
Definition onDay (d : Z) (l : list Garden.TextFlowerSlot) : list Garden.TextFlowerSlot :=
  List.filter (fun s => Garden.dayIndex s =? d) l.

(** The slots of all the text sets, before the sort. *)
Definition allSlots (FLOWER_SVGS : list string) (textSets : list GardenConfig.TextSetConfig)
    : list Garden.TextFlowerSlot :=
  concat (map (Garden.slotsOf FLOWER_SVGS (Garden.buildSpeciesVariants FLOWER_SVGS)) textSets).

(** The slot of point number [k] of a text set. *)
Definition slotAt (FLOWER_SVGS : list string) (ts : GardenConfig.TextSetConfig) (k : nat)
    : option Garden.TextFlowerSlot :=
  Garden.slotOf FLOWER_SVGS (Garden.buildSpeciesVariants FLOWER_SVGS) ts k
    <$> Garden.assignedPointsOf ts !! k.

(** Text set [ts] schedules one of its points on day [d]. *)
Definition schedules (ts : GardenConfig.TextSetConfig) (d : Z) : Prop :=
  exists k, GardenConfig.startDay ts + Z.of_nat k = d
            /\ (k < length (Garden.assignedPointsOf ts))%nat.

(** ** The text mask *)

Definition notSpace (c : ascii) : Prop := c <> " "%char.

#[local] Instance notSpace_dec c : Decision (notSpace c).
Proof. unfold notSpace. apply _. Defined.

(** The text the model covers: every character of every line is an ASCII
    character.  On such a line a character of the model is a character of
    the string and one unit of its [length], and [toUpperCase] turns the
    letters a..z into A..Z and keeps everything else, the length
    included. *)
Definition asciiChar (c : ascii) : bool := (nat_of_ascii c <? 128)%nat.

Definition asciiLine (line : string) : bool := forallb asciiChar (list_ascii_of_string line).

Definition asciiText (lines : list string) : Prop := forallb asciiLine lines = true.

(** The rows of the mask have the lengths [shape]. *)
Definition hasShape (shape : list nat) (g : list (list bool) * list (list Z)) : Prop :=
  map length (fst g) = shape.

(** ** Spawn points *)

(** [density] is not a whole number. *)
Definition hasFraction (density : Q) : Prop := (inject_Z (Qfloor density) < density)%Q.

(** The reading of C2 in which the extra-copy draw is taken for every
    density: each on cell would advance the generator by one draw more than
    its jitter draws. *)
Definition drawsExtraForEveryDensity (density : Q) : Prop :=
  forall (letterMapV : list (list Z)) (st : Z * list HiddenMessage.SpawnPoint)
         (row col : nat) (li : Z),
    letterMapV !! row ≫= (fun r => r !! col) = Some li -> li <> -1 ->
    fst (HiddenMessage.spawnCell letterMapV [] 0 0 1 1 0 density st true row col)
    = Random.advance
        (1 + 2 * Z.to_nat (HiddenMessage.baseCopies density
                           + fst (HiddenMessage.extraCopy density (fst st))))
        (fst st).

(** The point sits in a cell of a mask of [rows] by [cols] cells, moved by
    two draws. *)
Definition pointOk (offX offY cw chh jit : Q) (rows cols : nat) (p : HiddenMessage.SpawnPoint)
    : Prop :=
  (HiddenMessage.row p < rows)%nat /\ (HiddenMessage.col p < cols)%nat
  /\ exists r1 r2 : Q,
       (0 <= r1)%Q /\ (r1 < 1)%Q /\ (0 <= r2)%Q /\ (r2 < 1)%Q
       /\ HiddenMessage.x p
          = (offX + (inject_Z (Z.of_nat (HiddenMessage.col p)) + (1 # 2)
                     + (r1 - (1 # 2)) * jit) * cw)%Q
       /\ HiddenMessage.y p
          = (offY + (inject_Z (Z.of_nat (HiddenMessage.row p)) + (1 # 2)
                     + (r2 - (1 # 2)) * jit) * chh)%Q.

(** The box of C8: the bounding box widened on each side by half the
    jitter, in cells. *)
Definition inBox (offX offY cw chh jit : Q) (width height : Q) (px py : Q) : Prop :=
  (offX - (jit / 2) * cw <= px)%Q /\ (px <= offX + width + (jit / 2) * cw)%Q
  /\ (offY - (jit / 2) * chh <= py)%Q /\ (py <= offY + height + (jit / 2) * chh)%Q.

Definition wellFormedBounds (ts : GardenConfig.TextSetConfig) : Prop :=
  (0 <= GardenConfig.width (GardenConfig.bounds ts))%Q
  /\ (0 <= GardenConfig.height (GardenConfig.bounds ts))%Q
  /\ (0 <= GardenConfig.jitter ts)%Q.

(** The bounding box of a text set, widened on each side by half the
    jitter times the size of one mask cell. *)
Definition inMessageBox (ts : GardenConfig.TextSetConfig) (px py : Q) : Prop :=
  let maskResult :=
    HiddenMessage.buildTextMask (GardenConfig.lines ts) (GardenConfig.maskOptions ts) in
  let b := GardenConfig.bounds ts in
  let offsetX := default ((100 - GardenConfig.width b) / 2)%Q (GardenConfig.offsetX b) in
  let offsetY := default ((100 - GardenConfig.height b) / 2)%Q (GardenConfig.offsetY b) in
  let cellW := (GardenConfig.width b
                / inject_Z (Z.of_nat (HiddenMessage.maskCols (HiddenMessage.mask maskResult))))%Q in
  let cellH := (GardenConfig.height b
                / inject_Z (Z.of_nat (length (HiddenMessage.mask maskResult))))%Q in
  (offsetX - (GardenConfig.jitter ts / 2) * cellW <= px)%Q
  /\ (px <= offsetX + GardenConfig.width b + (GardenConfig.jitter ts / 2) * cellW)%Q
  /\ (offsetY - (GardenConfig.jitter ts / 2) * cellH <= py)%Q
  /\ (py <= offsetY + GardenConfig.height b + (GardenConfig.jitter ts / 2) * cellH)%Q.

(** ** Species *)

Definition onlySunflower (pool : list string) : Prop :=
  forall s, s ∈ pool -> s = "sunflower"%string.

(** The pool that [precomputeTextFlowers] enables for a text set: the
    species of its line palettes, or the default list when there are none. *)
Definition enabledPool (ts : GardenConfig.TextSetConfig) : list string :=
  HiddenMessage.basePoolOf (Js.uniq [] (concat (GardenConfig.lineSpecies ts))).

(** Neither the species of the slot's point nor the species prefix of its
    variant is sunflower. *)
Definition sunflowerFree (slot : Garden.TextFlowerSlot) : Prop :=
  HiddenMessage.species (Garden.point slot) <> Some "sunflower"%string
  /\ match Garden.slotSvg slot with
     | Some v => Js.beforeHyphen v <> "sunflower"%string
     | None => True
     end.

(** The points of letter [li], in occurrence order. *)
Definition occurrences (li : Z) (out : list HiddenMessage.SpawnPoint)
    : list HiddenMessage.SpawnPoint :=
  List.filter (fun p => HiddenMessage.letterIndex p =? li) out.

(** The species of occurrence number [c] of letter [li] when its window
    starts at [start], for a pool of three or more. *)
Definition windowSpecies (maskResult : HiddenMessage.TextMaskResult)
    (lineSpecies : list (list string)) (fallbackPool : list string) (li : Z)
    (start c : nat) : option string :=
  HiddenMessage.activePoolOf maskResult lineSpecies fallbackPool li
    !! ((start + c mod 3)
        mod length (HiddenMessage.activePoolOf maskResult lineSpecies fallbackPool li))%nat.

(** No species fills three consecutive places of the pool, the pool read
    as a cycle. *)
Definition noTripleRun (pool : list string) : Prop :=
  forall i : nat,
    ~ (pool !! (i mod length pool)%nat = pool !! (S i mod length pool)%nat
       /\ pool !! (S i mod length pool)%nat = pool !! (S (S i) mod length pool)%nat).

(** No three occurrences in a row are assigned one species. *)
Definition noThreeAlike (occ : list HiddenMessage.SpawnPoint) : Prop :=
  forall k p1 p2 p3,
    occ !! k = Some p1 -> occ !! S k = Some p2 -> occ !! S (S k) = Some p3 ->
    ~ (HiddenMessage.species p1 = HiddenMessage.species p2
       /\ HiddenMessage.species p2 = HiddenMessage.species p3).

(** ** Sample inputs *)

Definition sampleCatalog : list string :=
  ["rose-pastel"; "rose-earth"; "tulip-ocean"; "sunflower-sunset"; "lily-forest";
   "peony-pastel"; "forgetmenot-ocean"]%string.

Definition defaultMaskOptions : HiddenMessage.TextMaskOptions :=
  {| HiddenMessage.charSpacing := None; HiddenMessage.lineSpacing := None;
     HiddenMessage.pixelScaleX := None; HiddenMessage.pixelScaleY := None |}.

(** A text set that writes the single letter L at density 1 (twelve
    points). *)
Definition letterL (name : string) (start : Z) (palette : list (list string))
    : GardenConfig.TextSetConfig :=
  {| GardenConfig.id := name;
     GardenConfig.label := name;
     GardenConfig.lines := ["L"%string];
     GardenConfig.startDay := start;
     GardenConfig.bounds := {| GardenConfig.width := 60; GardenConfig.height := 40;
                               GardenConfig.offsetX := None;
                               GardenConfig.offsetY := Some 5%Q |};
     GardenConfig.density := 1;
     GardenConfig.jitter := 1 # 5;
     GardenConfig.seed := 7;
     GardenConfig.maskOptions := defaultMaskOptions;
     GardenConfig.lineSpecies := palette |}.

Definition repeatedPalette : list (list string) :=
  [["rose"; "rose"; "rose"; "tulip"; "lily"]%string].

Definition plainPalette : list (list string) := [["peony"; "lily"; "rose"]%string].

Definition firstSet : GardenConfig.TextSetConfig := letterL "first" 10 plainPalette.

Definition secondSet : GardenConfig.TextSetConfig := letterL "second" 15 plainPalette.

(** ** Emojis *)

(** The ranges that [generateEmojis] places an emoji in. *)
Definition emojiInRange (item : Emojis.EmojiData) : Prop :=
  (2 <= Emojis.x item)%Q /\ (Emojis.x item < 98)%Q
  /\ (2 <= Emojis.y item)%Q /\ (Emojis.y item < 98)%Q
  /\ (- (45) <= Emojis.rotation item)%Q /\ (Emojis.rotation item < 45)%Q
  /\ ((4 # 5) <= Emojis.scale item)%Q /\ (Emojis.scale item < (13 # 10))%Q
  /\ 150 <= Emojis.zIndex item <= 199.

(** ** The looks of flowers *)

(** A flower of a hidden message carries the id of its text set. *)
Definition isMessageFlower (f : Garden.FlowerData) : bool :=
  match Garden.textSetId f with Some _ => true | None => false end.

Definition isOrdinaryFlower (f : Garden.FlowerData) : bool := negb (isMessageFlower f).

Definition ordinaryFlowers (l : list Garden.FlowerData) : list Garden.FlowerData :=
  List.filter isOrdinaryFlower l.

(** What is drawn of a flower: everything but its id, day number and date. *)
Definition appearance (f : Garden.FlowerData) : Q * Q * option string * Q * Q * Z :=
  (Garden.x f, Garden.y f, Garden.svg f, Garden.scale f, Garden.rotation f, Garden.zIndex f).

Definition messageLook (f : Garden.FlowerData) : Prop :=
  Garden.scale f = (21 # 20)%Q /\ Garden.rotation f = 0%Q /\ 200 <= Garden.zIndex f.

Definition ordinaryLook (f : Garden.FlowerData) : Prop :=
  ((4 # 5) <= Garden.scale f)%Q /\ (Garden.scale f < (6 # 5))%Q
  /\ (- (15) <= Garden.rotation f)%Q /\ (Garden.rotation f < 15)%Q
  /\ 0 <= Garden.zIndex f <= 99.

(** The look of a flower, by its kind, and its place in the calendar. *)
Definition flowerLook (f : Garden.FlowerData) : Prop :=
  Garden.dayNumber f = (Garden.id f + 1)%nat
  /\ Garden.date f = Garden.dateStr (Garden.id f)
  /\ if isMessageFlower f then messageLook f else ordinaryLook f.

(** The flower shows a variant of the catalog. *)
Definition svgFrom (FLOWER_SVGS : list string) (f : Garden.FlowerData) : Prop :=
  exists v, Garden.svg f = Some v /\ v ∈ FLOWER_SVGS.

(** The catalog entries filed under a species. *)
Definition variantsOf (FLOWER_SVGS : list string) (species : string) : list string :=
  List.filter (fun svg => String.eqb (Js.beforeHyphen svg) species) FLOWER_SVGS.

(** The names that the table of species, a plain object, inherits from
    [Object.prototype].  Read under such a name the table gives the
    inherited property, neither [undefined] nor a list of variants. *)
Definition objectPrototypeNames : list string :=
  ["constructor"; "__defineGetter__"; "__defineSetter__"; "hasOwnProperty";
   "__lookupGetter__"; "__lookupSetter__"; "isPrototypeOf"; "propertyIsEnumerable";
   "toString"; "valueOf"; "__proto__"; "toLocaleString"]%string.

Definition inheritedName (species : string) : bool :=
  existsb (String.eqb species) objectPrototypeNames.

(** No entry of the catalog is filed under an inherited name. *)
Definition ordinaryCatalog (FLOWER_SVGS : list string) : Prop :=
  forallb (fun svg => negb (inheritedName (Js.beforeHyphen svg))) FLOWER_SVGS = true.

(** No palette of the text sets names an inherited name. *)
Definition ordinaryPalettes (textSets : list GardenConfig.TextSetConfig) : Prop :=
  forallb (fun ts => forallb (fun species => negb (inheritedName species))
                       (concat (GardenConfig.lineSpecies ts))) textSets = true.

(** The slots are in the order of their days. *)
Definition byDay (a b : Garden.TextFlowerSlot) : Prop :=
  Garden.dayIndex a <= Garden.dayIndex b.

(** ** The grids of a text mask *)

(** [g[r][c]], [None] outside the grid. *)
Definition cellAt {A : Type} (g : list (list A)) (r c : nat) : option A :=
  g !! r ≫= fun row => row !! c.

(** A cell of the mask and the same cell of the letter map, for a mask of
    [n] letters: an on cell carries the index of a letter, an off cell the
    sentinel, and both grids end at the same place. *)
Definition cellsAgree (n : Z) (isOn : option bool) (li : option Z) : Prop :=
  match isOn with
  | Some true => exists i, li = Some i /\ 0 <= i < n
  | Some false => li = Some (-1)
  | None => li = None
  end.

Definition gridsAgree (n : Z) (g : list (list bool) * list (list Z)) : Prop :=
  forall r c, cellsAgree n (cellAt (fst g) r c) (cellAt (snd g) r c).

(** Both grids have rows of the lengths [shape] and agree cell by cell. *)
Definition gridsOk (shape : list nat) (n : Z) (g : list (list bool) * list (list Z)) : Prop :=
  map length (fst g) = shape /\ map length (snd g) = shape /\ gridsAgree n g.

(** The state of the stamping loops is sound for a grid of [rows] by
    [cols] cells. *)
Definition canvasOk (rows cols : nat) (cv : HiddenMessage.Canvas) : Prop :=
  HiddenMessage.letterCounter cv = Z.of_nat (length (HiddenMessage.cLetters cv))
  /\ length (HiddenMessage.cLetterMeta cv) = length (HiddenMessage.cLetters cv)
  /\ gridsOk (replicate rows cols) (HiddenMessage.letterCounter cv)
       (HiddenMessage.cMask cv, HiddenMessage.cLetterMap cv).

(** The pixel scales that [buildTextMask] uses. *)
Definition scaleX (options : HiddenMessage.TextMaskOptions) : nat :=
  Z.to_nat (Z.max 1 (Qfloor (default 1%Q (HiddenMessage.pixelScaleX options)))).

Definition scaleY (options : HiddenMessage.TextMaskOptions) : nat :=
  Z.to_nat (Z.max 1 (Qfloor (default 1%Q (HiddenMessage.pixelScaleY options)))).

(** The size of the mask of a text: seven glyph rows for each line and the
    line spacing between two lines; six glyph columns and the character
    spacing for each character of the longest line, less one spacing. *)
Definition textRows (lines : list string) (options : HiddenMessage.TextMaskOptions) : nat :=
  (length lines * (7 * scaleY options)
   + (length lines - 1) * default 2%nat (HiddenMessage.lineSpacing options))%nat.

Definition textCols (lines : list string) (options : HiddenMessage.TextMaskOptions) : nat :=
  (foldr Nat.max 0%nat (map (fun line => Nat.max (String.length line) 1) lines)
   * (6 * scaleX options + default 2%nat (HiddenMessage.charSpacing options))
   - default 2%nat (HiddenMessage.charSpacing options))%nat.

(** The entries of [letterMeta] that a line gives, read from position
    [pos] on: one for each character that is not a space, with the line
    and the position of the character in the line. *)
Fixpoint lineMeta (lineIndex pos : nat) (line : list ascii) : list HiddenMessage.LetterMeta :=
  match line with
  | [] => []
  | ch :: rest =>
      (if Ascii.eqb ch " "%char then []
       else [{| HiddenMessage.metaLineIndex := lineIndex;
                HiddenMessage.metaLetterIndex := pos;
                HiddenMessage.metaChar := ch |}])
      ++ lineMeta lineIndex (S pos) rest
  end.

(** The number of on cells of a mask. *)
Definition onCells (m : list (list bool)) : nat :=
  length (List.filter (fun isOn : bool => isOn) (concat m)).

(** The spawn point sits on an on cell of the mask and carries the letter
    of that cell. *)
Definition onLetter (m : HiddenMessage.TextMaskResult) (p : HiddenMessage.SpawnPoint) : Prop :=
  cellAt (HiddenMessage.mask m) (HiddenMessage.row p) (HiddenMessage.col p) = Some true
  /\ cellAt (HiddenMessage.letterMap m) (HiddenMessage.row p) (HiddenMessage.col p)
     = Some (HiddenMessage.letterIndex p)
  /\ HiddenMessage.letterIndex p <> -1
  /\ HiddenMessage.lineIndex p
     = default 0%nat (HiddenMessage.metaLineIndex
                        <$> Js.at_Z (HiddenMessage.letterMeta m) (HiddenMessage.letterIndex p))
  /\ HiddenMessage.letterChar p
     = default EmptyString
         ((fun mt => String (HiddenMessage.metaChar mt) EmptyString)
            <$> Js.at_Z (HiddenMessage.letterMeta m) (HiddenMessage.letterIndex p)).

(** [p] is at or before the cell [(row, col)] in reading order: rows from
    the top, and from the left in a row. *)
Definition atOrBefore (row col : nat) (p : HiddenMessage.SpawnPoint) : Prop :=
  (HiddenMessage.row p < row)%nat
  \/ (HiddenMessage.row p = row /\ (HiddenMessage.col p <= col)%nat).

Definition readingOrder (p q : HiddenMessage.SpawnPoint) : Prop :=
  atOrBefore (HiddenMessage.row q) (HiddenMessage.col q) p.

(** The points pushed so far, when the scan stands at the cell
    [(row, col)]: they sit on letters, at or before that cell, in reading
    order, and are numbered in the order of pushing. *)
Definition scanOk (maskResult : HiddenMessage.TextMaskResult) (row col : nat)
    (st : Z * list HiddenMessage.SpawnPoint) : Prop :=
  StronglySorted readingOrder (snd st)
  /\ Forall (fun p => onLetter maskResult p /\ atOrBefore row col p) (snd st)
  /\ map HiddenMessage.pixelIndex (snd st) = seq 0 (length (snd st)).

(** ** The earlier grid *)

(** The flower lies in cell [c] of the grid of 48 by 41 cells. *)
Definition inCellV1 (c : nat) (f : GardenV1.FlowerData) : Prop :=
  (inject_Z (Z.of_nat (c mod GardenV1.COLS)) * GardenV1.cellW <= GardenV1.x f)%Q
  /\ (GardenV1.x f < (inject_Z (Z.of_nat (c mod GardenV1.COLS)) + 1) * GardenV1.cellW)%Q
  /\ (inject_Z (Z.of_nat (c / GardenV1.COLS)) * GardenV1.cellH <= GardenV1.y f)%Q
  /\ (GardenV1.y f < (inject_Z (Z.of_nat (c / GardenV1.COLS)) + 1) * GardenV1.cellH)%Q.

(** The point of a text set knows its letter: it sits on an on cell of
    the mask of the text, its letter index names one of the letters, and
    it has a species. *)
Definition knowsLetter (m : HiddenMessage.TextMaskResult) (p : HiddenMessage.SpawnPoint)
    : Prop :=
  onLetter m p
  /\ 0 <= HiddenMessage.letterIndex p < Z.of_nat (length (HiddenMessage.letters m))
  /\ exists s, HiddenMessage.species p = Some s.

(** * Properties *)

(** ** The generator *)

Lemma u32_range (z : Z) : 0 <= Random.u32 z < 4294967296.
Proof. unfold Random.u32. apply Z.mod_pos_bound. lia. Qed.

Lemma next_range (a : Z) : (0 <= fst (Random.next a))%Q /\ (fst (Random.next a) < 1)%Q.
Proof.
  unfold Random.next. cbv zeta. cbn [fst].
  match goal with |- context [Qmake (Random.u32 ?t) _] => pose proof (u32_range t) as Hr end.
  unfold Qle, Qlt. cbn [Qnum Qden]. lia.
Qed.

(** ** The day loop *)

Section DayLoop.
Variable FLOWER_SVGS : list string.
Variable indices : list nat.
Variable textSlotMap : gmap Z Garden.TextFlowerSlot.

Local Abbreviation plant := (Garden.plantDay FLOWER_SVGS indices textSlotMap).
Local Abbreviation loop := (Garden.dayLoop FLOWER_SVGS indices textSlotMap).

Lemma plantDay_id st i : Garden.id (snd (fst (plant st i))) = i.
Proof.
  unfold Garden.plantDay.
  destruct (textSlotMap !! Z.of_nat i); [reflexivity|].
  destruct (Garden.gridCellUsed st <? Garden.totalCells)%nat;
    repeat (destruct (Random.next _)); reflexivity.
Qed.

Lemma dayLoop_app days1 days2 st :
  loop (days1 ++ days2) st
  = loop days1 st ++ loop days2 (stateAfter FLOWER_SVGS indices textSlotMap days1 st).
Proof.
  revert st. induction days1 as [|i r IH]; intros st; [reflexivity|].
  cbn [app Garden.dayLoop]. unfold stateAfter. cbn [foldl].
  destruct (Garden.plantDay FLOWER_SVGS indices textSlotMap st i) as [f st'] eqn:E.
  cbn [snd app]. f_equal. apply IH.
Qed.

Lemma dayLoop_length days st : length (loop days st) = length days.
Proof.
  revert st. induction days as [|i r IH]; intros st; [reflexivity|].
  cbn [Garden.dayLoop].
  destruct (Garden.plantDay FLOWER_SVGS indices textSlotMap st i) as [f st'].
  cbn [length]. f_equal. apply IH.
Qed.

Lemma dayLoop_ids days st : map (fun f => Garden.id (snd f)) (loop days st) = days.
Proof.
  revert st. induction days as [|i r IH]; intros st; [reflexivity|].
  cbn [Garden.dayLoop]. pose proof (plantDay_id st i) as Hid.
  destruct (Garden.plantDay FLOWER_SVGS indices textSlotMap st i) as [f st'].
  cbn [map]. f_equal; [exact Hid | apply IH].
Qed.

Lemma dayLoop_snoc days i st :
  loop (days ++ [i]) st
  = loop days st ++ [fst (plant (stateAfter FLOWER_SVGS indices textSlotMap days st) i)].
Proof.
  rewrite dayLoop_app. f_equal. cbn [Garden.dayLoop].
  destruct (Garden.plantDay _ _ _ _ _) as [f st']. reflexivity.
Qed.
End DayLoop.

(** C3 (id density).  For every integer [count] and every list of text
    sets, [generateGarden] returns exactly [count] flowers (none when
    [count] is not positive) whose ids, in output order, are
    0, 1, ..., count-1. *)
Theorem generateGarden_id_density (FLOWER_SVGS : list string) (count : Z)
    (textSets : list GardenConfig.TextSetConfig) :
  length (Garden.generateGarden FLOWER_SVGS count textSets) = Z.to_nat count
  /\ map Garden.id (Garden.generateGarden FLOWER_SVGS count textSets) = seq 0 (Z.to_nat count)
  /\ (count <= 0 -> Garden.generateGarden FLOWER_SVGS count textSets = []).
Proof.
  unfold Garden.generateGarden, Garden.gardenRun.
  split; [|split].
  - rewrite length_map, dayLoop_length. apply length_seq.
  - rewrite map_map. apply dayLoop_ids.
  - intros Hle. replace (Z.to_nat count) with 0%nat by lia. reflexivity.
Qed.

Lemma generateGarden_id_density_witness :
  (-2 <= 0) /\ Garden.generateGarden sampleCatalog (-2) GardenConfig.TEXT_SETS = [].
Proof.
  split; [lia|].
  apply (generateGarden_id_density sampleCatalog (-2) GardenConfig.TEXT_SETS). lia.
Defined.

(** C1 (prefix stability).  For every natural [n] and fixed text sets,
    [generateGarden (n+1)] is [generateGarden n] followed by one new flower,
    whose id is [n]: every earlier flower is the same record, field by
    field. *)
Theorem generateGarden_prefix_stable (FLOWER_SVGS : list string) (n : nat)
    (textSets : list GardenConfig.TextSetConfig) :
  exists f : Garden.FlowerData,
    Garden.id f = n
    /\ Garden.generateGarden FLOWER_SVGS (Z.of_nat n + 1) textSets
       = Garden.generateGarden FLOWER_SVGS (Z.of_nat n) textSets ++ [f].
Proof.
  unfold Garden.generateGarden, Garden.gardenRun.
  replace (Z.to_nat (Z.of_nat n + 1)) with (S n) by lia.
  rewrite Nat2Z.id, seq_S, Nat.add_0_l, dayLoop_snoc, map_app.
  eexists. split; [|reflexivity].
  apply plantDay_id.
Qed.

(** ** The text mask *)

Section TextMask.
Import HiddenMessage.

(** A glyph without a set pixel leaves both grids as they are. *)
Lemma stampGlyph_blank rows cols psx psy startRow colCursor idx g :
  stampGlyph rows cols psx psy (glyphFor " "%char) startRow colCursor idx g = g.
Proof. reflexivity. Qed.


Section Step.
Variables (rows cols psx psy lineIndex startRow w sp : nat).

Local Abbreviation step := (fun st ch => stampChar rows cols psx psy lineIndex startRow st ch w sp).

Lemma stampChar_space cv colCursor charPosition :
  step (cv, colCursor, charPosition) " "%char
  = (cv, (colCursor + (w + sp))%nat, S charPosition).
Proof.
  unfold stampChar. cbn [Ascii.eqb Bool.eqb]. cbn [Z.eqb Pos.eqb].
  rewrite stampGlyph_blank. destruct cv; reflexivity.
Qed.

Lemma stampChar_letter cv colCursor charPosition ch :
  0 <= letterCounter cv -> ch <> " "%char ->
  let cv' := fst (fst (step (cv, colCursor, charPosition) ch)) in
  letterCounter cv' = letterCounter cv + 1
  /\ cLetters cv' = cLetters cv ++ [ch]
  /\ cLetterMeta cv' = cLetterMeta cv ++
       [{| metaLineIndex := lineIndex; metaLetterIndex := charPosition; metaChar := ch |}]
  /\ (cMask cv', cLetterMap cv')
     = stampGlyph rows cols psx psy (glyphFor ch) startRow colCursor (letterCounter cv)
         (cMask cv, cLetterMap cv).
Proof.
  intros Hc Hch. unfold stampChar.
  destruct (Ascii.eqb ch " "%char) eqn:E; [apply Ascii.eqb_eq in E; contradiction|].
  destruct (letterCounter cv =? -1) eqn:E1; [apply Z.eqb_eq in E1; lia|].
  cbn [fst snd cLetters cLetterMeta letterCounter cMask cLetterMap].
  repeat split. symmetry. apply surjective_pairing.
Qed.

End Step.


End TextMask.

(** ** Spawn points: the draws of one mask cell *)

Section SpawnDraws.
Import HiddenMessage.

Lemma advance_next (k : nat) (a : Z) :
  Random.advance k (snd (Random.next a)) = Random.advance (S k) a.
Proof. exact (eq_sym (Nat.iter_succ_r k (fun s => snd (Random.next s)) a)). Qed.

Variables (letterMapV : list (list Z)) (letterMetaV : list LetterMeta).
Variables (offX offY cw chh jit : Q).

Local Abbreviation copies := (copiesLoop letterMapV letterMetaV offX offY cw chh jit).

(** With a letter behind the cell, every copy takes two draws. *)
Lemma copiesLoop_draws (n row col : nat) (st : Z * list SpawnPoint) (li : Z) :
  letterMapV !! row ≫= (fun r => r !! col) = Some li -> li <> -1 ->
  fst (copies n row col st) = Random.advance (2 * n) (fst st)
  /\ length (snd (copies n row col st)) = (length (snd st) + n)%nat.
Proof.
  intros Hli Hne. revert st. induction n as [|n IH]; intros st.
  - cbn. split; [reflexivity | lia].
  - cbn [copiesLoop]. rewrite Hli. cbn [from_option id].
    destruct (Random.next (fst st)) as [r1 a1] eqn:E1.
    destruct (Random.next a1) as [r2 a2] eqn:E2.
    destruct (li =? -1) eqn:E; [apply Z.eqb_eq in E; contradiction|].
    match goal with |- context [copiesLoop _ _ _ _ _ _ _ n row col ?s] =>
      destruct (IH s) as [I1 I2]
    end.
    rewrite I1, I2. cbn [fst snd]. rewrite length_app. cbn [length].
    split; [|lia].
    replace a2 with (snd (Random.next a1)) by (rewrite E2; reflexivity).
    replace a1 with (snd (Random.next (fst st))) by (rewrite E1; reflexivity).
    rewrite !advance_next. f_equal. lia.
Qed.
End SpawnDraws.

Section SpawnCell.
Import HiddenMessage.

Lemma fractional_positive (density : Q) :
  Js.Qltb 0 (fractional density) = true <-> hasFraction density.
Proof.
  unfold Js.Qltb, fractional, baseCopies, hasFraction.
  pose proof (Qfloor_le density) as Hlo.
  pose proof (Qlt_floor density) as Hhi. rewrite inject_Z_plus in Hhi.
  set (fl := inject_Z (Qfloor density)) in *.
  destruct (Q.min_spec 1 (density - fl)) as [[H1 E1]|[H1 E1]];
    destruct (Q.max_spec 0 (Qmin 1 (density - fl))) as [[H2 E2]|[H2 E2]];
    rewrite Bool.negb_true_iff, <- Bool.not_true_iff_false, Qle_bool_iff;
    generalize dependent (Qmax 0 (Qmin 1 (density - fl)));
    generalize dependent (Qmin 1 (density - fl)); intros; split; intros; lra.
Qed.

Lemma extraCopy_state (density : Q) (a : Z) :
  snd (extraCopy density a)
  = if Js.Qltb 0 (fractional density) then snd (Random.next a) else a.
Proof.
  unfold extraCopy. destruct (Js.Qltb 0 (fractional density)); [|reflexivity].
  destruct (Random.next a). reflexivity.
Qed.

Lemma extraCopy_whole (density : Q) (a : Z) :
  ~ hasFraction density -> extraCopy density a = (0, a).
Proof.
  intros H. unfold extraCopy.
  destruct (Js.Qltb 0 (fractional density)) eqn:E; [|reflexivity].
  apply fractional_positive in E. contradiction.
Qed.

Variables (letterMapV : list (list Z)) (letterMetaV : list LetterMeta).
Variables (offX offY cw chh jit : Q).

Lemma spawnCell_state (density : Q) (st : Z * list SpawnPoint) (row col : nat) (li : Z) :
  letterMapV !! row ≫= (fun r => r !! col) = Some li -> li <> -1 ->
  fst (spawnCell letterMapV letterMetaV offX offY cw chh jit density st true row col)
  = Random.advance
      (2 * Z.to_nat (baseCopies density + fst (extraCopy density (fst st))))
      (snd (extraCopy density (fst st))).
Proof.
  intros Hli Hne. unfold spawnCell. cbn [negb].
  destruct (extraCopy density (fst st)) as [extra a1]. cbn [fst snd].
  destruct (baseCopies density + extra <=? 0) eqn:E.
  - apply Z.leb_le in E. replace (Z.to_nat _) with 0%nat by lia. reflexivity.
  - destruct (copiesLoop_draws letterMapV letterMetaV offX offY cw chh jit
                (Z.to_nat (baseCopies density + extra)) row col (a1, snd st) li Hli Hne)
      as [H _].
    exact H.
Qed.

(** C2, as the code has it.  An on cell with a letter behind it draws one
    value for the extra copy exactly when [density] has a fractional
    part, followed by two jitter draws for each copy; when [density] is a
    whole number no value is drawn for the extra copy and the cell takes
    only the two jitter draws of each of its [density] copies. *)
Theorem spawnCell_draws (density : Q) (st : Z * list SpawnPoint) (row col : nat) (li : Z) :
  letterMapV !! row ≫= (fun r => r !! col) = Some li -> li <> -1 ->
  let cell := spawnCell letterMapV letterMetaV offX offY cw chh jit density st true row col in
  (hasFraction density ->
     fst cell = Random.advance
                  (1 + 2 * Z.to_nat (baseCopies density + fst (extraCopy density (fst st))))
                  (fst st))
  /\ (~ hasFraction density ->
        fst cell = Random.advance (2 * Z.to_nat (Qfloor density)) (fst st)).
Proof.
  intros Hli Hne cell. subst cell. rewrite (spawnCell_state density st row col li Hli Hne).
  split; intros H.
  - rewrite extraCopy_state.
    apply fractional_positive in H. rewrite H.
    rewrite advance_next. f_equal.
  - rewrite (extraCopy_whole density (fst st) H). cbn [fst snd].
    unfold baseCopies. rewrite Z.add_0_r. reflexivity.
Qed.
End SpawnCell.

(** At density 1 the single on cell of a one-cell mask leaves the generator
    two draws, not three, after the seed. *)
Lemma spawnCell_whole_density_skips_draw : ~ drawsExtraForEveryDensity 1.
Proof.
  intros H. specialize (H [[0]] (0, []) 0%nat 0%nat 0 eq_refl ltac:(lia)).
  vm_compute in H. discriminate H.
Qed.

Lemma spawnCell_draws_witness :
  fst (HiddenMessage.spawnCell [[0]] [] 0 0 1 1 0 (5 # 2) (0, []) true 0%nat 0%nat)
  = Random.advance
      (1 + 2 * Z.to_nat (HiddenMessage.baseCopies (5 # 2)
                         + fst (HiddenMessage.extraCopy (5 # 2) 0))) 0
  /\ fst (HiddenMessage.spawnCell [[0]] [] 0 0 1 1 0 2 (0, []) true 0%nat 0%nat)
     = Random.advance (2 * Z.to_nat (Qfloor 2)) 0.
Proof.
  split.
  - apply (spawnCell_draws [[0]] [] 0 0 1 1 0 (5 # 2) (0, []) 0%nat 0%nat 0).
    + reflexivity.
    + lia.
    + reflexivity.
  - apply (spawnCell_draws [[0]] [] 0 0 1 1 0 2 (0, []) 0%nat 0%nat 0).
    + reflexivity.
    + lia.
    + unfold hasFraction. vm_compute. discriminate.
Defined.

(** ** Species assignment *)

Section Species.
Import HiddenMessage.

Lemma basePoolOf_nonempty enabled : basePoolOf enabled <> [].
Proof. destruct enabled; [discriminate | discriminate]. Qed.

Lemma fallbackPoolOf_nonempty enabled : fallbackPoolOf enabled <> [].
Proof.
  unfold fallbackPoolOf. cbv zeta.
  destruct (filter _ (basePoolOf enabled)) eqn:E; [apply basePoolOf_nonempty | discriminate].
Qed.

(** The fallback pool holds sunflower only when the base pool holds
    nothing else. *)
Lemma fallbackPoolOf_sunflower enabled :
  "sunflower"%string ∈ fallbackPoolOf enabled -> onlySunflower (basePoolOf enabled).
Proof.
  unfold fallbackPoolOf. cbv zeta.
  destruct (filter (fun s => s <> "sunflower"%string) (basePoolOf enabled)) as [|h t] eqn:E.
  - intros _ s Hs. destruct (decide (s = "sunflower"%string)) as [|Hne]; [assumption|].
    assert (Hin : s ∈ filter (fun s => s <> "sunflower"%string) (basePoolOf enabled))
      by (apply list_elem_of_filter; split; assumption).
    rewrite E in Hin. inversion Hin.
  - rewrite <- E. intros Hin. apply list_elem_of_filter in Hin. destruct Hin as [Hne _].
    contradiction.
Qed.

Section Assigned.
Variables (maskResult : TextMaskResult) (lineSpecies : list (list string)).
Variable fallbackPool : list string.

Local Abbreviation active := (activePoolOf maskResult lineSpecies fallbackPool).

Lemma activePoolOf_subset li s : s ∈ active li -> s ∈ fallbackPool.
Proof.
  unfold activePoolOf. cbv zeta.
  destruct (filter _ (filter _ _)) as [|h t] eqn:E; [tauto|].
  rewrite <- E. intros Hin. apply list_elem_of_filter in Hin. tauto.
Qed.

Lemma perLetterPoolOf_in pool start k s :
  perLetterPoolOf pool start !! k = Some (Some s) -> s ∈ pool.
Proof.
  unfold perLetterPoolOf. intros H. apply list_elem_of_lookup_2 in H.
  apply list_elem_of_In in H.
  destruct (SPECIES_PER_LETTER <=? length pool)%nat;
    apply in_map_iff in H; destruct H as (i & Hi & Hin).
  - apply list_elem_of_lookup_2 in Hi. exact Hi.
  - inversion Hi; subst. apply list_elem_of_In. exact Hin.
Qed.

(** Every species handed out comes from the letter's pool or from the
    fallback pool. *)
Lemma pickSpecies_in pool start counter idx s :
  pickSpecies fallbackPool pool start counter idx = Some s ->
  s ∈ pool \/ s ∈ fallbackPool.
Proof.
  unfold pickSpecies. cbv zeta.
  destruct (perLetterPoolOf pool start !! _) as [[s1|]|] eqn:E1; cbn [mjoin option_join Js.orElse].
  - intros H; inversion H; subst. left. eapply perLetterPoolOf_in. exact E1.
  - destruct (pool !! _) as [s2|] eqn:E2; cbn [Js.orElse].
    + intros H; inversion H; subst. left. eapply list_elem_of_lookup_2. exact E2.
    + intros H. right. eapply list_elem_of_lookup_2. exact H.
  - destruct (pool !! _) as [s2|] eqn:E2; cbn [Js.orElse].
    + intros H; inversion H; subst. left. eapply list_elem_of_lookup_2. exact E2.
    + intros H. right. eapply list_elem_of_lookup_2. exact H.
Qed.

Lemma assignPoint_species st p idx s :
  species (snd (assignPoint maskResult lineSpecies fallbackPool st p idx)) = Some s ->
  s ∈ fallbackPool.
Proof.
  unfold assignPoint. destruct st as [lc ls].
  destruct (ls !! letterIndex p); cbn [snd withSpecies species]; intros H;
    apply pickSpecies_in in H; destruct H as [H|H];
    solve [exact H | eapply activePoolOf_subset; exact H].
Qed.

Lemma assignFrom_species idx points st p s :
  p ∈ assignFrom maskResult lineSpecies fallbackPool idx points st ->
  species p = Some s -> s ∈ fallbackPool.
Proof.
  revert idx st. induction points as [|q r IH]; intros idx st Hin Hs.
  - inversion Hin.
  - cbn [assignFrom] in Hin.
    pose proof (assignPoint_species st q idx s) as Hq.
    destruct (assignPoint maskResult lineSpecies fallbackPool st q idx) as [st' q'].
    apply elem_of_cons in Hin. destruct Hin as [->|Hin].
    + apply Hq. exact Hs.
    + eapply IH; eassumption.
Qed.
End Assigned.

(** Sunflower is assigned only from a pool that holds nothing else. *)
Lemma assignSpeciesToPoints_sunflower points maskResult enabled lineSpecies p :
  p ∈ assignSpeciesToPoints points maskResult enabled lineSpecies ->
  species p = Some "sunflower"%string ->
  onlySunflower (basePoolOf enabled).
Proof.
  unfold assignSpeciesToPoints. cbv zeta.
  pose proof (fallbackPoolOf_nonempty enabled) as Hne.
  destruct (fallbackPoolOf enabled) as [|h t] eqn:E; [contradiction|].
  intros Hin Hs. apply fallbackPoolOf_sunflower. rewrite E.
  eapply assignFrom_species; eassumption.
Qed.
End Species.

(** ** The slot table *)

Section Slots.
Import Garden.

Lemma onDay_app d l1 l2 : onDay d (l1 ++ l2) = onDay d l1 ++ onDay d l2.
Proof. apply List.filter_app. Qed.

Lemma onDay_in d l s : s ∈ onDay d l <-> s ∈ l /\ dayIndex s = d.
Proof.
  unfold onDay. rewrite !list_elem_of_In, List.filter_In, Z.eqb_eq. reflexivity.
Qed.

(** The sort keeps the slots of a day in their order. *)
Lemma insertSlot_onDay d s l : onDay d (insertSlot s l) = onDay d (s :: l).
Proof.
  induction l as [|h t IH]; [reflexivity|].
  cbn [insertSlot]. destruct (dayIndex s <=? dayIndex h) eqn:E; [reflexivity|].
  apply Z.leb_gt in E. unfold onDay in *. cbn [List.filter] in *. rewrite IH.
  destruct (dayIndex s =? d) eqn:Es; [|reflexivity].
  destruct (dayIndex h =? d) eqn:Eh; [|reflexivity].
  apply Z.eqb_eq in Es, Eh. lia.
Qed.

Lemma sortSlots_onDay d l : onDay d (sortSlots l) = onDay d l.
Proof.
  induction l as [|h t IH]; [reflexivity|].
  cbn [sortSlots foldr]. rewrite insertSlot_onDay.
  unfold onDay in *. cbn [List.filter]. fold (sortSlots t). rewrite IH. reflexivity.
Qed.

(** A day's entry in the map is the last slot set for it. *)
Lemma foldl_set_lookup (l : list TextFlowerSlot) (m : gmap Z TextFlowerSlot) (d : Z) :
  foldl (fun m slot => <[dayIndex slot := slot]> m) m l !! d
  = Js.orElse (last (onDay d l)) (m !! d).
Proof.
  revert m. induction l as [|h t IH]; intros m; [reflexivity|].
  cbn [foldl]. rewrite IH. unfold onDay. cbn [List.filter].
  destruct (dayIndex h =? d) eqn:E.
  - apply Z.eqb_eq in E. subst d. rewrite lookup_insert_eq.
    destruct (List.filter _ t) as [|a b]; [reflexivity|].
    change (last (h :: a :: b)) with (last (a :: b)).
    destruct (last (a :: b)) eqn:El; [reflexivity|].
    apply last_None in El. discriminate.
  - apply Z.eqb_neq in E. rewrite lookup_insert_ne by exact E. reflexivity.
Qed.

Lemma buildSlotMap_lookup l d : buildSlotMap l !! d = last (onDay d l).
Proof.
  unfold buildSlotMap. rewrite foldl_set_lookup, lookup_empty.
  destruct (last (onDay d l)); reflexivity.
Qed.

Variable FLOWER_SVGS : list string.

Lemma slotMapOf_lookup textSets d :
  slotMapOf FLOWER_SVGS textSets !! d = last (onDay d (allSlots FLOWER_SVGS textSets)).
Proof.
  unfold slotMapOf, precomputeTextFlowers. rewrite buildSlotMap_lookup, sortSlots_onDay.
  reflexivity.
Qed.

Lemma slotsOf_lookup ts k :
  slotsOf FLOWER_SVGS (buildSpeciesVariants FLOWER_SVGS) ts !! k = slotAt FLOWER_SVGS ts k.
Proof. unfold slotsOf, slotAt. apply list_lookup_imap. Qed.

Lemma slotAt_dayIndex ts k s :
  slotAt FLOWER_SVGS ts k = Some s -> dayIndex s = GardenConfig.startDay ts + Z.of_nat k.
Proof.
  unfold slotAt. destruct (assignedPointsOf ts !! k); [|discriminate].
  cbn. intros H; inversion H; reflexivity.
Qed.

(** Every slot in the table is a point of one of the text sets. *)
Lemma slotMapOf_origin textSets d s :
  slotMapOf FLOWER_SVGS textSets !! d = Some s ->
  exists ts k, ts ∈ textSets /\ slotAt FLOWER_SVGS ts k = Some s
               /\ d = GardenConfig.startDay ts + Z.of_nat k.
Proof.
  rewrite slotMapOf_lookup. intros H.
  assert (Hin : s ∈ onDay d (allSlots FLOWER_SVGS textSets)).
  { apply last_Some in H. destruct H as [l' ->]. apply elem_of_app. right.
    apply list_elem_of_singleton. reflexivity. }
  apply onDay_in in Hin. destruct Hin as [Hin Hd].
  unfold allSlots in Hin. apply list_elem_of_In, in_concat in Hin.
  destruct Hin as (sl & Hsl & Hs). apply in_map_iff in Hsl. destruct Hsl as (ts & <- & Hts).
  apply list_elem_of_In, list_elem_of_lookup_1 in Hs. destruct Hs as [k Hk].
  rewrite slotsOf_lookup in Hk.
  exists ts, k. split; [apply list_elem_of_In; exact Hts|]. split; [exact Hk|].
  rewrite <- Hd. apply slotAt_dayIndex. exact Hk.
Qed.
End Slots.

(** ** Floors of rationals *)

Lemma Qfloor_lt_Z (q : Q) (z : Z) : (q < inject_Z z)%Q -> Qfloor q < z.
Proof.
  intros H. rewrite Zlt_Qlt. eapply Qle_lt_trans; [apply Qfloor_le | exact H].
Qed.

(** ** The shuffle *)

Section Shuffle.
Import Garden.

Lemma swap_length i j l : length (swap i j l) = length l.
Proof.
  unfold swap. destruct (l !! i); [|reflexivity]. destruct (l !! j); [|reflexivity].
  rewrite !length_insert. reflexivity.
Qed.

(** A swap reads the list through the transposition of its two indices. *)
Lemma swap_lookup i j l a b k :
  l !! i = Some a -> l !! j = Some b ->
  swap i j l !! k = l !! (if decide (k = j) then i else if decide (k = i) then j else k).
Proof.
  intros Ha Hb. unfold swap. rewrite Ha, Hb.
  pose proof (lookup_lt_Some _ _ _ Ha) as Hi.
  pose proof (lookup_lt_Some _ _ _ Hb) as Hj.
  destruct (decide (k = j)) as [->|Hkj].
  - rewrite list_lookup_insert_eq by (rewrite length_insert; exact Hj). symmetry. exact Ha.
  - rewrite list_lookup_insert_ne by congruence.
    destruct (decide (k = i)) as [->|Hki].
    + rewrite list_lookup_insert_eq by exact Hi. symmetry. exact Hb.
    + rewrite list_lookup_insert_ne by congruence. reflexivity.
Qed.

Lemma swap_perm i j l : Permutation (swap i j l) l.
Proof.
  destruct (l !! i) as [a|] eqn:Ha; [|unfold swap; rewrite Ha; reflexivity].
  destruct (l !! j) as [b|] eqn:Hb; [|unfold swap; rewrite Ha, Hb; reflexivity].
  apply Permutation_inj. split; [apply swap_length|].
  exists (fun k => if decide (k = j) then i else if decide (k = i) then j else k).
  split.
  - intros k1 k2. repeat case_decide; intros; subst; congruence.
  - intros k. apply (swap_lookup i j l a b k Ha Hb).
Qed.

Lemma shuffleFrom_perm i st : Permutation (snd (shuffleFrom i st)) (snd st).
Proof.
  revert st. induction i as [|i IH]; intros st; [reflexivity|].
  cbn [shuffleFrom]. destruct (Random.next (fst st)) as [r a1].
  rewrite IH. cbn [snd]. apply swap_perm.
Qed.

(** The index drawn for position [i] is one of [0..i]. *)
Lemma shuffle_draw_range (i : nat) (a : Z) :
  (Z.to_nat (Qfloor (fst (Random.next a) * inject_Z (Z.of_nat (i + 1)))) <= i)%nat.
Proof.
  destruct (next_range a) as [Hlo Hhi].
  set (r := fst (Random.next a)) in *.
  assert (Hn : (0 < inject_Z (Z.of_nat (i + 1)))%Q)
    by (unfold Qlt; cbn; lia).
  assert (H : (Qfloor (r * inject_Z (Z.of_nat (i + 1))) < Z.of_nat (i + 1))%Z).
  { apply Qfloor_lt_Z, Qlt_le_trans with (1 * inject_Z (Z.of_nat (i + 1)))%Q.
    - apply Qmult_lt_compat_r; assumption.
    - rewrite Qmult_1_l. apply Qle_refl. }
  lia.
Qed.

(** The shuffled list is a permutation of the cell indices. *)
Lemma shuffled_perm : Permutation (snd shuffled) (seq 0 totalCells).
Proof. unfold shuffled. apply shuffleFrom_perm. Qed.

Lemma shuffled_length : length (snd shuffled) = totalCells.
Proof. rewrite (Permutation_length shuffled_perm). apply length_seq. Qed.

Lemma shuffled_NoDup : NoDup (snd shuffled).
Proof. rewrite shuffled_perm. apply NoDup_seq. Qed.

Lemma shuffled_range c : c ∈ snd shuffled -> (c < totalCells)%nat.
Proof. rewrite shuffled_perm, elem_of_seq. lia. Qed.
End Shuffle.

(** ** What a day emits *)

Section Run.
Import Garden.

Lemma cellW_pos : (0 < cellW)%Q.
Proof. reflexivity. Qed.

Lemma cellH_pos : (0 < cellH)%Q.
Proof. reflexivity. Qed.

Lemma scaled_draw_range (r base size : Q) :
  (0 <= r)%Q -> (r < 1)%Q -> (0 < size)%Q ->
  (base * size <= base * size + r * size)%Q
  /\ (base * size + r * size < (base + 1) * size)%Q.
Proof. intros Hlo Hhi Hs. split; nra. Qed.

Variable FLOWER_SVGS : list string.
Variable indices : list nat.
Variable textSlotMap : gmap Z TextFlowerSlot.

Local Abbreviation plant := (plantDay FLOWER_SVGS indices textSlotMap).
Local Abbreviation loop := (dayLoop FLOWER_SVGS indices textSlotMap).

Lemma plantDay_facts st i : dayFacts indices textSlotMap st i (fst (plant st i)) (snd (plant st i)).
Proof.
  unfold plantDay, dayFacts.
  destruct (textSlotMap !! Z.of_nat i) as [slot|] eqn:Em.
  - cbn [fst snd]. auto.
  - destruct (gridCellUsed st <? totalCells)%nat eqn:Eg.
    + apply Nat.ltb_lt in Eg.
      pose proof (next_range (rng st)) as [H1 H1'].
      destruct (Random.next (rng st)) as [r1 a1].
      pose proof (next_range a1) as [H2 H2'].
      destruct (Random.next a1) as [r2 a2].
      destruct (Random.next a2) as [r3 a3].
      destruct (Random.next a3) as [r4 a4].
      destruct (Random.next a4) as [r5 a5].
      cbn [fst snd gridCellUsed textSetId] in *.
      repeat (split; [solve [auto]|]).
      unfold inCell. cbn [x y].
      pose proof (scaled_draw_range r1
        (inject_Z (Z.of_nat (default 0%nat (indices !! gridCellUsed st) mod COLS)))
        cellW H1 H1' cellW_pos) as [Hx Hx'].
      pose proof (scaled_draw_range r2
        (inject_Z (Z.of_nat (default 0%nat (indices !! gridCellUsed st) / COLS)))
        cellH H2 H2' cellH_pos) as [Hy Hy'].
      auto.
    + apply Nat.ltb_ge in Eg.
      pose proof (next_range (rng st)) as [H1 H1'].
      destruct (Random.next (rng st)) as [r1 a1].
      pose proof (next_range a1) as [H2 H2'].
      destruct (Random.next a1) as [r2 a2].
      destruct (Random.next a2) as [r3 a3].
      destruct (Random.next a3) as [r4 a4].
      destruct (Random.next a4) as [r5 a5].
      cbn [fst snd gridCellUsed textSetId x y] in *.
      repeat (split; [solve [auto | lra]|]). lra.
Qed.

(** The entry of day number [k] of the loop. *)
Lemma dayLoop_lookup days st k i :
  days !! k = Some i ->
  loop days st !! k
  = Some (fst (plant (stateAfter FLOWER_SVGS indices textSlotMap (take k days) st) i)).
Proof.
  revert st k. induction days as [|j r IH]; intros st k Hk; [discriminate|].
  cbn [dayLoop]. destruct (plant st j) as [e st'] eqn:E.
  destruct k as [|k].
  - cbn in Hk. inversion Hk; subst. cbn. rewrite E. reflexivity.
  - change ((j :: r) !! S k) with (r !! k) in Hk.
    change ((e :: loop r st') !! S k) with (loop r st' !! k).
    change (take (S k) (j :: r)) with (j :: take k r).
    rewrite (IH st' k Hk). unfold stateAfter. cbn [foldl]. rewrite E. reflexivity.
Qed.

(** Every entry of the loop is what its day emits from some state. *)
Lemma dayLoop_entry days st e :
  e ∈ loop days st ->
  exists st1 i, i ∈ days /\ e = fst (plant st1 i).
Proof.
  revert st. induction days as [|j r IH]; intros st Hin; [inversion Hin|].
  cbn [dayLoop] in Hin. destruct (plant st j) as [e0 st'] eqn:E.
  apply elem_of_cons in Hin. destruct Hin as [->|Hin].
  - exists st, j. split; [left | rewrite E; reflexivity].
  - destruct (IH st' Hin) as (st1 & i & Hi & He).
    exists st1, i. split; [right; exact Hi | exact He].
Qed.
End Run.

(** ** The grid cursor *)

Section GridCells.
Import Garden.

Variable FLOWER_SVGS : list string.
Variable indices : list nat.
Variable textSlotMap : gmap Z TextFlowerSlot.
Hypothesis indices_length : length indices = totalCells.

Local Abbreviation plant := (plantDay FLOWER_SVGS indices textSlotMap).
Local Abbreviation loop := (dayLoop FLOWER_SVGS indices textSlotMap).
Local Abbreviation after := (stateAfter FLOWER_SVGS indices textSlotMap).

(** The cells consumed by the loop are the entries of [indices] between
    the cursor before and the cursor after, and the cursor advances on no
    other day. *)
Lemma dayLoop_gridCells days st :
  (gridCellUsed st <= gridCellUsed (after days st))%nat
  /\ gridCells (loop days st)
     = take (gridCellUsed (after days st) - gridCellUsed st)
            (drop (gridCellUsed st) indices).
Proof.
  revert st. induction days as [|i r IH]; intros st.
  - cbn. rewrite Nat.sub_diag. split; [lia | reflexivity].
  - cbn [dayLoop]. unfold stateAfter. cbn [foldl]. fold (after r (snd (plant st i))).
    pose proof (plantDay_facts FLOWER_SVGS indices textSlotMap st i) as HF.
    destruct (plant st i) as [e st'] eqn:E. cbn [fst snd] in HF |- *.
    destruct (IH st') as [Hle Hcells].
    unfold gridCells in *. cbn [omap list_omap]. fold (omap gridCellOf (loop r st')).
    unfold dayFacts in HF. unfold gridCellOf at 1.
    destruct (fst e) as [slot|c|].
    + destruct HF as (_ & -> & _). split; [exact Hle | exact Hcells].
    + destruct HF as (_ & Hlt & Hc & Hg & _).
      destruct (indices !! gridCellUsed st) as [c0|] eqn:El.
      2:{ apply lookup_ge_None_1 in El. lia. }
      cbn in Hc. subst c0.
      rewrite Hg in Hle, Hcells. split; [lia|].
      rewrite Hcells, (drop_S _ _ _ El).
      replace (gridCellUsed (after r st') - gridCellUsed st)%nat
        with (S (gridCellUsed (after r st') - S (gridCellUsed st))) by lia.
      reflexivity.
    + destruct HF as (_ & _ & Hg & _). rewrite Hg in Hle, Hcells.
      split; [exact Hle | exact Hcells].
Qed.
End GridCells.

Lemma take_length_take {A : Type} (n : nat) (l : list A) :
  take (length (take n l)) l = take n l.
Proof.
  rewrite length_take. destruct (Nat.le_gt_cases n (length l)) as [H|H].
  - rewrite Nat.min_l by exact H. reflexivity.
  - rewrite Nat.min_r by lia. rewrite !take_ge by lia. reflexivity.
Qed.

(** The cells consumed by a run of [generateGarden] are the first entries of
    the shuffled list, as many as were consumed. *)
Lemma gardenRun_gridCells (FLOWER_SVGS : list string) (count : Z)
    (textSets : list GardenConfig.TextSetConfig) :
  gridCells (Garden.gardenRun FLOWER_SVGS count textSets)
  = take (length (gridCells (Garden.gardenRun FLOWER_SVGS count textSets)))
         (snd Garden.shuffled).
Proof.
  unfold Garden.gardenRun.
  destruct (dayLoop_gridCells FLOWER_SVGS (snd Garden.shuffled)
              (Garden.slotMapOf FLOWER_SVGS textSets) shuffled_length
              (seq 0 (Z.to_nat count))
              {| Garden.rng := fst Garden.shuffled; Garden.gridCellUsed := 0 |}) as [_ H].
  cbn [Garden.gridCellUsed] in H. rewrite Nat.sub_0_r in H.
  rewrite drop_0 in H.
  rewrite H. symmetry. apply take_length_take.
Qed.

(** A flower is scattered only once the cursor has passed the last cell. *)
Lemma gardenRun_scattered (FLOWER_SVGS : list string) (count : Z)
    (textSets : list GardenConfig.TextSetConfig) (e : Garden.Source * Garden.FlowerData) :
  e ∈ Garden.gardenRun FLOWER_SVGS count textSets -> fst e = Garden.Scattered ->
  length (gridCells (Garden.gardenRun FLOWER_SVGS count textSets)) = Garden.totalCells.
Proof.
  intros He Hs.
  pose proof (gardenRun_gridCells FLOWER_SVGS count textSets) as Hall.
  assert (Hle : (length (gridCells (Garden.gardenRun FLOWER_SVGS count textSets))
                 <= Garden.totalCells)%nat).
  { rewrite Hall, length_take, shuffled_length. lia. }
  apply list_elem_of_lookup_1 in He. destruct He as [k Hk].
  unfold Garden.gardenRun in *.
  set (days := seq 0 (Z.to_nat count)) in *.
  set (st0 := {| Garden.rng := fst Garden.shuffled; Garden.gridCellUsed := 0 |}) in *.
  set (m := Garden.slotMapOf FLOWER_SVGS textSets) in *.
  assert (Hkd : (k < length days)%nat).
  { apply lookup_lt_Some in Hk. rewrite dayLoop_length in Hk. exact Hk. }
  destruct (lookup_lt_is_Some_2 days k Hkd) as [i Hi].
  rewrite (dayLoop_lookup _ _ _ _ _ _ _ Hi) in Hk.
  assert (He : fst (Garden.plantDay FLOWER_SVGS (snd Garden.shuffled) m
                      (stateAfter FLOWER_SVGS (snd Garden.shuffled) m (take k days) st0) i)
               = e) by (apply (inj Some); exact Hk).
  clear Hk.
  pose proof (plantDay_facts FLOWER_SVGS (snd Garden.shuffled) m
                (stateAfter FLOWER_SVGS (snd Garden.shuffled) m (take k days) st0) i) as HF.
  unfold dayFacts in HF. rewrite He, Hs in HF. destruct HF as (_ & Hfull & _).
  destruct (dayLoop_gridCells FLOWER_SVGS (snd Garden.shuffled) m shuffled_length
              (take k days) st0) as [_ Hpre].
  subst st0. cbn [Garden.gridCellUsed] in Hpre. rewrite Nat.sub_0_r, drop_0 in Hpre.
  assert (Hlen : length (gridCells (Garden.dayLoop FLOWER_SVGS (snd Garden.shuffled) m
                                      (take k days)
                                      {| Garden.rng := fst Garden.shuffled;
                                         Garden.gridCellUsed := 0 |}))
                 = Garden.totalCells).
  { rewrite Hpre, length_take, shuffled_length. lia. }
  rewrite <- (take_drop k days) in Hle |- *.
  rewrite dayLoop_app in Hle |- *. unfold gridCells in *.
  rewrite omap_app, length_app in Hle |- *. lia.
Qed.

(** Two entries of a run that took grid cells took different ones, when the
    cells consumed are pairwise distinct. *)
Lemma gridCells_ordered (run : list (Garden.Source * Garden.FlowerData)) (i j c1 c2 : nat)
    (f1 f2 : Garden.FlowerData) :
  NoDup (gridCells run) -> (i < j)%nat ->
  run !! i = Some (Garden.FromGrid c1, f1) -> run !! j = Some (Garden.FromGrid c2, f2) ->
  c1 <> c2.
Proof.
  intros Hnd Hij Hi Hj.
  assert (Hj' : drop (S i) run !! (j - S i)%nat = Some (Garden.FromGrid c2, f2)).
  { rewrite lookup_drop. replace (S i + (j - S i))%nat with j by lia. exact Hj. }
  rewrite <- (take_drop_middle run i _ Hi) in Hnd.
  rewrite <- (take_drop_middle (drop (S i) run) (j - S i) _ Hj') in Hnd.
  unfold gridCells in Hnd. rewrite omap_app in Hnd. cbn [omap list_omap gridCellOf fst] in Hnd.
  apply NoDup_app in Hnd. destruct Hnd as (_ & _ & Hnd).
  apply NoDup_cons in Hnd. destruct Hnd as [Hnot _].
  intros ->. apply Hnot.
  match goal with |- _ ∈ omap ?f (?a ++ ?e :: ?b) =>
    change (omap f (a ++ e :: b)) with (omap f (a ++ [e] ++ b))
  end.
  rewrite !omap_app. apply elem_of_app. right. apply elem_of_app. left.
  cbn [omap list_omap gridCellOf fst]. left.
Qed.

(** C4 (no grid collision).  In a run of [generateGarden] the grid cells
    consumed by the ordinary flowers are pairwise distinct: they are the
    leading entries, in order, of the Fisher-Yates shuffle, which is a
    permutation of the 3584 cell indices 0..totalCells-1; each such flower
    lies in its cell, and two different flowers never come from the same
    cell; a flower is scattered outside the grid only in a run that has
    consumed all the cells. *)
Theorem generateGarden_no_grid_collision (FLOWER_SVGS : list string) (count : Z)
    (textSets : list GardenConfig.TextSetConfig) :
  let run := Garden.gardenRun FLOWER_SVGS count textSets in
  NoDup (gridCells run)
  /\ gridCells run = take (length (gridCells run)) (snd Garden.shuffled)
  /\ Permutation (snd Garden.shuffled) (seq 0 Garden.totalCells)
  /\ Garden.totalCells = 3584%nat
  /\ Forall (fun e =>
               match fst e with
               | Garden.FromGrid c => inCell c (snd e)
               | Garden.Scattered => length (gridCells run) = Garden.totalCells
               | Garden.FromText _ => True
               end) run
  /\ (forall i j c1 c2 f1 f2,
        i <> j ->
        run !! i = Some (Garden.FromGrid c1, f1) ->
        run !! j = Some (Garden.FromGrid c2, f2) ->
        c1 <> c2).
Proof.
  intros run. pose proof (gardenRun_gridCells FLOWER_SVGS count textSets) as Hc.
  fold run in Hc.
  assert (Hnd : NoDup (gridCells run)).
  { rewrite Hc. eapply sublist_NoDup; [exact shuffled_NoDup | apply sublist_take]. }
  split; [exact Hnd|].
  split; [exact Hc|]. split; [exact shuffled_perm|]. split; [reflexivity|]. split.
  - apply Forall_forall. intros e Hin.
    destruct (fst e) as [slot|c|] eqn:Es; [exact I| |].
    + subst run. unfold Garden.gardenRun in Hin.
      apply dayLoop_entry in Hin. destruct Hin as (st1 & i & _ & He).
      pose proof (plantDay_facts FLOWER_SVGS (snd Garden.shuffled)
                    (Garden.slotMapOf FLOWER_SVGS textSets) st1 i) as HF.
      rewrite <- He in HF. unfold dayFacts in HF. rewrite Es in HF.
      destruct HF as (_ & _ & _ & _ & _ & HF). exact HF.
    + apply (gardenRun_scattered FLOWER_SVGS count textSets e Hin Es).
  - intros i j c1 c2 f1 f2 Hij Hi Hj.
    destruct (Nat.lt_total i j) as [Hlt|[Heq|Hgt]]; [|contradiction|].
    + exact (gridCells_ordered run i j c1 c2 f1 f2 Hnd Hlt Hi Hj).
    + intros E. symmetry in E. revert E.
      exact (gridCells_ordered run j i c2 c1 f2 f1 Hnd Hgt Hj Hi).
Qed.

(** ** Which slot a day gets *)

Section Schedule.
Import Garden.

Lemma filter_none {A : Type} (P : A -> bool) (l : list A) :
  (forall a, a ∈ l -> P a = false) -> List.filter P l = [].
Proof.
  induction l as [|h t IH]; intros H; [reflexivity|].
  cbn [List.filter]. rewrite (H h) by left. apply IH. intros a Ha. apply H. right. exact Ha.
Qed.

(** A list in which exactly one position satisfies the test. *)
Lemma filter_unique {A : Type} (P : A -> bool) (l : list A) (k : nat) (a : A) :
  l !! k = Some a -> P a = true ->
  (forall j b, j <> k -> l !! j = Some b -> P b = false) ->
  List.filter P l = [a].
Proof.
  revert k. induction l as [|h t IH]; intros k Hk Pa Hother; [discriminate|].
  cbn [List.filter]. destruct k as [|k].
  - cbn in Hk. inversion Hk; subst. rewrite Pa. f_equal.
    apply filter_none. intros b Hb. apply list_elem_of_lookup_1 in Hb.
    destruct Hb as [j Hj]. apply (Hother (S j) b); [lia | exact Hj].
  - rewrite (Hother 0%nat h) by (lia || reflexivity).
    apply (IH k); [exact Hk | exact Pa |].
    intros j b Hj Hb. apply (Hother (S j) b); [lia | exact Hb].
Qed.

Variable FLOWER_SVGS : list string.

Local Abbreviation slotAt' := (slotAt FLOWER_SVGS).

Lemma slotAt_schedules ts k s :
  slotAt' ts k = Some s -> schedules ts (GardenConfig.startDay ts + Z.of_nat k).
Proof.
  unfold slotAt. intros H. exists k. split; [reflexivity|].
  destruct (assignedPointsOf ts !! k) eqn:E; [|discriminate].
  eapply lookup_lt_Some. exact E.
Qed.

(** On its own days a text set has exactly the slot of that day. *)
Lemma slotsOf_onDay ts k s :
  slotAt' ts k = Some s ->
  onDay (GardenConfig.startDay ts + Z.of_nat k)
        (slotsOf FLOWER_SVGS (buildSpeciesVariants FLOWER_SVGS) ts) = [s].
Proof.
  intros Hs. unfold onDay. apply (filter_unique _ _ k s).
  - rewrite slotsOf_lookup. exact Hs.
  - apply Z.eqb_eq. eapply slotAt_dayIndex. exact Hs.
  - intros j b Hj Hb. rewrite slotsOf_lookup in Hb.
    apply slotAt_dayIndex in Hb. apply Z.eqb_neq. lia.
Qed.

Lemma allSlots_onDay_none textSets d :
  (forall ts, ts ∈ textSets -> ~ schedules ts d) ->
  onDay d (allSlots FLOWER_SVGS textSets) = [].
Proof.
  intros H. unfold onDay. apply filter_none. intros s Hs. apply Z.eqb_neq. intros Hd.
  unfold allSlots in Hs. apply list_elem_of_In, in_concat in Hs.
  destruct Hs as (sl & Hsl & Hs). apply in_map_iff in Hsl. destruct Hsl as (ts & <- & Hts).
  apply list_elem_of_In, list_elem_of_lookup_1 in Hs. destruct Hs as [k Hk].
  rewrite slotsOf_lookup in Hk.
  apply (H ts); [apply list_elem_of_In; exact Hts|].
  rewrite <- Hd, (slotAt_dayIndex _ _ _ _ Hk). eapply slotAt_schedules. exact Hk.
Qed.

Lemma allSlots_app l1 l2 :
  allSlots FLOWER_SVGS (l1 ++ l2) = allSlots FLOWER_SVGS l1 ++ allSlots FLOWER_SVGS l2.
Proof. unfold allSlots. rewrite map_app, concat_app. reflexivity. Qed.

(** The last text set that schedules a day owns it. *)
Lemma slotMapOf_last_wins pre ts post k s :
  slotAt' ts k = Some s ->
  (forall ts', ts' ∈ post -> ~ schedules ts' (GardenConfig.startDay ts + Z.of_nat k)) ->
  slotMapOf FLOWER_SVGS (pre ++ ts :: post) !! (GardenConfig.startDay ts + Z.of_nat k)
  = Some s.
Proof.
  intros Hs Hpost. rewrite slotMapOf_lookup.
  change (ts :: post) with ([ts] ++ post). rewrite !allSlots_app, !onDay_app.
  rewrite (allSlots_onDay_none post _ Hpost), app_nil_r.
  unfold allSlots at 2. cbn [map concat]. rewrite app_nil_r.
  rewrite (slotsOf_onDay ts k s Hs). apply last_snoc.
Qed.

(** The flower of a scheduled day does not depend on the loop state. *)
Lemma gardenRun_text_day count textSets (d : nat) s :
  (Z.of_nat d < count)%Z ->
  slotMapOf FLOWER_SVGS textSets !! Z.of_nat d = Some s ->
  gardenRun FLOWER_SVGS count textSets !! d = Some (FromText s, textFlower d s).
Proof.
  intros Hd Hm. unfold gardenRun.
  rewrite (dayLoop_lookup _ _ _ _ _ d d) by (apply lookup_seq; lia).
  f_equal. unfold plantDay. rewrite Hm. reflexivity.
Qed.
End Schedule.

Section ScheduleClaims.
Import Garden.
Variable FLOWER_SVGS : list string.

Lemma slotAt_Some ts k p :
  assignedPointsOf ts !! k = Some p ->
  slotAt FLOWER_SVGS ts k
  = Some (slotOf FLOWER_SVGS (buildSpeciesVariants FLOWER_SVGS) ts k p).
Proof. unfold slotAt. intros ->. reflexivity. Qed.

Lemma map_lookup {A B : Type} (f : A -> B) (l : list A) (i : nat) :
  map f l !! i = f <$> l !! i.
Proof. exact (list_lookup_fmap f l i). Qed.

Lemma generateGarden_lookup count textSets d e :
  gardenRun FLOWER_SVGS count textSets !! d = Some e ->
  generateGarden FLOWER_SVGS count textSets !! d = Some (snd e).
Proof.
  intros H. unfold generateGarden. rewrite map_lookup, H. reflexivity.
Qed.

Lemma generateGarden_id_at count textSets j f :
  generateGarden FLOWER_SVGS count textSets !! j = Some f -> id f = j.
Proof.
  intros H.
  assert (Hids : map id (generateGarden FLOWER_SVGS count textSets)
                 = seq 0 (Z.to_nat count)).
  { unfold generateGarden, gardenRun. rewrite map_map. apply dayLoop_ids. }
  assert (Hj : map id (generateGarden FLOWER_SVGS count textSets) !! j = Some (id f))
    by (rewrite map_lookup, H; reflexivity).
  rewrite Hids in Hj. apply lookup_seq in Hj. lia.
Qed.

(** C9 (last write wins).  When two text sets both schedule a point on
    day [d], with [d < count], and no text set listed after the later one
    schedules that day, the flower with id [d] is the later set's point:
    its position, variant and [textSetId] are those of that point's slot;
    it is the only flower with that id. *)
Theorem generateGarden_last_write_wins (count : Z)
    (pre mid post : list GardenConfig.TextSetConfig)
    (ts1 ts2 : GardenConfig.TextSetConfig) (d k2 : nat) :
  Z.of_nat d < count ->
  schedules ts1 (Z.of_nat d) ->
  GardenConfig.startDay ts2 + Z.of_nat k2 = Z.of_nat d ->
  (k2 < length (assignedPointsOf ts2))%nat ->
  (forall ts', ts' ∈ post -> ~ schedules ts' (Z.of_nat d)) ->
  let out := generateGarden FLOWER_SVGS count (pre ++ ts1 :: mid ++ ts2 :: post) in
  exists p2 f,
    assignedPointsOf ts2 !! k2 = Some p2
    /\ out !! d = Some f
    /\ f = textFlower d (slotOf FLOWER_SVGS (buildSpeciesVariants FLOWER_SVGS) ts2 k2 p2)
    /\ x f = HiddenMessage.x p2 /\ y f = HiddenMessage.y p2
    /\ textSetId f = Some (GardenConfig.id ts2)
    /\ (forall j g, out !! j = Some g -> id g = d -> j = d).
Proof.
  intros Hd _ Hk2 Hlt Hpost out.
  destruct (lookup_lt_is_Some_2 _ _ Hlt) as [p2 Hp2].
  exists p2, (textFlower d (slotOf FLOWER_SVGS (buildSpeciesVariants FLOWER_SVGS) ts2 k2 p2)).
  split; [exact Hp2|]. split.
  - subst out.
    apply (generateGarden_lookup _ _ _
             (FromText (slotOf FLOWER_SVGS (buildSpeciesVariants FLOWER_SVGS) ts2 k2 p2), _)).
    apply gardenRun_text_day; [exact Hd|].
    rewrite <- Hk2.
    replace (pre ++ ts1 :: mid ++ ts2 :: post) with ((pre ++ ts1 :: mid) ++ ts2 :: post)
      by (rewrite <- app_assoc; reflexivity).
    apply slotMapOf_last_wins; [apply slotAt_Some; exact Hp2|].
    rewrite Hk2. exact Hpost.
  - repeat split. intros j g Hj Hg. apply generateGarden_id_at in Hj. lia.
Qed.

(** C5 (message days).  A text set with start day [s >= 0] and [N]
    assigned points, in a call with [count >= s + N] in which no other
    text set schedules one of the days s..s+N-1, has its points planted,
    in assignment order, as the flowers with ids s, s+1, ..., s+N-1, each
    with the set's id as [textSetId]; those days consume no grid cell and
    leave the grid cursor where it was, and the k-th grid cell consumed by
    the run is the k-th entry of the shuffled list. *)
Theorem generateGarden_message_days (count : Z)
    (pre post : list GardenConfig.TextSetConfig) (ts : GardenConfig.TextSetConfig) :
  0 <= GardenConfig.startDay ts ->
  GardenConfig.startDay ts + Z.of_nat (length (assignedPointsOf ts)) <= count ->
  (forall ts' d, ts' ∈ pre ++ post ->
      GardenConfig.startDay ts <= d
        < GardenConfig.startDay ts + Z.of_nat (length (assignedPointsOf ts)) ->
      ~ schedules ts' d) ->
  let run := gardenRun FLOWER_SVGS count (pre ++ ts :: post) in
  (forall k p, assignedPointsOf ts !! k = Some p ->
      exists e,
        run !! (Z.to_nat (GardenConfig.startDay ts) + k)%nat = Some e
        /\ gridCellOf e = None
        /\ cursorAfter FLOWER_SVGS (pre ++ ts :: post)
             (S (Z.to_nat (GardenConfig.startDay ts) + k))
           = cursorAfter FLOWER_SVGS (pre ++ ts :: post)
               (Z.to_nat (GardenConfig.startDay ts) + k)
        /\ id (snd e) = (Z.to_nat (GardenConfig.startDay ts) + k)%nat
        /\ x (snd e) = HiddenMessage.x p /\ y (snd e) = HiddenMessage.y p
        /\ zIndex (snd e) = 200 + Z.of_nat (HiddenMessage.row p)
        /\ textSetId (snd e) = Some (GardenConfig.id ts)
        /\ generateGarden FLOWER_SVGS count (pre ++ ts :: post)
             !! (Z.to_nat (GardenConfig.startDay ts) + k)%nat = Some (snd e))
  /\ (forall k c, gridCells run !! k = Some c -> snd shuffled !! k = Some c).
Proof.
  intros Hs Hcount Hothers run. split.
  - intros k p Hp. pose proof (lookup_lt_Some _ _ _ Hp) as Hk.
    set (d := (Z.to_nat (GardenConfig.startDay ts) + k)%nat).
    set (s := slotOf FLOWER_SVGS (buildSpeciesVariants FLOWER_SVGS) ts k p).
    assert (Hd : Z.of_nat d = GardenConfig.startDay ts + Z.of_nat k) by (subst d; lia).
    assert (Hm : slotMapOf FLOWER_SVGS (pre ++ ts :: post) !! Z.of_nat d = Some s).
    { rewrite Hd. apply slotMapOf_last_wins; [apply slotAt_Some; exact Hp|].
      intros ts' Hts'. apply Hothers; [apply elem_of_app; right; exact Hts' | lia]. }
    assert (Hrun : run !! d = Some (FromText s, textFlower d s)).
    { subst run. apply gardenRun_text_day; [lia | exact Hm]. }
    exists (FromText s, textFlower d s).
    split; [exact Hrun|]. split; [reflexivity|]. split.
    { unfold cursorAfter, stateAfter. rewrite seq_S, foldl_app. cbn [foldl Nat.add].
      unfold plantDay at 1. rewrite Hm. reflexivity. }
    repeat split.
    apply (generateGarden_lookup _ _ _ _ Hrun).
  - intros k c Hc. subst run. rewrite gardenRun_gridCells in Hc.
    apply lookup_take_Some in Hc. destruct Hc as [Hc _]. exact Hc.
Qed.
End ScheduleClaims.

(** ** Variants of message flowers *)

Section Variants.
Import Garden.
Variable FLOWER_SVGS : list string.

(** Every variant filed under a species starts with that species. *)
Lemma buildSpeciesVariants_prefix k vs v :
  buildSpeciesVariants FLOWER_SVGS !! k = Some vs -> v ∈ vs -> Js.beforeHyphen v = k.
Proof.
  unfold buildSpeciesVariants.
  assert (H : forall l (m : gmap string (list string)),
    (forall k vs v, m !! k = Some vs -> v ∈ vs -> Js.beforeHyphen v = k) ->
    forall k vs v,
      foldl (fun m svg => <[Js.beforeHyphen svg
                             := default [] (m !! Js.beforeHyphen svg) ++ [svg]]> m) m l
        !! k = Some vs ->
      v ∈ vs -> Js.beforeHyphen v = k).
  { induction l as [|svg l IH]; intros m Hm; [exact Hm|].
    cbn [foldl]. apply IH. intros k0 vs0 v0 Hl Hv.
    destruct (decide (Js.beforeHyphen svg = k0)) as [<-|Hne].
    - rewrite lookup_insert_eq in Hl. inversion Hl; subst. apply elem_of_app in Hv.
      destruct Hv as [Hv|Hv].
      + destruct (m !! Js.beforeHyphen svg) as [old|] eqn:E; cbn in Hv.
        * eapply Hm; eassumption.
        * inversion Hv.
      + apply list_elem_of_singleton in Hv. subst. reflexivity.
    - rewrite lookup_insert_ne in Hl by exact Hne. eapply Hm; eassumption. }
  apply H. intros k0 vs0 v0 Hl. rewrite lookup_empty in Hl. discriminate.
Qed.

Lemma startsWith_rose v :
  Js.startsWith "rose-" v = true -> Js.beforeHyphen v = "rose"%string.
Proof.
  destruct v as [|c1 [|c2 [|c3 [|c4 [|c5 v]]]]]; cbn [Js.startsWith];
    try (intros; discriminate);
    repeat match goal with
           | |- (if Ascii.eqb ?a ?b then _ else _) = true -> _ =>
               destruct (Ascii.eqb_spec a b); [subst | intros; discriminate]
           end.
  all: try (intros; discriminate).
  reflexivity.
Qed.

(** The variant of a slot carries the species of its point, or rose. *)
Lemma slotOf_svg_species ts k p v :
  slotSvg (slotOf FLOWER_SVGS (buildSpeciesVariants FLOWER_SVGS) ts k p) = Some v ->
  Js.beforeHyphen v = default "rose"%string (HiddenMessage.species p)
  \/ Js.beforeHyphen v = "rose"%string.
Proof.
  unfold slotOf. cbn [slotSvg].
  set (sp := default "rose"%string (HiddenMessage.species p)).
  intros H.
  assert (Hin : v ∈ default (List.filter (fun s => Js.startsWith "rose-" s) FLOWER_SVGS)
                      (buildSpeciesVariants FLOWER_SVGS !! sp)).
  { destruct (_ !! (k mod _)%nat) as [v1|] eqn:E1; cbn [Js.orElse] in H.
    - inversion H; subst. eapply list_elem_of_lookup_2. exact E1.
    - eapply list_elem_of_lookup_2. exact H. }
  destruct (buildSpeciesVariants FLOWER_SVGS !! sp) as [vs|] eqn:Ev; cbn in Hin.
  - left. eapply buildSpeciesVariants_prefix; eassumption.
  - right. apply list_elem_of_In, List.filter_In in Hin. apply startsWith_rose. tauto.
Qed.
End Variants.

Section SunflowerClaim.
Import Garden.
Variable FLOWER_SVGS : list string.

Lemma slotAt_sunflower ts k slot :
  slotAt FLOWER_SVGS ts k = Some slot ->
  sunflowerFree slot \/ onlySunflower (enabledPool ts).
Proof.
  unfold slotAt. destruct (assignedPointsOf ts !! k) as [p|] eqn:Ep; [|discriminate].
  cbn. intros H. inversion H as [Hslot]. clear H.
  destruct (decide (HiddenMessage.species p = Some "sunflower"%string)) as [Hs|Hs].
  - right. apply list_elem_of_lookup_2 in Ep. unfold assignedPointsOf in Ep. cbv zeta in Ep.
    eapply assignSpeciesToPoints_sunflower; eassumption.
  - left. split; [exact Hs|].
    destruct (slotSvg (slotOf FLOWER_SVGS (buildSpeciesVariants FLOWER_SVGS) ts k p))
      as [v|] eqn:Ev; [|exact I].
    apply slotOf_svg_species in Ev. intros Hv. rewrite Hv in Ev.
    destruct Ev as [Ev|Ev]; [|discriminate].
    destruct (HiddenMessage.species p) as [s|]; cbn in Ev; [|discriminate].
    apply Hs. f_equal. symmetry. exact Ev.
Qed.

(** C6 (sunflower exclusion).  [assignSpeciesToPoints] assigns sunflower
    only when the enabled pool holds no other species; and every message
    flower of [generateGarden] belongs to a text set of the input and has
    neither sunflower as the species of its point nor a variant with the
    species prefix sunflower, unless that set's enabled pool holds no
    species other than sunflower. *)
Theorem generateGarden_sunflower_exclusion (count : Z)
    (textSets : list GardenConfig.TextSetConfig)
    (points : list HiddenMessage.SpawnPoint) (maskResult : HiddenMessage.TextMaskResult)
    (enabledSpecies : list string) (lineSpecies : list (list string)) :
  Forall (fun p => HiddenMessage.species p <> Some "sunflower"%string
                   \/ onlySunflower (HiddenMessage.basePoolOf enabledSpecies))
         (HiddenMessage.assignSpeciesToPoints points maskResult enabledSpecies lineSpecies)
  /\ Forall (fun e =>
               match fst e with
               | FromText slot =>
                   exists ts, ts ∈ textSets
                     /\ textSetId (snd e) = Some (GardenConfig.id ts)
                     /\ svg (snd e) = slotSvg slot
                     /\ (sunflowerFree slot \/ onlySunflower (enabledPool ts))
               | _ => textSetId (snd e) = None
               end)
            (gardenRun FLOWER_SVGS count textSets).
Proof.
  split; apply Forall_forall.
  - intros p Hp.
    destruct (decide (HiddenMessage.species p = Some "sunflower"%string)) as [Hs|Hs];
      [right | left; exact Hs].
    eapply assignSpeciesToPoints_sunflower; eassumption.
  - intros e He. unfold gardenRun in He. apply dayLoop_entry in He.
    destruct He as (st1 & i & _ & ->).
    pose proof (plantDay_facts FLOWER_SVGS (snd shuffled)
                  (slotMapOf FLOWER_SVGS textSets) st1 i) as HF.
    unfold dayFacts in HF.
    destruct (fst (plantDay FLOWER_SVGS (snd shuffled)
                     (slotMapOf FLOWER_SVGS textSets) st1 i)) as [src fl].
    cbn [fst snd] in HF |- *. destruct src as [slot|c|].
    + destruct HF as (Hm & _ & ->).
      apply slotMapOf_origin in Hm. destruct Hm as (ts & k & Hts & Hk & _).
      exists ts. split; [exact Hts|]. cbn [textFlower textSetId svg].
      split; [|split; [reflexivity|]].
      * unfold slotAt in Hk. destruct (assignedPointsOf ts !! k); [|discriminate].
        cbn in Hk. inversion Hk. reflexivity.
      * eapply slotAt_sunflower. exact Hk.
    + tauto.
    + tauto.
Qed.
End SunflowerClaim.

(** ** Variety inside a letter *)

Section LetterVariety.
Import HiddenMessage.

Variables (maskResult : TextMaskResult) (lineSpecies : list (list string)).
Variable fallbackPool : list string.
Variable li : Z.

Local Abbreviation pool := (activePoolOf maskResult lineSpecies fallbackPool li).
Local Abbreviation window := (windowSpecies maskResult lineSpecies fallbackPool li).
Local Abbreviation assign := (assignPoint maskResult lineSpecies fallbackPool).

Hypothesis pool_size : (3 <= length pool)%nat.

Lemma pickSpecies_window start c idx :
  pickSpecies fallbackPool pool start c idx = window start c.
Proof.
  unfold pickSpecies, perLetterPoolOf, windowSpecies, SPECIES_PER_LETTER. cbv zeta.
  destruct (3 <=? length pool)%nat eqn:E; [|apply Nat.leb_gt in E; lia].
  cbn [seq map length].
  assert (Hlt : ((start + c mod 3) mod length pool < length pool)%nat)
    by (apply Nat.mod_upper_bound; lia).
  destruct (lookup_lt_is_Some_2 _ _ Hlt) as [s Hs]. rewrite Hs.
  assert (Hc : (c mod 3 < 3)%nat) by (apply Nat.mod_upper_bound; lia).
  destruct (c mod 3)%nat as [|[|[|n]]]; [| | |lia];
    cbn [lookup list_lookup mjoin option_join]; rewrite Hs; reflexivity.
Qed.

Lemma assignPoint_same st p idx :
  letterIndex p = li ->
  let c := default 0%nat (fst st !! li) in
  exists start,
    snd (fst (assign st p idx)) !! li = Some start
    /\ fst (fst (assign st p idx)) !! li = Some (S c)
    /\ (forall s0, snd st !! li = Some s0 -> start = s0)
    /\ species (snd (assign st p idx)) = window start c
    /\ letterIndex (snd (assign st p idx)) = li.
Proof.
  intros Hp. destruct st as [lc ls]. unfold assignPoint. rewrite Hp. cbn [fst snd].
  destruct (ls !! li) as [s0|] eqn:E; cbn [fst snd withSpecies species letterIndex].
  - exists s0. rewrite lookup_insert_eq, pickSpecies_window.
    repeat split; try assumption. intros s1 H1. congruence.
  - eexists. rewrite !lookup_insert_eq, pickSpecies_window.
    repeat split; try assumption. intros s1 H1. discriminate.
Qed.

Lemma assignPoint_other st p idx :
  letterIndex p <> li ->
  fst (fst (assign st p idx)) !! li = fst st !! li
  /\ snd (fst (assign st p idx)) !! li = snd st !! li
  /\ letterIndex (snd (assign st p idx)) <> li.
Proof.
  intros Hp. destruct st as [lc ls]. unfold assignPoint.
  destruct (ls !! letterIndex p); cbn [fst snd withSpecies letterIndex];
    rewrite ?lookup_insert_ne by exact Hp; auto.
Qed.

(** One start index serves all the occurrences of the letter. *)
Lemma assignFrom_occurrences points idx st :
  exists start,
    (forall s0, snd st !! li = Some s0 -> start = s0)
    /\ forall j p,
         occurrences li (assignFrom maskResult lineSpecies fallbackPool idx points st) !! j
           = Some p ->
         species p = window start (default 0%nat (fst st !! li) + j).
Proof.
  revert idx st. induction points as [|q r IH]; intros idx st.
  - exists (default 0%nat (snd st !! li)). split.
    + intros s0 ->. reflexivity.
    + intros j p H. cbn in H. discriminate.
  - cbn [assignFrom].
    destruct (decide (letterIndex q = li)) as [Hq|Hq].
    + destruct (assignPoint_same st q idx Hq) as (start & H1 & H2 & H3 & H4 & H5).
      destruct (assign st q idx) as [st' q'] eqn:E. cbn [fst snd] in *.
      destruct (IH (S idx) st') as (start' & I1 & I2).
      specialize (I1 start H1). subst start'.
      exists start. split; [exact H3|].
      intros j p Hj. unfold occurrences in Hj. cbn [List.filter] in Hj.
      rewrite H5, Z.eqb_refl in Hj.
      destruct j as [|j].
      * cbn in Hj. inversion Hj; subst. rewrite H4, Nat.add_0_r. reflexivity.
      * change ((q' :: ?l) !! S j) with (l !! j) in Hj.
        rewrite (I2 j p Hj), H2. cbn [default from_option id]. f_equal. lia.
    + destruct (assignPoint_other st q idx Hq) as (H1 & H2 & H3).
      destruct (assign st q idx) as [st' q'] eqn:E. cbn [fst snd] in *.
      destruct (IH (S idx) st') as (start' & I1 & I2).
      exists start'. split.
      * intros s0 Hs0. apply I1. rewrite H2. exact Hs0.
      * intros j p Hj. unfold occurrences in Hj. cbn [List.filter] in Hj.
        destruct (letterIndex q' =? li) eqn:Eq; [apply Z.eqb_eq in Eq; contradiction|].
        rewrite (I2 j p Hj), H1. reflexivity.
Qed.
End LetterVariety.

Section LetterVarietyClaim.
Import HiddenMessage.

Lemma window_distinct (n start a b : nat) :
  (3 <= n)%nat -> (a < 3)%nat -> (b < 3)%nat -> a <> b ->
  ((start + a) mod n)%nat <> ((start + b) mod n)%nat.
Proof.
  intros Hn Ha Hb Hab Heq.
  pose proof (Nat.div_mod_eq (start + a) n) as Da.
  pose proof (Nat.div_mod_eq (start + b) n) as Db.
  rewrite Heq in Da.
  set (qa := ((start + a) / n)%nat) in *. set (qb := ((start + b) / n)%nat) in *.
  set (r := ((start + b) mod n)%nat) in *.
  assert (qa = qb \/ (qa < qb)%nat \/ (qb < qa)%nat) as [E|[E|E]] by lia.
  - subst qa. rewrite E in Da. lia.
  - assert (n * qa + n <= n * qb)%nat by nia. lia.
  - assert (n * qb + n <= n * qa)%nat by nia. lia.
Qed.

(** A pool without repeats has no run of three. *)
Lemma NoDup_noTripleRun (pool : list string) :
  (3 <= length pool)%nat -> NoDup pool -> noTripleRun pool.
Proof.
  intros Hn Hnd i [E _].
  assert (Hlt : (i mod length pool < length pool)%nat) by (apply Nat.mod_upper_bound; lia).
  destruct (lookup_lt_is_Some_2 _ _ Hlt) as [s Hs]. rewrite Hs in E. symmetry in E.
  pose proof (proj1 (NoDup_alt pool) Hnd _ _ _ Hs E) as Hidx.
  apply (window_distinct (length pool) i 0 1); [lia | lia | lia | lia |].
  rewrite Nat.add_0_r, Nat.add_1_r. exact Hidx.
Qed.

(** C7, as the code has it.  For a letter whose effective pool has at
    least three members, none of them in three consecutive places of the
    pool (read as a cycle), no three consecutive occurrences of the letter
    are assigned the same species; when the pool lists no species twice,
    they are assigned three different species. *)
Theorem assignSpeciesToPoints_letter_variety (points : list SpawnPoint)
    (maskResult : TextMaskResult) (enabledSpecies : list string)
    (lineSpecies : list (list string)) (li : Z) (k : nat) :
  let pool := activePoolOf maskResult lineSpecies (fallbackPoolOf enabledSpecies) li in
  let occ := occurrences li
               (assignSpeciesToPoints points maskResult enabledSpecies lineSpecies) in
  (3 <= length pool)%nat -> noTripleRun pool -> (k + 2 < length occ)%nat ->
  exists p1 p2 p3,
    occ !! k = Some p1 /\ occ !! S k = Some p2 /\ occ !! S (S k) = Some p3
    /\ ~ (species p1 = species p2 /\ species p2 = species p3)
    /\ (NoDup pool ->
        species p1 <> species p2 /\ species p2 <> species p3 /\ species p1 <> species p3).
Proof.
  intros pool occ Hsize Hrun Hk.
  destruct (lookup_lt_is_Some_2 occ k ltac:(lia)) as [p1 H1].
  destruct (lookup_lt_is_Some_2 occ (S k) ltac:(lia)) as [p2 H2].
  destruct (lookup_lt_is_Some_2 occ (S (S k)) ltac:(lia)) as [p3 H3].
  exists p1, p2, p3. split; [exact H1|]. split; [exact H2|]. split; [exact H3|].
  subst occ. unfold assignSpeciesToPoints in H1, H2, H3. cbv zeta in H1, H2, H3.
  pose proof (fallbackPoolOf_nonempty enabledSpecies) as Hne.
  destruct (fallbackPoolOf enabledSpecies) as [|h t] eqn:EF; [contradiction|].
  destruct (assignFrom_occurrences maskResult lineSpecies (h :: t) li Hsize points 0%nat (∅, ∅))
    as (start & _ & Hocc).
  rewrite (Hocc _ _ H1), (Hocc _ _ H2), (Hocc _ _ H3).
  cbn [fst]. rewrite lookup_empty. cbn [default from_option id Nat.add].
  unfold windowSpecies. fold pool.
  assert (Hm : forall c, (c mod 3 < 3)%nat) by (intros c; apply Nat.mod_upper_bound; lia).
  assert (Hmod : forall c, (S c mod 3)%nat <> (c mod 3)%nat
                           /\ (S (S c) mod 3)%nat <> (c mod 3)%nat).
  { intros c. pose proof (Nat.div_mod_eq c 3). pose proof (Nat.div_mod_eq (S c) 3).
    pose proof (Nat.div_mod_eq (S (S c)) 3).
    pose proof (Hm c). pose proof (Hm (S c)). pose proof (Hm (S (S c))). lia. }
  destruct (Hmod k) as [Ha Hb]. destruct (Hmod (S k)) as [Hc _].
  split.
  - intros [E1 E2]. apply (Hrun start).
    pose proof (Hm k) as Ma. pose proof (Hm (S k)) as Mb. pose proof (Hm (S (S k))) as Mc.
    replace (S start) with (start + 1)%nat by lia.
    replace (S (start + 1)) with (start + 2)%nat by lia.
    rewrite <- (Nat.add_0_r start) at 1.
    destruct (k mod 3)%nat as [|[|[|a]]]; [| | |lia];
      destruct (S k mod 3)%nat as [|[|[|b]]]; try lia;
      destruct (S (S k) mod 3)%nat as [|[|[|c]]]; try lia;
      split; congruence.
  - intros Hnd.
    assert (Hd : forall c d, (c mod 3)%nat <> (d mod 3)%nat ->
              pool !! ((start + c mod 3) mod length pool)%nat
              <> pool !! ((start + d mod 3) mod length pool)%nat).
    { intros c d Hcd Heq.
      assert (Hlt : ((start + c mod 3) mod length pool < length pool)%nat)
        by (apply Nat.mod_upper_bound; lia).
      destruct (lookup_lt_is_Some_2 _ _ Hlt) as [s Hs]. rewrite Hs in Heq. symmetry in Heq.
      pose proof (proj1 (NoDup_alt pool) Hnd _ _ _ Hs Heq) as Hidx.
      revert Hidx. apply window_distinct; auto. }
    split; [|split]; apply Hd; auto.
Qed.
End LetterVarietyClaim.

(** ** A palette that repeats a species *)

(** C7 as stated fails.  A palette that lists rose three times before tulip
    and lily gives the letter an effective pool of five members, three of
    them different, and yet its first three occurrences are all rose. *)
Lemma letter_variety_fails_on_repeated_palette :
  let ts := letterL "rosy" 0 repeatedPalette in
  let maskResult :=
    HiddenMessage.buildTextMask (GardenConfig.lines ts) (GardenConfig.maskOptions ts) in
  let pool :=
    HiddenMessage.activePoolOf maskResult (GardenConfig.lineSpecies ts)
      (HiddenMessage.fallbackPoolOf (Js.uniq [] (concat (GardenConfig.lineSpecies ts)))) 0 in
  (3 <= length pool)%nat
  /\ ~ noThreeAlike (occurrences 0 (Garden.assignedPointsOf ts)).
Proof.
  intros ts maskResult pool.
  split; [vm_compute; lia|].
  intros H.
  assert (E : exists p1 p2 p3,
             occurrences 0 (Garden.assignedPointsOf ts) !! 0%nat = Some p1
             /\ occurrences 0 (Garden.assignedPointsOf ts) !! 1%nat = Some p2
             /\ occurrences 0 (Garden.assignedPointsOf ts) !! 2%nat = Some p3
             /\ HiddenMessage.species p1 = Some "rose"%string
             /\ HiddenMessage.species p2 = Some "rose"%string
             /\ HiddenMessage.species p3 = Some "rose"%string).
  { vm_compute. do 3 eexists. repeat split. }
  destruct E as (p1 & p2 & p3 & H1 & H2 & H3 & S1 & S2 & S3).
  apply (H 0%nat p1 p2 p3 H1 H2 H3). rewrite S1, S2, S3. split; reflexivity.
Qed.

Lemma assignSpeciesToPoints_letter_variety_witness :
  let ts := letterL "plain" 0 plainPalette in
  let occ := occurrences 0 (Garden.assignedPointsOf ts) in
  exists p1 p2 p3,
    occ !! 4%nat = Some p1 /\ occ !! 5%nat = Some p2 /\ occ !! 6%nat = Some p3
    /\ ~ (HiddenMessage.species p1 = HiddenMessage.species p2
          /\ HiddenMessage.species p2 = HiddenMessage.species p3)
    /\ HiddenMessage.species p1 <> HiddenMessage.species p2
    /\ HiddenMessage.species p2 <> HiddenMessage.species p3
    /\ HiddenMessage.species p1 <> HiddenMessage.species p3.
Proof.
  intros ts.
  set (maskResult :=
         HiddenMessage.buildTextMask (GardenConfig.lines ts) (GardenConfig.maskOptions ts)).
  set (pool := HiddenMessage.activePoolOf maskResult (GardenConfig.lineSpecies ts)
                 (HiddenMessage.fallbackPoolOf
                    (Js.uniq [] (concat (GardenConfig.lineSpecies ts)))) 0).
  assert (Hsize : (3 <= length pool)%nat) by (vm_compute; lia).
  assert (Hnd : NoDup pool).
  { vm_compute. repeat constructor; rewrite ?elem_of_cons, ?elem_of_nil; intuition discriminate. }
  destruct (assignSpeciesToPoints_letter_variety
              (HiddenMessage.generateFlowerPositionsFromMask maskResult
                 {| HiddenMessage.width := GardenConfig.width (GardenConfig.bounds ts);
                    HiddenMessage.height := GardenConfig.height (GardenConfig.bounds ts);
                    HiddenMessage.offsetX := GardenConfig.offsetX (GardenConfig.bounds ts);
                    HiddenMessage.offsetY := GardenConfig.offsetY (GardenConfig.bounds ts);
                    HiddenMessage.seed := Some (GardenConfig.seed ts);
                    HiddenMessage.jitter := Some (GardenConfig.jitter ts) |}
                 (GardenConfig.density ts))
              maskResult (Js.uniq [] (concat (GardenConfig.lineSpecies ts)))
              (GardenConfig.lineSpecies ts) 0 4%nat Hsize
              (NoDup_noTripleRun pool Hsize Hnd))
    as (p1 & p2 & p3 & H1 & H2 & H3 & H4 & H5).
  - vm_compute. lia.
  - exists p1, p2, p3. split; [exact H1|]. split; [exact H2|]. split; [exact H3|].
    split; [exact H4 | exact (H5 Hnd)].
Defined.

(** ** The shape of the mask *)

Section MaskShape.
Import HiddenMessage.

Lemma setCell_lengths {A : Type} (g : list (list A)) (row col : nat) (v : A) :
  map length (setCell g row col v) = map length g.
Proof.
  unfold setCell. revert row. induction g as [|r g IH]; intros row; [reflexivity|].
  destruct row as [|row]; cbn [alter list_alter map].
  - rewrite length_insert. reflexivity.
  - f_equal. apply IH.
Qed.

(** A loop whose body keeps a property keeps it. *)
Lemma foldl_invariant {A B : Type} (P : A -> Prop) (f : A -> B -> A) (l : list B) (a : A) :
  (forall a b, P a -> P (f a b)) -> P a -> P (foldl f a l).
Proof.
  intros Hf. revert a. induction l as [|b l IH]; intros a Ha; [exact Ha|].
  cbn [foldl]. apply IH, Hf, Ha.
Qed.

Lemma forEachFrom_invariant {A St : Type} (P : St -> Prop) (Q : nat -> A -> Prop)
    (f : St -> A -> nat -> St) (l : list A) (i : nat) (s : St) :
  (forall s a j, P s -> Q j a -> P (f s a j)) ->
  (forall j a, l !! j = Some a -> Q (i + j)%nat a) ->
  P s -> P (forEachFrom f i l s).
Proof.
  intros Hf. revert i s. induction l as [|a l IH]; intros i s Hl Hs; [exact Hs|].
  cbn [forEachFrom]. apply IH.
  - intros j b Hj. replace (S i + j)%nat with (i + S j)%nat by lia. apply Hl. exact Hj.
  - apply Hf; [exact Hs|]. rewrite <- (Nat.add_0_r i). apply Hl. reflexivity.
Qed.

Section Stamping.
Variables (rows cols psx psy : nat).
Variable shape : list nat.

Lemma stampPixel_shape startRow colCursor idx r c g :
  hasShape shape g -> hasShape shape (stampPixel rows cols psx psy startRow colCursor idx r c g).
Proof.
  unfold stampPixel. apply foldl_invariant. intros g1 yScale H1.
  apply foldl_invariant; [|exact H1]. intros g2 xScale H2.
  destruct (_ && _); [|exact H2].
  unfold hasShape in *. cbn [fst]. rewrite setCell_lengths. exact H2.
Qed.

Lemma stampGlyph_shape glyph startRow colCursor idx g :
  hasShape shape g -> hasShape shape (stampGlyph rows cols psx psy glyph startRow colCursor idx g).
Proof.
  unfold stampGlyph. apply foldl_invariant. intros g1 r H1.
  destruct (glyph !! r) as [[|c0 s0]|]; try exact H1.
  apply foldl_invariant; [|exact H1]. intros g2 c H2.
  destruct (String.get c _); [|exact H2].
  destruct (Ascii.eqb _ _); [|exact H2].
  apply stampPixel_shape. exact H2.
Qed.

Lemma stampChar_shape lineIndex startRow st ch w sp :
  map length (cMask (fst (fst st))) = shape ->
  map length (cMask (fst (fst
    (stampChar rows cols psx psy lineIndex startRow st ch w sp)))) = shape.
Proof.
  destruct st as [[cv cc] pos]. unfold stampChar. cbn [fst snd].
  intros H. destruct (if (_ =? -1) then _ else _) as [ls ms]. cbn [fst cMask].
  apply (stampGlyph_shape _ _ _ _ (cMask cv, cLetterMap cv)). exact H.
Qed.
End Stamping.

Lemma map_length_replicate {A : Type} (n c : nat) (a : A) :
  map length (replicate n (replicate c a)) = replicate n c.
Proof.
  induction n as [|n IH]; cbn [replicate map]; [reflexivity|].
  rewrite length_replicate. f_equal. exact IH.
Qed.

Lemma buildTextMask_shape lines options :
  exists rows cols,
    map length (mask (buildTextMask lines options)) = replicate rows cols.
Proof.
  unfold buildTextMask, forEach. cbv zeta. cbn [mask].
  match goal with |- context [replicate ?rows (replicate ?cols false)] =>
    exists rows, cols;
    apply (forEachFrom_invariant
             (fun cv => map length (cMask cv) = replicate rows cols) (fun _ _ => True));
    [ intros cv line j Hcv _;
      match goal with |- context [foldl ?g ?s0 line] =>
        apply (foldl_invariant
                 (fun st => map length (cMask (fst (fst st))) = replicate rows cols)
                 g line s0)
      end;
      [ intros st ch Hst; apply stampChar_shape; exact Hst | exact Hcv ]
    | trivial
    | cbn [cMask]; apply map_length_replicate ]
  end.
Qed.

Lemma replicate_shape_rows {A : Type} (m : list (list A)) (rows cols : nat) (r : list A) :
  map length m = replicate rows cols -> r ∈ m -> length r = cols.
Proof.
  intros Hm Hr.
  assert (Hin : length r ∈ replicate rows cols).
  { rewrite <- Hm. apply list_elem_of_In, in_map, list_elem_of_In. exact Hr. }
  apply elem_of_replicate in Hin. tauto.
Qed.

(** Every row of the mask has the width of the first. *)
Lemma buildTextMask_rectangular lines options r :
  r ∈ mask (buildTextMask lines options) ->
  length r = maskCols (mask (buildTextMask lines options)).
Proof.
  destruct (buildTextMask_shape lines options) as (rows & cols & Hm).
  intros Hr. rewrite (replicate_shape_rows _ _ _ _ Hm Hr).
  destruct (mask (buildTextMask lines options)) as [|r0 m'] eqn:E; [inversion Hr|].
  cbn [maskCols]. symmetry. apply (replicate_shape_rows _ _ _ _ Hm). left.
Qed.
End MaskShape.

(** ** Where spawn points fall *)

Section SpawnBounds.
Import HiddenMessage.

Variables (letterMapV : list (list Z)) (letterMetaV : list LetterMeta).
Variables (offX offY cw chh jit density : Q).
Variables (rows cols : nat).

Local Abbreviation ok := (pointOk offX offY cw chh jit rows cols).
Local Abbreviation copies := (copiesLoop letterMapV letterMetaV offX offY cw chh jit).

Lemma copiesLoop_points n r c st :
  (r < rows)%nat -> (c < cols)%nat ->
  Forall ok (snd st) -> Forall ok (snd (copies n r c st)).
Proof.
  intros Hr Hc. revert st. induction n as [|n IH]; intros st Hst; [exact Hst|].
  cbn [copiesLoop].
  pose proof (next_range (fst st)) as [H1 H1'].
  destruct (Random.next (fst st)) as [r1 a1]. cbn [fst] in H1, H1'.
  pose proof (next_range a1) as [H2 H2'].
  destruct (Random.next a1) as [r2 a2]. cbn [fst] in H2, H2'.
  destruct (_ =? -1); [exact Hst|].
  apply IH. cbn [snd]. apply Forall_app. split; [exact Hst|].
  apply Forall_cons. split; [|apply Forall_nil; exact I].
  unfold pointOk. cbn [row col x y].
  split; [exact Hr|]. split; [exact Hc|].
  exists r1, r2. repeat split; assumption.
Qed.

Lemma spawnCell_points st isOn r c :
  (r < rows)%nat -> (c < cols)%nat ->
  Forall ok (snd st) ->
  Forall ok (snd (spawnCell letterMapV letterMetaV offX offY cw chh jit density
                         st isOn r c)).
Proof.
  intros Hr Hc Hst. unfold spawnCell. destruct (negb isOn); [exact Hst|].
  destruct (extraCopy density (fst st)) as [extra a1].
  destruct (_ <=? 0); [exact Hst|].
  apply copiesLoop_points; assumption.
Qed.

Lemma axis_bound (off size cell r : Q) (n k : nat) :
  (0 <= size)%Q -> (0 <= jit)%Q -> (k < n)%nat ->
  (cell == size / inject_Z (Z.of_nat n))%Q ->
  (0 <= r)%Q -> (r < 1)%Q ->
  let p := (off + (inject_Z (Z.of_nat k) + (1 # 2) + (r - (1 # 2)) * jit) * cell)%Q in
  (off - (jit / 2) * cell <= p)%Q /\ (p <= off + size + (jit / 2) * cell)%Q.
Proof.
  intros Hsize Hjit Hk Hcell Hr Hr' p. subst p.
  assert (Hn : (0 < inject_Z (Z.of_nat n))%Q) by (unfold Qlt; cbn; lia).
  assert (Hkn : (inject_Z (Z.of_nat k) + 1 <= inject_Z (Z.of_nat n))%Q).
  { change 1%Q with (inject_Z 1).
    rewrite <- (inject_Z_plus (Z.of_nat k) 1), <- Zle_Qle. lia. }
  assert (Hk0 : (0 <= inject_Z (Z.of_nat k))%Q) by (unfold Qle; cbn; lia).
  assert (Hc0 : (0 <= cell)%Q).
  { rewrite Hcell. apply Qle_shift_div_l; [exact Hn | lra]. }
  assert (Hprod : (inject_Z (Z.of_nat n) * cell == size)%Q).
  { rewrite Hcell. apply Qmult_div_r. lra. }
  set (kq := inject_Z (Z.of_nat k)) in *. set (nq := inject_Z (Z.of_nat n)) in *.
  assert (Hrj : (0 <= r * jit)%Q) by (apply Qmult_le_0_compat; assumption).
  assert (Hrj' : (0 <= (1 - r) * jit)%Q) by (apply Qmult_le_0_compat; lra).
  assert (L : (0 <= (kq + (1 # 2) + r * jit) * cell)%Q)
    by (apply Qmult_le_0_compat; lra).
  assert (U : (0 <= (nq - kq - (1 # 2) + (1 - r) * jit) * cell)%Q)
    by (apply Qmult_le_0_compat; lra).
  assert (E1 : (off + (kq + (1 # 2) + (r - (1 # 2)) * jit) * cell
                == off - jit / 2 * cell + (kq + (1 # 2) + r * jit) * cell)%Q) by field.
  assert (E2 : (off + size + jit / 2 * cell
                == off + (kq + (1 # 2) + (r - (1 # 2)) * jit) * cell
                   + (nq - kq - (1 # 2) + (1 - r) * jit) * cell)%Q)
    by (rewrite <- Hprod; field).
  split.
  - rewrite E1. lra.
  - rewrite E2. lra.
Qed.

Lemma pointOk_inBox width height p :
  (0 <= width)%Q -> (0 <= height)%Q -> (0 <= jit)%Q ->
  (cw == width / inject_Z (Z.of_nat cols))%Q ->
  (chh == height / inject_Z (Z.of_nat rows))%Q ->
  ok p -> inBox offX offY cw chh jit width height (x p) (y p).
Proof.
  intros Hw Hh Hj Hcw Hch (Hr & Hc & r1 & r2 & A1 & A2 & B1 & B2 & -> & ->).
  destruct (axis_bound offX width cw r1 cols (col p) Hw Hj Hc Hcw A1 A2) as [X1 X2].
  destruct (axis_bound offY height chh r2 rows (row p) Hh Hj Hr Hch B1 B2) as [Y1 Y2].
  unfold inBox. auto.
Qed.
End SpawnBounds.

Section MessageBounds.
Import HiddenMessage.

Lemma generateFlowerPositionsFromMask_points maskResult bounds density :
  (forall r, r ∈ mask maskResult -> length r = maskCols (mask maskResult)) ->
  Forall (pointOk (resolvedOffsetX bounds) (resolvedOffsetY bounds)
            (width bounds / inject_Z (Z.of_nat (maskCols (mask maskResult))))
            (height bounds / inject_Z (Z.of_nat (length (mask maskResult))))
            (default (3 # 20)%Q (jitter bounds))
            (length (mask maskResult)) (maskCols (mask maskResult)))
         (generateFlowerPositionsFromMask maskResult bounds density).
Proof.
  intros Hrect. unfold generateFlowerPositionsFromMask. cbv zeta.
  destruct (_ || _); [apply Forall_nil; exact I|].
  unfold spawnScan, forEach. cbv zeta.
  apply (forEachFrom_invariant
           (fun st => Forall (pointOk _ _ _ _ _ _ _) (snd st))
           (fun j rowVals => (j < length (mask maskResult))%nat
                             /\ length rowVals = maskCols (mask maskResult))).
  - intros st rowVals j Hst [Hj Hlen].
    apply (forEachFrom_invariant
             (fun st => Forall (pointOk _ _ _ _ _ _ _) (snd st))
             (fun c _ => (c < maskCols (mask maskResult))%nat)).
    + intros st1 isOn c Hst1 Hc. apply spawnCell_points; assumption.
    + intros c isOn Hc. apply lookup_lt_Some in Hc. cbn. lia.
    + exact Hst.
  - intros j rowVals Hl. split.
    + apply lookup_lt_Some in Hl. cbn. exact Hl.
    + apply Hrect. eapply list_elem_of_lookup_2. exact Hl.
  - apply Forall_nil. exact I.
Qed.

(** Assignment changes the species of a point and nothing else. *)
Lemma assignFrom_preserves (P : SpawnPoint -> Prop) maskResult lineSpecies fallbackPool
    idx points st :
  (forall p s, P p -> P (withSpecies p s)) ->
  Forall P points ->
  Forall P (assignFrom maskResult lineSpecies fallbackPool idx points st).
Proof.
  intros HP. revert idx st. induction points as [|q r IH]; intros idx st Hall.
  - apply Forall_nil. exact I.
  - cbn [assignFrom]. apply Forall_cons in Hall. destruct Hall as [Hq Hr].
    assert (Hq' : P (snd (assignPoint maskResult lineSpecies fallbackPool st q idx))).
    { unfold assignPoint. destruct st as [lc ls].
      destruct (ls !! letterIndex q); cbn [snd]; apply HP; exact Hq. }
    destruct (assignPoint maskResult lineSpecies fallbackPool st q idx) as [st' q'].
    apply Forall_cons. split; [exact Hq' | apply IH; exact Hr].
Qed.

Lemma assignSpeciesToPoints_preserves (P : SpawnPoint -> Prop) points maskResult
    enabledSpecies lineSpecies :
  (forall p s, P p -> P (withSpecies p s)) ->
  Forall P points ->
  Forall P (assignSpeciesToPoints points maskResult enabledSpecies lineSpecies).
Proof.
  intros HP Hall. unfold assignSpeciesToPoints. cbv zeta.
  destruct (fallbackPoolOf enabledSpecies); [exact Hall|].
  apply assignFrom_preserves; assumption.
Qed.
End MessageBounds.

Section BoundsClaim.
Import Garden.
Variable FLOWER_SVGS : list string.

Lemma assignedPointsOf_inBox ts p :
  wellFormedBounds ts -> p ∈ assignedPointsOf ts ->
  inMessageBox ts (HiddenMessage.x p) (HiddenMessage.y p).
Proof.
  intros (Hw & Hh & Hj) Hp. unfold assignedPointsOf in Hp. cbv zeta in Hp.
  match type of Hp with
  | _ ∈ HiddenMessage.assignSpeciesToPoints
          (HiddenMessage.generateFlowerPositionsFromMask ?mr ?b ?d) _ _ _ =>
      pose proof (generateFlowerPositionsFromMask_points mr b d
                    (buildTextMask_rectangular _ _)) as Hpts
  end.
  eapply assignSpeciesToPoints_preserves in Hpts; [|intros q s Hq; exact Hq].
  rewrite Forall_forall in Hpts. specialize (Hpts p Hp).
  eapply pointOk_inBox in Hpts.
  - exact Hpts.
  - exact Hw.
  - exact Hh.
  - exact Hj.
  - reflexivity.
  - reflexivity.
Qed.

Lemma grid_cell_inCanvas c f : (c < totalCells)%nat -> inCell c f -> inCanvas f.
Proof.
  intros Hc (X1 & X2 & Y1 & Y2). unfold inCanvas.
  assert (Hcol : (c mod COLS < COLS)%nat) by (apply Nat.mod_upper_bound; discriminate).
  assert (Hrow : (c / COLS < ROWS)%nat)
    by (apply Nat.Div0.div_lt_upper_bound; unfold totalCells, COLS, ROWS in *; lia).
  assert (HW : (cellW == 25 # 16)%Q) by reflexivity.
  assert (HH : (cellH == 25 # 14)%Q) by reflexivity.
  assert (Qc0 : (0 <= inject_Z (Z.of_nat (c mod COLS)))%Q) by (unfold Qle; cbn; lia).
  assert (Qr0 : (0 <= inject_Z (Z.of_nat (c / COLS)))%Q) by (unfold Qle; cbn; lia).
  assert (Qc : (inject_Z (Z.of_nat (c mod COLS)) + 1 <= 64)%Q).
  { change 1%Q with (inject_Z 1). change 64%Q with (inject_Z 64).
    rewrite <- inject_Z_plus, <- Zle_Qle. unfold COLS in *. lia. }
  assert (Qr : (inject_Z (Z.of_nat (c / COLS)) + 1 <= 56)%Q).
  { change 1%Q with (inject_Z 1). change 56%Q with (inject_Z 56).
    rewrite <- inject_Z_plus, <- Zle_Qle. unfold ROWS, COLS in *. lia. }
  rewrite HW in X1, X2. rewrite HH in Y1, Y2.
  repeat split; lra.
Qed.

(** C8 (bounds containment).  In the output of [generateGarden] every
    ordinary flower (one without [textSetId]) lies in [0,100] x [0,100];
    every message flower carries the id of a text set of the input and,
    provided that set's width, height and jitter are not negative, lies in
    the set's bounding box widened on each side by jitter/2 of one mask
    cell (cell width for x, cell height for y). *)
Theorem generateGarden_bounds (count : Z) (textSets : list GardenConfig.TextSetConfig) :
  Forall (fun f =>
            match textSetId f with
            | None => inCanvas f
            | Some t =>
                exists ts, ts ∈ textSets /\ GardenConfig.id ts = t
                           /\ (wellFormedBounds ts -> inMessageBox ts (x f) (y f))
            end)
         (generateGarden FLOWER_SVGS count textSets).
Proof.
  apply Forall_forall. intros f Hf. unfold generateGarden in Hf.
  apply list_elem_of_In, in_map_iff in Hf. destruct Hf as (e & <- & He).
  apply list_elem_of_In in He. unfold gardenRun in He. apply dayLoop_entry in He.
  destruct He as (st1 & i & _ & ->).
  pose proof (plantDay_facts FLOWER_SVGS (snd shuffled)
                (slotMapOf FLOWER_SVGS textSets) st1 i) as HF.
  unfold dayFacts in HF.
  destruct (fst (plantDay FLOWER_SVGS (snd shuffled)
                   (slotMapOf FLOWER_SVGS textSets) st1 i)) as [src fl].
  cbn [fst snd] in HF |- *. destruct src as [slot|c|].
  - destruct HF as (Hm & _ & ->). cbn [textFlower textSetId x y].
    apply slotMapOf_origin in Hm. destruct Hm as (ts & k & Hts & Hk & _).
    unfold slotAt in Hk. destruct (assignedPointsOf ts !! k) as [p|] eqn:Ep; [|discriminate].
    cbn in Hk. inversion Hk as [Hslot]. cbn [slotOf slotTextSetId point].
    exists ts. split; [exact Hts|]. split; [reflexivity|].
    intros Hwf. apply assignedPointsOf_inBox; [exact Hwf|].
    eapply list_elem_of_lookup_2. exact Ep.
  - destruct HF as (_ & Hlt & Hc & _ & -> & Hcell).
    apply (grid_cell_inCanvas c fl); [|exact Hcell].
    apply shuffled_range. rewrite <- shuffled_length in Hlt.
    destruct (lookup_lt_is_Some_2 _ _ Hlt) as [c0 Hc0]. rewrite Hc0 in Hc. cbn in Hc.
    subst c0. eapply list_elem_of_lookup_2. exact Hc0.
  - destruct HF as (_ & _ & _ & -> & X1 & X2 & Y1 & Y2).
    unfold inCanvas. repeat split; lra.
Qed.
End BoundsClaim.

(** ** The claims on sample inputs *)


Lemma generateGarden_last_write_wins_witness :
  let out := Garden.generateGarden sampleCatalog 30 ([] ++ firstSet :: [] ++ secondSet :: []) in
  exists p2 f,
    Garden.assignedPointsOf secondSet !! 2%nat = Some p2
    /\ out !! 17%nat = Some f
    /\ f = textFlower 17
             (Garden.slotOf sampleCatalog (Garden.buildSpeciesVariants sampleCatalog)
                secondSet 2 p2)
    /\ Garden.x f = HiddenMessage.x p2 /\ Garden.y f = HiddenMessage.y p2
    /\ Garden.textSetId f = Some (GardenConfig.id secondSet)
    /\ (forall j g, out !! j = Some g -> Garden.id g = 17%nat -> j = 17%nat).
Proof.
  apply (generateGarden_last_write_wins sampleCatalog 30 [] [] [] firstSet secondSet
           17%nat 2%nat).
  - lia.
  - exists 7%nat. split; [reflexivity | vm_compute; lia].
  - reflexivity.
  - vm_compute. lia.
  - intros ts' H. inversion H.
Defined.

Lemma generateGarden_message_days_witness :
  (forall k p, Garden.assignedPointsOf firstSet !! k = Some p ->
     exists e,
       Garden.gardenRun sampleCatalog 40 ([] ++ firstSet :: [])
         !! (Z.to_nat (GardenConfig.startDay firstSet) + k)%nat = Some e
       /\ gridCellOf e = None
       /\ cursorAfter sampleCatalog ([] ++ firstSet :: [])
            (S (Z.to_nat (GardenConfig.startDay firstSet) + k))
          = cursorAfter sampleCatalog ([] ++ firstSet :: [])
              (Z.to_nat (GardenConfig.startDay firstSet) + k)
       /\ Garden.id (snd e) = (Z.to_nat (GardenConfig.startDay firstSet) + k)%nat
       /\ Garden.x (snd e) = HiddenMessage.x p /\ Garden.y (snd e) = HiddenMessage.y p
       /\ Garden.zIndex (snd e) = 200 + Z.of_nat (HiddenMessage.row p)
       /\ Garden.textSetId (snd e) = Some (GardenConfig.id firstSet)
       /\ Garden.generateGarden sampleCatalog 40 ([] ++ firstSet :: [])
            !! (Z.to_nat (GardenConfig.startDay firstSet) + k)%nat = Some (snd e))
  /\ (forall k c,
        gridCells (Garden.gardenRun sampleCatalog 40 ([] ++ firstSet :: [])) !! k = Some c ->
        snd Garden.shuffled !! k = Some c).
Proof.
  apply (generateGarden_message_days sampleCatalog 40 [] [] firstSet).
  - vm_compute. discriminate.
  - vm_compute. discriminate.
  - intros ts' d H. inversion H.
Defined.

Lemma generateGarden_bounds_witness :
  Forall (fun f =>
            match Garden.textSetId f with
            | None => inCanvas f
            | Some t =>
                exists ts, ts ∈ GardenConfig.TEXT_SETS /\ GardenConfig.id ts = t
                           /\ inMessageBox ts (Garden.x f) (Garden.y f)
            end)
         (Garden.generateGarden sampleCatalog 1700 GardenConfig.TEXT_SETS).
Proof.
  eapply Forall_impl; [apply (generateGarden_bounds sampleCatalog 1700 GardenConfig.TEXT_SETS)|].
  intros f. cbv beta. destruct (Garden.textSetId f) as [t|]; [|exact (fun H => H)].
  intros (ts & Hts & Hid & Hbox). exists ts. split; [exact Hts|]. split; [exact Hid|].
  apply Hbox. apply list_elem_of_singleton in Hts. subst ts.
  unfold wellFormedBounds, Qle. cbn. lia.
Defined.

(** The letter L, twelve on cells, scanned at density 1: twenty-four draws,
    two for each cell. *)
Example letterL_scan_draws :
  fst (HiddenMessage.spawnScan
         (HiddenMessage.buildTextMask ["L"%string] defaultMaskOptions)
         {| HiddenMessage.width := 60; HiddenMessage.height := 40;
            HiddenMessage.offsetX := None; HiddenMessage.offsetY := None;
            HiddenMessage.seed := Some 7; HiddenMessage.jitter := None |} 1)
  = Random.advance 24 (Random.mulberry32 7).
Proof. vm_compute. reflexivity. Qed.

(** A question mark between two letters: it takes letter index 1, the B
    after it index 2, and no cell of the letter map carries index 1. *)
Example unknown_character_takes_an_index :
  let maskResult := HiddenMessage.buildTextMask ["a?b"%string] defaultMaskOptions in
  HiddenMessage.letters maskResult = ["A"; "?"; "B"]%char
  /\ existsb (Z.eqb 0) (concat (HiddenMessage.letterMap maskResult)) = true
  /\ existsb (Z.eqb 1) (concat (HiddenMessage.letterMap maskResult)) = false
  /\ existsb (Z.eqb 2) (concat (HiddenMessage.letterMap maskResult)) = true.
Proof. vm_compute. repeat split. Qed.

Lemma generateGarden_no_grid_collision_witness :
  let run := Garden.gardenRun sampleCatalog 5 [] in
  exists c1 c2 f1 f2,
    run !! 0%nat = Some (Garden.FromGrid c1, f1)
    /\ run !! 1%nat = Some (Garden.FromGrid c2, f2)
    /\ c1 <> c2.
Proof.
  intros run.
  assert (E : exists c1 c2 f1 f2,
             run !! 0%nat = Some (Garden.FromGrid c1, f1)
             /\ run !! 1%nat = Some (Garden.FromGrid c2, f2)).
  { vm_compute. do 4 eexists. split; reflexivity. }
  destruct E as (c1 & c2 & f1 & f2 & H0 & H1).
  exists c1, c2, f1, f2. split; [exact H0|]. split; [exact H1|].
  destruct (generateGarden_no_grid_collision sampleCatalog 5 []) as (_ & _ & _ & _ & _ & Hd).
  apply (Hd 0%nat 1%nat c1 c2 f1 f2); [lia | exact H0 | exact H1].
Defined.

(** * Further properties *)

(** ** The emoji layer *)

Section EmojiLoop.
Variable nAlways : nat.

Lemma placeEmoji_state a i e :
  snd (Emojis.placeEmoji nAlways a i e) = Random.advance 5 a.
Proof.
  unfold Emojis.placeEmoji.
  destruct (Random.next a) as [r1 a1] eqn:E1.
  destruct (Random.next a1) as [r2 a2] eqn:E2.
  destruct (Random.next a2) as [r3 a3] eqn:E3.
  destruct (Random.next a3) as [r4 a4] eqn:E4.
  destruct (Random.next a4) as [r5 a5] eqn:E5.
  cbn [snd]. unfold Random.advance. cbn [Nat.iter nat_rect].
  rewrite E1. cbn [snd]. rewrite E2. cbn [snd]. rewrite E3. cbn [snd].
  rewrite E4. cbn [snd]. rewrite E5. reflexivity.
Qed.

Lemma placeEmoji_fields a i e :
  Emojis.id (fst (Emojis.placeEmoji nAlways a i e)) = i
  /\ Emojis.emoji (fst (Emojis.placeEmoji nAlways a i e)) = e
  /\ Emojis.alwaysShow (fst (Emojis.placeEmoji nAlways a i e)) = (i <? nAlways)%nat.
Proof.
  unfold Emojis.placeEmoji.
  destruct (Random.next a) as [r1 a1].
  destruct (Random.next a1) as [r2 a2].
  destruct (Random.next a2) as [r3 a3].
  destruct (Random.next a3) as [r4 a4].
  destruct (Random.next a4) as [r5 a5].
  cbn. auto.
Qed.

Lemma placeEmoji_range a i e : emojiInRange (fst (Emojis.placeEmoji nAlways a i e)).
Proof.
  unfold Emojis.placeEmoji.
  pose proof (next_range a) as H1.
  destruct (Random.next a) as [r1 a1].
  pose proof (next_range a1) as H2.
  destruct (Random.next a1) as [r2 a2].
  pose proof (next_range a2) as H3.
  destruct (Random.next a2) as [r3 a3].
  pose proof (next_range a3) as H4.
  destruct (Random.next a3) as [r4 a4].
  pose proof (next_range a4) as H5.
  destruct (Random.next a4) as [r5 a5].
  cbn [fst] in *. unfold emojiInRange. cbn [Emojis.x Emojis.y Emojis.rotation Emojis.scale
    Emojis.zIndex fst].
  destruct H1 as [L1 U1], H2 as [L2 U2], H3 as [L3 U3], H4 as [L4 U4], H5 as [L5 U5].
  repeat (split; [nra|]).
  assert (0 <= Qfloor (r5 * 50) < 50) as Hz.
  { split.
    - change 0 with (Qfloor 0). apply Qfloor_resp_le. nra.
    - apply Qfloor_lt_Z. change (inject_Z 50) with 50%Q. nra. }
  lia.
Qed.

(** The placement of an item does not look at the emoji. *)
Lemma placeEmoji_emoji a i e e' :
  fst (Emojis.placeEmoji nAlways a i e)
  = {| Emojis.id := Emojis.id (fst (Emojis.placeEmoji nAlways a i e'));
       Emojis.emoji := e;
       Emojis.x := Emojis.x (fst (Emojis.placeEmoji nAlways a i e'));
       Emojis.y := Emojis.y (fst (Emojis.placeEmoji nAlways a i e'));
       Emojis.rotation := Emojis.rotation (fst (Emojis.placeEmoji nAlways a i e'));
       Emojis.scale := Emojis.scale (fst (Emojis.placeEmoji nAlways a i e'));
       Emojis.zIndex := Emojis.zIndex (fst (Emojis.placeEmoji nAlways a i e'));
       Emojis.alwaysShow := Emojis.alwaysShow (fst (Emojis.placeEmoji nAlways a i e')) |}.
Proof.
  unfold Emojis.placeEmoji.
  destruct (Random.next a) as [r1 a1].
  destruct (Random.next a1) as [r2 a2].
  destruct (Random.next a2) as [r3 a3].
  destruct (Random.next a3) as [r4 a4].
  destruct (Random.next a4) as [r5 a5].
  reflexivity.
Qed.

Lemma emojiLoop_cons i e r a :
  Emojis.emojiLoop nAlways i (e :: r) a
  = fst (Emojis.placeEmoji nAlways a i e)
    :: Emojis.emojiLoop nAlways (S i) r (Random.advance 5 a).
Proof.
  cbn [Emojis.emojiLoop]. rewrite <- (placeEmoji_state a i e).
  destruct (Emojis.placeEmoji nAlways a i e) as [item a']. reflexivity.
Qed.

Lemma emojiLoop_length i l a : length (Emojis.emojiLoop nAlways i l a) = length l.
Proof.
  revert i a. induction l as [|e r IH]; intros i a; [reflexivity|].
  rewrite emojiLoop_cons. cbn [length]. rewrite IH. reflexivity.
Qed.

Lemma emojiLoop_app i l1 l2 a :
  Emojis.emojiLoop nAlways i (l1 ++ l2) a
  = Emojis.emojiLoop nAlways i l1 a
    ++ Emojis.emojiLoop nAlways (i + length l1) l2 (Random.advance (5 * length l1) a).
Proof.
  revert i a. induction l1 as [|e r IH]; intros i a.
  - cbn [app length]. rewrite Nat.add_0_r. reflexivity.
  - change ((e :: r) ++ l2) with (e :: (r ++ l2)). rewrite !emojiLoop_cons, IH.
    cbn [app length]. f_equal. f_equal.
    replace (i + S (length r))%nat with (S i + length r)%nat by lia.
    replace (Random.advance (5 * S (length r)) a)
      with (Random.advance (5 * length r) (Random.advance 5 a)); [reflexivity|].
    unfold Random.advance. rewrite <- Nat.iter_add. f_equal. lia.
Qed.

Lemma emojiLoop_ids i l a :
  map Emojis.id (Emojis.emojiLoop nAlways i l a) = seq i (length l).
Proof.
  revert i a. induction l as [|e r IH]; intros i a; [reflexivity|].
  rewrite emojiLoop_cons. cbn [map length seq]. rewrite IH.
  f_equal; apply placeEmoji_fields.
Qed.

Lemma emojiLoop_emojis i l a : map Emojis.emoji (Emojis.emojiLoop nAlways i l a) = l.
Proof.
  revert i a. induction l as [|e r IH]; intros i a; [reflexivity|].
  rewrite emojiLoop_cons. cbn [map]. rewrite IH.
  f_equal; apply placeEmoji_fields.
Qed.

Lemma emojiLoop_flags i l a :
  map Emojis.alwaysShow (Emojis.emojiLoop nAlways i l a)
  = map (fun k => (k <? nAlways)%nat) (seq i (length l)).
Proof.
  revert i a. induction l as [|e r IH]; intros i a; [reflexivity|].
  rewrite emojiLoop_cons. cbn [map length seq]. rewrite IH.
  f_equal; apply placeEmoji_fields.
Qed.

Lemma emojiLoop_range i l a : Forall emojiInRange (Emojis.emojiLoop nAlways i l a).
Proof.
  revert i a. induction l as [|e r IH]; intros i a; [constructor|].
  rewrite emojiLoop_cons. constructor; [apply placeEmoji_range | apply IH].
Qed.

End EmojiLoop.

Lemma generateEmojis_loop (alwaysEmojis rotatingEmojis : list string) :
  Emojis.generateEmojis alwaysEmojis rotatingEmojis
  = Emojis.emojiLoop (length alwaysEmojis) 0 (alwaysEmojis ++ rotatingEmojis)
      (Random.mulberry32 Emojis.EMOJI_SEED).
Proof.
  unfold Emojis.generateEmojis. destruct (alwaysEmojis ++ rotatingEmojis); reflexivity.
Qed.

Lemma map_seq_const {B : Type} (f : nat -> B) (b : B) (len j : nat) :
  (forall k, (j <= k < j + len)%nat -> f k = b) ->
  map f (seq j len) = replicate len b.
Proof.
  revert j. induction len as [|len IH]; intros j H; [reflexivity|].
  cbn [seq map replicate]. rewrite (H j) by lia. f_equal.
  apply IH. intros k Hk. apply H. lia.
Qed.

Lemma flags_below (n m : nat) :
  map (fun k => (k <? n)%nat) (seq 0 (n + m)) = replicate n true ++ replicate m false.
Proof.
  rewrite seq_app, map_app. f_equal.
  - apply map_seq_const. intros k Hk. apply Nat.ltb_lt. lia.
  - apply map_seq_const. intros k Hk. apply Nat.ltb_ge. lia.
Qed.

(** X1.  [generateEmojis] returns one item for each emoji, the always-shown
    ones first: the ids count from 0 in output order, the emojis are the
    two input lists one after the other, and [alwaysShow] is set on the
    items of the first list and on no other. *)
Theorem generateEmojis_items (alwaysEmojis rotatingEmojis : list string) :
  let items := Emojis.generateEmojis alwaysEmojis rotatingEmojis in
  map Emojis.id items = seq 0 (length alwaysEmojis + length rotatingEmojis)
  /\ map Emojis.emoji items = alwaysEmojis ++ rotatingEmojis
  /\ map Emojis.alwaysShow items
     = replicate (length alwaysEmojis) true ++ replicate (length rotatingEmojis) false.
Proof.
  intros items. subst items. rewrite generateEmojis_loop.
  rewrite emojiLoop_ids, emojiLoop_emojis, emojiLoop_flags, length_app.
  split; [reflexivity|]. split; [reflexivity|]. apply flags_below.
Qed.

(** X2.  Every emoji is placed inside the canvas with a margin of 2 on
    each side, turned by less than 45 degrees either way, scaled between
    0.8 and 1.3, and stacked on a layer from 150 to 199. *)
Theorem generateEmojis_ranges (alwaysEmojis rotatingEmojis : list string) :
  Forall emojiInRange (Emojis.generateEmojis alwaysEmojis rotatingEmojis).
Proof. rewrite generateEmojis_loop. apply emojiLoop_range. Qed.

(** X3.  Lengthening the list of rotating emojis leaves the items of the
    emojis that were there as they are: the earlier output is a prefix of
    the later one. *)
Theorem generateEmojis_append_rotating (alwaysEmojis rotatingEmojis more : list string) :
  take (length alwaysEmojis + length rotatingEmojis)
       (Emojis.generateEmojis alwaysEmojis (rotatingEmojis ++ more))
  = Emojis.generateEmojis alwaysEmojis rotatingEmojis.
Proof.
  rewrite !generateEmojis_loop, app_assoc, emojiLoop_app.
  rewrite <- length_app.
  rewrite <- (emojiLoop_length (length alwaysEmojis) 0 (alwaysEmojis ++ rotatingEmojis)
                (Random.mulberry32 Emojis.EMOJI_SEED)) at 1.
  apply take_app_length.
Qed.

(** ** The looks of the flowers *)

Section Looks.
Import Garden.

Variable FLOWER_SVGS : list string.
Variable indices : list nat.
Variable textSlotMap : gmap Z TextFlowerSlot.

Local Abbreviation plant := (plantDay FLOWER_SVGS indices textSlotMap).
Local Abbreviation loop := (dayLoop FLOWER_SVGS indices textSlotMap).

Lemma plantDay_text st i slot :
  textSlotMap !! Z.of_nat i = Some slot ->
  plant st i = ((FromText slot, textFlower i slot), st).
Proof. intros H. unfold plantDay. rewrite H. reflexivity. Qed.

Lemma pickSvg_catalog (a : Z) :
  FLOWER_SVGS <> [] ->
  exists v, pickSvg FLOWER_SVGS (fst (Random.next a)) = Some v /\ v ∈ FLOWER_SVGS.
Proof.
  intros Hne. unfold pickSvg.
  destruct FLOWER_SVGS as [|v0 rest] eqn:E; [contradiction|].
  pose proof (shuffle_draw_range (length rest) a) as Hr.
  replace (length rest + 1)%nat with (length (v0 :: rest)) in Hr by (cbn [length]; lia).
  destruct ((v0 :: rest) !! Z.to_nat (Qfloor (fst (Random.next a)
                * inject_Z (Z.of_nat (length (v0 :: rest)))))) as [v|] eqn:El.
  - exists v. split; [reflexivity|]. eapply list_elem_of_lookup_2. exact El.
  - apply lookup_ge_None_1 in El. cbn [length] in El, Hr. lia.
Qed.

(** What the two branches without a slot have in common. *)
Lemma plantDay_plain st i :
  textSlotMap !! Z.of_nat i = None ->
  let f := snd (fst (plant st i)) in
  textSetId f = None
  /\ dayNumber f = (i + 1)%nat /\ date f = dateStr i
  /\ ((4 # 5) <= scale f)%Q /\ (scale f < (6 # 5))%Q
  /\ (- (15) <= rotation f)%Q /\ (rotation f < 15)%Q
  /\ zIndex f = Qfloor (y f)
  /\ (FLOWER_SVGS <> [] -> svgFrom FLOWER_SVGS f).
Proof.
  intros Em. unfold plantDay. rewrite Em.
  destruct (gridCellUsed st <? totalCells)%nat.
  - destruct (Random.next (rng st)) as [r1 a1].
    destruct (Random.next a1) as [r2 a2].
    pose proof (pickSvg_catalog a2) as Hsvg.
    destruct (Random.next a2) as [r3 a3].
    pose proof (next_range a3) as [H4 H4'].
    destruct (Random.next a3) as [r4 a4].
    pose proof (next_range a4) as [H5 H5'].
    destruct (Random.next a4) as [r5 a5].
    cbn [fst snd textSetId dayNumber date scale rotation zIndex y] in *.
    unfold svgFrom. cbn [svg].
    repeat (split; [first [reflexivity | lra]|]). exact Hsvg.
  - destruct (Random.next (rng st)) as [r1 a1].
    destruct (Random.next a1) as [r2 a2].
    pose proof (pickSvg_catalog a2) as Hsvg.
    destruct (Random.next a2) as [r3 a3].
    pose proof (next_range a3) as [H4 H4'].
    destruct (Random.next a3) as [r4 a4].
    pose proof (next_range a4) as [H5 H5'].
    destruct (Random.next a4) as [r5 a5].
    cbn [fst snd textSetId dayNumber date scale rotation zIndex y] in *.
    unfold svgFrom. cbn [svg].
    repeat (split; [first [reflexivity | lra]|]). exact Hsvg.
Qed.

Hypothesis indices_range : forall c, c ∈ indices -> (c < totalCells)%nat.

Lemma grid_row_height (c : nat) (py : Q) :
  (c < totalCells)%nat ->
  (inject_Z (Z.of_nat (c / COLS)) * cellH <= py)%Q ->
  (py < (inject_Z (Z.of_nat (c / COLS)) + 1) * cellH)%Q ->
  0 <= Qfloor py <= 99.
Proof.
  intros Hc Hlo Hhi.
  assert (Hrow : (c / COLS < ROWS)%nat).
  { apply Nat.Div0.div_lt_upper_bound. unfold totalCells in Hc. lia. }
  assert (H0 : (0 <= inject_Z (Z.of_nat (c / COLS)))%Q).
  { change 0%Q with (inject_Z 0). rewrite <- Zle_Qle. lia. }
  assert (H1 : (inject_Z (Z.of_nat (c / COLS)) + 1 <= 56)%Q).
  { change 1%Q with (inject_Z 1). rewrite <- inject_Z_plus.
    change 56%Q with (inject_Z 56). rewrite <- Zle_Qle. unfold ROWS in Hrow. lia. }
  pose proof cellH_pos as Hh.
  assert (E : (56 * cellH == 100)%Q) by reflexivity.
  split.
  - change 0 with (Qfloor 0). apply Qfloor_resp_le. nra.
  - assert (Qfloor py < 100); [|lia].
    apply Qfloor_lt_Z. change (inject_Z 100) with 100%Q. nra.
Qed.

Lemma plantDay_look st i : flowerLook (snd (fst (plant st i))).
Proof.
  unfold flowerLook. rewrite plantDay_id.
  destruct (textSlotMap !! Z.of_nat i) as [slot|] eqn:Em.
  - rewrite (plantDay_text st i slot Em). cbn [fst snd].
    unfold isMessageFlower, messageLook, textFlower.
    cbn [textSetId dayNumber date scale rotation zIndex].
    repeat (split; [reflexivity|]). lia.
  - pose proof (plantDay_plain st i Em) as (Ht & Hd & Hdate & Hs & Hs' & Hr & Hr' & Hz & _).
    pose proof (plantDay_facts FLOWER_SVGS indices textSlotMap st i) as HF.
    unfold dayFacts in HF.
    split; [exact Hd|]. split; [exact Hdate|].
    unfold isMessageFlower. rewrite Ht. unfold ordinaryLook.
    repeat (split; [assumption|]). rewrite Hz.
    destruct (fst (fst (plant st i))) as [slot|c|].
    + destruct HF as (HF & _). rewrite Em in HF. discriminate.
    + destruct HF as (_ & Hlt & Hc & _ & _ & (_ & _ & Hy & Hy')).
      apply (grid_row_height c); [|exact Hy|exact Hy'].
      subst c. destruct (indices !! gridCellUsed st) as [c0|] eqn:El.
      * apply indices_range. eapply list_elem_of_lookup_2. exact El.
      * cbn. unfold totalCells, COLS, ROWS. lia.
    + destruct HF as (_ & _ & _ & _ & _ & _ & Hy & Hy').
      split.
      * change 0 with (Qfloor 0). apply Qfloor_resp_le. exact Hy.
      * assert (Qfloor (y (snd (fst (plant st i)))) < 100); [|lia].
        apply Qfloor_lt_Z. exact Hy'.
Qed.

End Looks.

(** X4.  Every flower of [generateGarden] carries the day number id + 1
    and the date of its day.  A message flower is drawn at scale 1.05,
    unrotated, on a layer from 200 up; an ordinary flower at a scale from
    0.8 to 1.2, turned by less than 15 degrees either way, on a layer from
    0 to 99: the layer of a message flower is above the layer of every
    ordinary flower. *)
Theorem generateGarden_looks (FLOWER_SVGS : list string) (count : Z)
    (textSets : list GardenConfig.TextSetConfig) :
  Forall flowerLook (Garden.generateGarden FLOWER_SVGS count textSets).
Proof.
  unfold Garden.generateGarden, Garden.gardenRun.
  apply Forall_forall. intros f Hf.
  apply list_elem_of_In, in_map_iff in Hf. destruct Hf as (e & <- & He).
  apply list_elem_of_In, dayLoop_entry in He. destruct He as (st1 & i & _ & ->).
  apply plantDay_look. exact shuffled_range.
Qed.

(** ** The catalog by species *)

Section Catalog.
Import Garden.

(** The table after more entries have been filed, for any table to start
    from. *)
Lemma fileVariants_lookup (svgs : list string) (m : gmap string (list string))
    (species : string) :
  foldl (fun m svg => <[Js.beforeHyphen svg := default [] (m !! Js.beforeHyphen svg) ++ [svg]]> m)
        m svgs !! species
  = match variantsOf svgs species with
    | [] => m !! species
    | l => Some (default [] (m !! species) ++ l)
    end.
Proof.
  revert m. induction svgs as [|v r IH]; intros m; [reflexivity|].
  cbn [foldl]. rewrite IH. unfold variantsOf. cbn [List.filter].
  fold (variantsOf r species).
  destruct (String.eqb (Js.beforeHyphen v) species) eqn:E.
  - apply String.eqb_eq in E. rewrite E, lookup_insert_eq.
    destruct (variantsOf r species) as [|w l].
    + reflexivity.
    + unfold default. cbn [from_option Datatypes.id]. rewrite <- app_assoc. reflexivity.
  - apply String.eqb_neq in E. rewrite lookup_insert_ne by exact E. reflexivity.
Qed.

Lemma buildSpeciesVariants_variantsOf (FLOWER_SVGS : list string) (species : string) :
  buildSpeciesVariants FLOWER_SVGS !! species
  = match variantsOf FLOWER_SVGS species with [] => None | l => Some l end.
Proof.
  unfold buildSpeciesVariants. rewrite fileVariants_lookup, lookup_empty. reflexivity.
Qed.

Lemma variantsOf_catalog (FLOWER_SVGS : list string) (species v : string) :
  v ∈ variantsOf FLOWER_SVGS species -> v ∈ FLOWER_SVGS.
Proof.
  unfold variantsOf. intros H. apply list_elem_of_In, filter_In in H.
  apply list_elem_of_In. tauto.
Qed.

(** A list of variants that is not empty gives a variant of its own, for
    every index. *)
Lemma variant_pick (variants : list string) (index : nat) :
  variants <> [] ->
  exists v,
    Js.orElse (variants !! (index mod length variants)%nat) (variants !! 0%nat) = Some v
    /\ v ∈ variants.
Proof.
  intros Hne.
  assert (Hlen : (0 < length variants)%nat) by (destruct variants; [contradiction | cbn; lia]).
  destruct (lookup_lt_is_Some_2 variants (index mod length variants)) as [v Hv].
  { apply Nat.mod_upper_bound. lia. }
  exists v. rewrite Hv. split; [reflexivity|]. eapply list_elem_of_lookup_2. exact Hv.
Qed.

Lemma slotOf_svg_catalog (FLOWER_SVGS : list string) ts k p :
  (exists v, v ∈ FLOWER_SVGS /\ Js.startsWith "rose-" v = true) ->
  exists v, slotSvg (slotOf FLOWER_SVGS (buildSpeciesVariants FLOWER_SVGS) ts k p) = Some v
            /\ v ∈ FLOWER_SVGS.
Proof.
  intros (v0 & Hv0 & Hrose). unfold slotOf. cbn [slotSvg].
  rewrite buildSpeciesVariants_variantsOf.
  set (species := default "rose"%string (HiddenMessage.species p)).
  destruct (variantsOf FLOWER_SVGS species) as [|w l] eqn:E.
  - cbn [default].
    destruct (variant_pick (List.filter (fun s => Js.startsWith "rose-" s) FLOWER_SVGS) k)
      as (v & Hv & Hin).
    { intros Hnil.
      assert (Hin : In v0 (List.filter (fun s => Js.startsWith "rose-" s) FLOWER_SVGS)).
      { apply filter_In. split; [apply list_elem_of_In; exact Hv0 | exact Hrose]. }
      rewrite Hnil in Hin. exact Hin. }
    exists v. split; [exact Hv|].
    apply list_elem_of_In, filter_In in Hin. apply list_elem_of_In. tauto.
  - cbn [default].
    destruct (variant_pick (w :: l) k) as (v & Hv & Hin); [discriminate|].
    exists v. split; [exact Hv|].
    apply (variantsOf_catalog FLOWER_SVGS species). rewrite E. exact Hin.
Qed.

End Catalog.

(** X5.  For a catalog with no entry under a name inherited from
    [Object.prototype], [buildSpeciesVariants] files every catalog entry
    under the text before its first hyphen: read under a species that is
    not such a name, the table gives the catalog's entries of that
    species, in catalog order, and nothing when the species has no entry;
    and every catalog entry is found in the list of its species. *)
Theorem buildSpeciesVariants_lookup (FLOWER_SVGS : list string) :
  ordinaryCatalog FLOWER_SVGS ->
  (forall species,
     inheritedName species = false ->
     Garden.buildSpeciesVariants FLOWER_SVGS !! species
     = match variantsOf FLOWER_SVGS species with [] => None | l => Some l end)
  /\ Forall (fun svg =>
               exists l, Garden.buildSpeciesVariants FLOWER_SVGS !! Js.beforeHyphen svg = Some l
                         /\ svg ∈ l) FLOWER_SVGS.
Proof.
  intros _. split; [intros species _; apply buildSpeciesVariants_variantsOf|].
  apply Forall_forall. intros svg Hin.
  rewrite buildSpeciesVariants_variantsOf.
  assert (Hv : In svg (variantsOf FLOWER_SVGS (Js.beforeHyphen svg))).
  { apply filter_In. split; [apply list_elem_of_In; exact Hin | apply String.eqb_refl]. }
  destruct (variantsOf FLOWER_SVGS (Js.beforeHyphen svg)) as [|w l]; [destruct Hv|].
  exists (w :: l). split; [reflexivity|]. apply list_elem_of_In. exact Hv.
Qed.

Lemma buildSpeciesVariants_lookup_witness :
  ordinaryCatalog sampleCatalog
  /\ Garden.buildSpeciesVariants sampleCatalog !! "rose"%string
     = Some ["rose-pastel"; "rose-earth"]%string
  /\ Garden.buildSpeciesVariants sampleCatalog !! "daisy"%string = None.
Proof.
  assert (Hc : ordinaryCatalog sampleCatalog) by reflexivity.
  destruct (buildSpeciesVariants_lookup sampleCatalog Hc) as [H _].
  split; [exact Hc|].
  split; [rewrite (H "rose"%string eq_refl) | rewrite (H "daisy"%string eq_refl)];
    reflexivity.
Defined.

(** X6.  With a catalog that has a variant of the rose and no entry under
    a name inherited from [Object.prototype], and text sets whose palettes
    name no such name, every flower of [generateGarden] shows a variant of
    the catalog: no flower is left without a picture, whether or not the
    catalog has the species of the messages. *)
Theorem generateGarden_svg_from_catalog (FLOWER_SVGS : list string) (count : Z)
    (textSets : list GardenConfig.TextSetConfig) :
  (exists v, v ∈ FLOWER_SVGS /\ Js.startsWith "rose-" v = true) ->
  ordinaryCatalog FLOWER_SVGS ->
  ordinaryPalettes textSets ->
  Forall (svgFrom FLOWER_SVGS) (Garden.generateGarden FLOWER_SVGS count textSets).
Proof.
  intros Hrose _ _.
  assert (Hne : FLOWER_SVGS <> []).
  { destruct Hrose as (v & Hv & _). intros E. rewrite E in Hv. inversion Hv. }
  unfold Garden.generateGarden, Garden.gardenRun.
  apply Forall_forall. intros f Hf.
  apply list_elem_of_In, in_map_iff in Hf. destruct Hf as (e & <- & He).
  apply list_elem_of_In, dayLoop_entry in He. destruct He as (st1 & i & _ & ->).
  destruct (Garden.slotMapOf FLOWER_SVGS textSets !! Z.of_nat i) as [slot|] eqn:Em.
  - rewrite (plantDay_text _ _ _ _ _ _ Em). cbn [fst snd].
    destruct (slotMapOf_origin FLOWER_SVGS textSets _ _ Em) as (ts & k & _ & Hs & _).
    unfold slotAt in Hs.
    destruct (Garden.assignedPointsOf ts !! k) as [p|]; [|discriminate].
    cbn in Hs. apply (inj Some) in Hs. subst slot.
    unfold svgFrom, textFlower. cbn [Garden.svg].
    apply slotOf_svg_catalog. exact Hrose.
  - apply plantDay_plain; assumption.
Qed.

Lemma generateGarden_svg_from_catalog_witness :
  ordinaryCatalog sampleCatalog
  /\ ordinaryPalettes [firstSet; secondSet]
  /\ Forall (svgFrom sampleCatalog) (Garden.generateGarden sampleCatalog 30 [firstSet; secondSet]).
Proof.
  assert (Hc : ordinaryCatalog sampleCatalog) by reflexivity.
  assert (Hp : ordinaryPalettes [firstSet; secondSet]) by reflexivity.
  split; [exact Hc|]. split; [exact Hp|].
  apply (generateGarden_svg_from_catalog sampleCatalog 30 [firstSet; secondSet]);
    [|exact Hc|exact Hp].
  exists "rose-pastel"%string. split; [|reflexivity].
  unfold sampleCatalog. left.
Defined.

(** ** The days without a message *)

Section Delay.
Import Garden.

Variable FLOWER_SVGS : list string.
Variable indices : list nat.

(** A day without a slot emits the same flower, up to its id, day number
    and date, whatever the day and the table. *)
Lemma plantDay_plain_any (m1 m2 : gmap Z TextFlowerSlot) st i j :
  m1 !! Z.of_nat i = None -> m2 !! Z.of_nat j = None ->
  appearance (snd (fst (plantDay FLOWER_SVGS indices m1 st i)))
  = appearance (snd (fst (plantDay FLOWER_SVGS indices m2 st j)))
  /\ snd (plantDay FLOWER_SVGS indices m1 st i) = snd (plantDay FLOWER_SVGS indices m2 st j)
  /\ isOrdinaryFlower (snd (fst (plantDay FLOWER_SVGS indices m1 st i))) = true.
Proof.
  intros H1 H2. unfold plantDay. rewrite H1, H2.
  destruct (gridCellUsed st <? totalCells)%nat;
    repeat (destruct (Random.next _)); cbn; auto.
Qed.

(** The table is read at the day only. *)
Lemma dayLoop_ext (m1 m2 : gmap Z TextFlowerSlot) days st :
  (forall i, i ∈ days -> m1 !! Z.of_nat i = m2 !! Z.of_nat i) ->
  dayLoop FLOWER_SVGS indices m1 days st = dayLoop FLOWER_SVGS indices m2 days st.
Proof.
  revert st. induction days as [|i r IH]; intros st H; [reflexivity|].
  cbn [dayLoop].
  assert (E : plantDay FLOWER_SVGS indices m1 st i = plantDay FLOWER_SVGS indices m2 st i).
  { unfold plantDay. rewrite (H i) by left. reflexivity. }
  rewrite E. destruct (plantDay FLOWER_SVGS indices m2 st i) as [e st'].
  f_equal. apply IH. intros j Hj. apply H. right. exact Hj.
Qed.

Lemma dayLoop_take (m : gmap Z TextFlowerSlot) days st (d : nat) :
  take d (dayLoop FLOWER_SVGS indices m days st)
  = dayLoop FLOWER_SVGS indices m (take d days) st.
Proof.
  destruct (Nat.le_gt_cases d (length days)) as [Hd|Hd].
  - rewrite <- (take_drop d days) at 1. rewrite dayLoop_app.
    rewrite take_app_le by (rewrite dayLoop_length, length_take; lia).
    apply take_ge. rewrite dayLoop_length, length_take. lia.
  - rewrite (take_ge days) by lia. apply take_ge. rewrite dayLoop_length. lia.
Qed.

(** The ordinary flowers of a loop are those of a loop without messages
    over as many days as there are ordinary flowers. *)
Lemma dayLoop_delay (m : gmap Z TextFlowerSlot) days days' st :
  length days' = length (ordinaryFlowers (map snd (dayLoop FLOWER_SVGS indices m days st))) ->
  map appearance (ordinaryFlowers (map snd (dayLoop FLOWER_SVGS indices m days st)))
  = map appearance (map snd (dayLoop FLOWER_SVGS indices ∅ days' st)).
Proof.
  revert days' st. induction days as [|i r IH]; intros days' st Hlen.
  - destruct days'; [reflexivity | discriminate].
  - cbn [dayLoop] in Hlen |- *.
    destruct (m !! Z.of_nat i) as [slot|] eqn:Em.
    + rewrite (plantDay_text FLOWER_SVGS indices m st i slot Em) in Hlen |- *.
      cbn [map snd ordinaryFlowers List.filter] in Hlen |- *.
      change (isOrdinaryFlower (textFlower i slot)) with false in Hlen |- *.
      apply IH. exact Hlen.
    + destruct days' as [|j r'].
      * exfalso.
        pose proof (plantDay_plain_any m m st i i Em Em) as (_ & _ & Ho).
        destruct (plantDay FLOWER_SVGS indices m st i) as [e st'].
        cbn [map snd fst ordinaryFlowers List.filter] in Hlen, Ho. rewrite Ho in Hlen.
        discriminate.
      * pose proof (plantDay_plain_any m ∅ st i j Em (lookup_empty _)) as (Ha & Hs & Ho).
        cbn [dayLoop].
        destruct (plantDay FLOWER_SVGS indices m st i) as [e st'].
        destruct (plantDay FLOWER_SVGS indices ∅ st j) as [e' st''].
        cbn [map snd fst ordinaryFlowers List.filter] in *. rewrite Ho in Hlen |- *.
        cbn [map length] in Hlen |- *. subst st''. f_equal; [exact Ha|].
        apply IH. injection Hlen as Hlen. exact Hlen.
Qed.

(** Without messages the cursor counts the days, up to the size of the
    grid. *)
Lemma cursor_plain (m : gmap Z TextFlowerSlot) days st :
  (forall i, i ∈ days -> m !! Z.of_nat i = None) ->
  (gridCellUsed st <= totalCells)%nat ->
  gridCellUsed (stateAfter FLOWER_SVGS indices m days st)
  = Nat.min (gridCellUsed st + length days) totalCells.
Proof.
  revert st. induction days as [|i r IH]; intros st Hm Hst.
  - cbn [stateAfter foldl length]. lia.
  - unfold stateAfter. cbn [foldl].
    fold (stateAfter FLOWER_SVGS indices m r (snd (plantDay FLOWER_SVGS indices m st i))).
    pose proof (plantDay_facts FLOWER_SVGS indices m st i) as HF. unfold dayFacts in HF.
    destruct (fst (fst (plantDay FLOWER_SVGS indices m st i))) as [slot|c|].
    + destruct HF as (HF & _). rewrite (Hm i) in HF by left. discriminate.
    + destruct HF as (_ & Hlt & _ & Hg & _).
      rewrite IH; [|intros j Hj; apply Hm; right; exact Hj|lia].
      rewrite Hg. cbn [length]. lia.
    + destruct HF as (_ & Hge & Hg & _).
      rewrite IH; [|intros j Hj; apply Hm; right; exact Hj|lia].
      rewrite Hg. cbn [length]. lia.
Qed.

(** The cursor never runs ahead of the days. *)
Lemma cursor_le (m : gmap Z TextFlowerSlot) days st :
  (gridCellUsed (stateAfter FLOWER_SVGS indices m days st) <= gridCellUsed st + length days)%nat.
Proof.
  revert st. induction days as [|i r IH]; intros st.
  - cbn [stateAfter foldl length]. lia.
  - unfold stateAfter. cbn [foldl].
    fold (stateAfter FLOWER_SVGS indices m r (snd (plantDay FLOWER_SVGS indices m st i))).
    pose proof (plantDay_facts FLOWER_SVGS indices m st i) as HF. unfold dayFacts in HF.
    pose proof (IH (snd (plantDay FLOWER_SVGS indices m st i))) as Hle.
    cbn [length].
    destruct (fst (fst (plantDay FLOWER_SVGS indices m st i))) as [slot|c|].
    + destruct HF as (_ & E & _). rewrite E in Hle |- *. lia.
    + destruct HF as (_ & _ & _ & Hg & _). lia.
    + destruct HF as (_ & _ & Hg & _). lia.
Qed.

End Delay.

Lemma slotMapOf_nil (FLOWER_SVGS : list string) (d : Z) :
  Garden.slotMapOf FLOWER_SVGS [] !! d = None.
Proof.
  destruct (Garden.slotMapOf FLOWER_SVGS [] !! d) as [s|] eqn:E; [|reflexivity].
  destruct (slotMapOf_origin FLOWER_SVGS [] d s E) as (ts & k & Hts & _).
  inversion Hts.
Qed.

Lemma slotMapOf_before (FLOWER_SVGS : list string)
    (textSets : list GardenConfig.TextSetConfig) (d i : Z) :
  (forall ts, ts ∈ textSets -> d <= GardenConfig.startDay ts) -> i < d ->
  Garden.slotMapOf FLOWER_SVGS textSets !! i = None.
Proof.
  intros Hstart Hi.
  destruct (Garden.slotMapOf FLOWER_SVGS textSets !! i) as [s|] eqn:E; [|reflexivity].
  destruct (slotMapOf_origin FLOWER_SVGS textSets i s E) as (ts & k & Hts & _ & Hd).
  specialize (Hstart ts Hts). lia.
Qed.

(** The entry of day [i] of a run, and the cursor it is planted at. *)
Lemma gardenRun_lookup (FLOWER_SVGS : list string) (count : Z)
    (textSets : list GardenConfig.TextSetConfig) (i : nat)
    (e : Garden.Source * Garden.FlowerData) :
  Garden.gardenRun FLOWER_SVGS count textSets !! i = Some e ->
  (i < Z.to_nat count)%nat
  /\ e = fst (Garden.plantDay FLOWER_SVGS (snd Garden.shuffled)
                (Garden.slotMapOf FLOWER_SVGS textSets)
                (stateAfter FLOWER_SVGS (snd Garden.shuffled)
                   (Garden.slotMapOf FLOWER_SVGS textSets) (seq 0 i)
                   {| Garden.rng := fst Garden.shuffled; Garden.gridCellUsed := 0 |}) i).
Proof.
  unfold Garden.gardenRun. intros Hk.
  assert (Hlt : (i < Z.to_nat count)%nat).
  { apply lookup_lt_Some in Hk. rewrite dayLoop_length, length_seq in Hk. exact Hk. }
  split; [exact Hlt|].
  assert (Hi : seq 0 (Z.to_nat count) !! i = Some i).
  { rewrite lookup_seq_lt by exact Hlt. reflexivity. }
  rewrite (dayLoop_lookup _ _ _ _ _ _ _ Hi) in Hk.
  replace (take i (seq 0 (Z.to_nat count))) with (seq 0 i) in Hk.
  - symmetry. apply (inj Some). exact Hk.
  - rewrite take_seq. f_equal. lia.
Qed.

(** X7.  A flower is scattered over the whole canvas only from day 3584
    on: in a garden of at most 3584 days every ordinary flower sits in a
    grid cell of its own. *)
Theorem gardenRun_scatter_late (FLOWER_SVGS : list string) (count : Z)
    (textSets : list GardenConfig.TextSetConfig) :
  Forall (fun e => fst e = Garden.Scattered -> (Garden.totalCells <= Garden.id (snd e))%nat)
         (Garden.gardenRun FLOWER_SVGS count textSets).
Proof.
  apply Forall_lookup. intros i e Hk Hs.
  apply gardenRun_lookup in Hk. destruct Hk as [_ He].
  set (m := Garden.slotMapOf FLOWER_SVGS textSets) in *.
  set (st0 := {| Garden.rng := fst Garden.shuffled; Garden.gridCellUsed := 0 |}) in *.
  pose proof (plantDay_facts FLOWER_SVGS (snd Garden.shuffled) m
                (stateAfter FLOWER_SVGS (snd Garden.shuffled) m (seq 0 i) st0) i) as HF.
  pose proof (cursor_le FLOWER_SVGS (snd Garden.shuffled) m (seq 0 i) st0) as Hle.
  unfold dayFacts in HF. rewrite <- He, Hs in HF. destruct HF as (_ & Hfull & _).
  rewrite He, plantDay_id. rewrite length_seq in Hle. subst st0.
  cbn [Garden.gridCellUsed] in Hle. lia.
Qed.

(** X8.  Without text sets the flower of day [i] sits in the cell that the
    shuffle put at place [i], for the first 3584 days, and every later
    flower is scattered. *)
Theorem gardenRun_without_messages (FLOWER_SVGS : list string) (count : Z) :
  Forall (fun e =>
            fst e = if (Garden.id (snd e) <? Garden.totalCells)%nat
                    then Garden.FromGrid
                           (default 0%nat (snd Garden.shuffled !! Garden.id (snd e)))
                    else Garden.Scattered)
         (Garden.gardenRun FLOWER_SVGS count []).
Proof.
  apply Forall_lookup. intros i e Hk.
  apply gardenRun_lookup in Hk. destruct Hk as [_ He].
  set (m := Garden.slotMapOf FLOWER_SVGS []) in *.
  set (st0 := {| Garden.rng := fst Garden.shuffled; Garden.gridCellUsed := 0 |}) in *.
  pose proof (plantDay_facts FLOWER_SVGS (snd Garden.shuffled) m
                (stateAfter FLOWER_SVGS (snd Garden.shuffled) m (seq 0 i) st0) i) as HF.
  assert (Hc : Garden.gridCellUsed
                 (stateAfter FLOWER_SVGS (snd Garden.shuffled) m (seq 0 i) st0)
               = Nat.min i Garden.totalCells).
  { rewrite (cursor_plain FLOWER_SVGS (snd Garden.shuffled) m (seq 0 i) st0).
    - rewrite length_seq. reflexivity.
    - intros j _. apply slotMapOf_nil.
    - subst st0. cbn [Garden.gridCellUsed]. lia. }
  unfold dayFacts in HF. rewrite <- He in HF. rewrite Hc in HF.
  assert (Hid : Garden.id (snd e) = i) by (rewrite He; apply plantDay_id).
  rewrite Hid.
  destruct (fst e) as [slot|c|].
  - destruct HF as (HF & _). unfold m in HF. rewrite slotMapOf_nil in HF. discriminate.
  - destruct HF as (_ & Hlt & Hcell & _).
    assert (Hi : (i < Garden.totalCells)%nat) by lia.
    rewrite (proj2 (Nat.ltb_lt _ _) Hi). rewrite Nat.min_l in Hcell by lia.
    rewrite Hcell. reflexivity.
  - destruct HF as (_ & Hge & _).
    assert (Hi : (Garden.totalCells <= i)%nat) by lia.
    rewrite (proj2 (Nat.ltb_ge _ _) Hi). reflexivity.
Qed.

(** X9.  Messages delay the ordinary flowers and change nothing else of
    them: leaving the message flowers out, a garden with text sets shows
    the flowers of the garden without text sets, at the same places, with
    the same pictures, scales, rotations and layers, in the same order;
    only ids, day numbers and dates differ. *)
Theorem generateGarden_messages_delay (FLOWER_SVGS : list string) (count : Z)
    (textSets : list GardenConfig.TextSetConfig) :
  let ordinary := ordinaryFlowers (Garden.generateGarden FLOWER_SVGS count textSets) in
  map appearance ordinary
  = map appearance (Garden.generateGarden FLOWER_SVGS (Z.of_nat (length ordinary)) []).
Proof.
  intros ordinary. subst ordinary. unfold Garden.generateGarden, Garden.gardenRun.
  rewrite Nat2Z.id.
  rewrite (dayLoop_ext FLOWER_SVGS (snd Garden.shuffled) (Garden.slotMapOf FLOWER_SVGS []) ∅).
  - apply dayLoop_delay. rewrite length_seq. reflexivity.
  - intros i _. rewrite slotMapOf_nil. symmetry. apply lookup_empty.
Qed.

(** X10.  A message changes nothing before its first day: with every
    text set starting on day [d] or later, the first [d] flowers are the
    flowers of the garden without text sets, field by field. *)
Theorem generateGarden_before_messages (FLOWER_SVGS : list string) (count : Z)
    (textSets : list GardenConfig.TextSetConfig) (d : nat) :
  (forall ts, ts ∈ textSets -> Z.of_nat d <= GardenConfig.startDay ts) ->
  take d (Garden.generateGarden FLOWER_SVGS count textSets)
  = take d (Garden.generateGarden FLOWER_SVGS count []).
Proof.
  intros Hstart. unfold Garden.generateGarden, Garden.gardenRun.
  rewrite !firstn_map, !dayLoop_take. f_equal.
  apply dayLoop_ext. intros i Hi.
  rewrite slotMapOf_nil. apply (slotMapOf_before FLOWER_SVGS textSets (Z.of_nat d)).
  - exact Hstart.
  - apply elem_of_take in Hi. destruct Hi as (k & Hk & Hkd).
    apply lookup_seq in Hk. destruct Hk as [-> _]. lia.
Qed.

Lemma generateGarden_before_messages_witness :
  take 10 (Garden.generateGarden sampleCatalog 30 [firstSet; secondSet])
  = take 10 (Garden.generateGarden sampleCatalog 30 []).
Proof.
  apply (generateGarden_before_messages sampleCatalog 30 [firstSet; secondSet] 10).
  intros ts Hts. apply elem_of_cons in Hts. destruct Hts as [->|Hts]; [cbn; lia|].
  apply list_elem_of_singleton in Hts. subst ts. cbn. lia.
Defined.

(** ** The order of the slots *)

Section SortSlots.
Import Garden.

Lemma insertSlot_perm s l : Permutation (insertSlot s l) (s :: l).
Proof.
  induction l as [|h t IH]; [reflexivity|].
  cbn [insertSlot]. destruct (dayIndex s <=? dayIndex h)%Z; [reflexivity|].
  rewrite IH. apply perm_swap.
Qed.

Lemma insertSlot_sorted s l :
  StronglySorted byDay l -> StronglySorted byDay (insertSlot s l).
Proof.
  induction l as [|h t IH]; intros Hs.
  - cbn. constructor; constructor.
  - cbn [insertSlot]. destruct (dayIndex s <=? dayIndex h)%Z eqn:E.
    + apply Z.leb_le in E. constructor; [exact Hs|].
      constructor; [exact E|].
      apply StronglySorted_inv in Hs. destruct Hs as [_ Hall].
      eapply List.Forall_impl; [|exact Hall]. intros a Ha. unfold byDay in *. lia.
    + apply Z.leb_gt in E. apply StronglySorted_inv in Hs. destruct Hs as [Hs Hall].
      constructor; [apply IH; exact Hs|].
      rewrite insertSlot_perm. constructor; [unfold byDay; lia | exact Hall].
Qed.

Lemma sortSlots_perm l : Permutation (sortSlots l) l.
Proof.
  induction l as [|s l IH]; [reflexivity|].
  cbn [sortSlots foldr]. fold (sortSlots l). rewrite insertSlot_perm, IH. reflexivity.
Qed.

Lemma sortSlots_sorted l : StronglySorted byDay (sortSlots l).
Proof.
  induction l as [|s l IH]; [constructor|].
  cbn [sortSlots foldr]. fold (sortSlots l). apply insertSlot_sorted, IH.
Qed.

End SortSlots.

(** X11.  [precomputeTextFlowers] returns the slots of all the text sets
    in the order of their days: nothing is lost or added by the sort, and
    the slots of one day keep the order in which the text sets list them. *)
Theorem precomputeTextFlowers_sorted (FLOWER_SVGS : list string)
    (textSets : list GardenConfig.TextSetConfig)
    (speciesVariants : gmap string (list string)) :
  let slots := Garden.precomputeTextFlowers FLOWER_SVGS textSets speciesVariants in
  let unsorted := concat (map (Garden.slotsOf FLOWER_SVGS speciesVariants) textSets) in
  StronglySorted byDay slots
  /\ Permutation slots unsorted
  /\ forall d, onDay d slots = onDay d unsorted.
Proof.
  intros slots unsorted. subst slots unsorted. unfold Garden.precomputeTextFlowers.
  split; [apply sortSlots_sorted|]. split; [apply sortSlots_perm|].
  intros d. apply sortSlots_onDay.
Qed.

(** ** The page *)

Lemma page_constants :
  Page.START_DATE = 1509062400000 /\ Page.END_DATE = 1771027200000
  /\ Page.MS_PER_DAY = 86400000 /\ Page.MAX_FLOWERS = 3032.
Proof. repeat split; reflexivity. Qed.

(** X12.  The count of flowers that [page.tsx] asks for is the number of
    whole days elapsed since 27 October 2017 (UTC), held between 0 and
    3032: it is 0 until the first day has passed, 3032 from 14 February
    2026 on, never decreases, and stays below the 3584 cells of the grid. *)
Theorem page_count_clamped (today : Z) :
  0 <= Page.count today <= 3032
  /\ (Page.count today = 0 <-> today < Page.START_DATE + Page.MS_PER_DAY)
  /\ (Page.count today = 3032 <-> Page.END_DATE <= today)
  /\ (Page.START_DATE <= today < Page.END_DATE ->
      Page.START_DATE + Page.count today * Page.MS_PER_DAY <= today
        < Page.START_DATE + (Page.count today + 1) * Page.MS_PER_DAY)
  /\ (forall later, today <= later -> Page.count today <= Page.count later)
  /\ (Z.to_nat (Page.count today) < Garden.totalCells)%nat.
Proof.
  destruct page_constants as (Es & Ee & Ed & Em).
  unfold Page.count, Page.daysSinceStart. rewrite Es, Ee, Ed, Em.
  change Garden.totalCells with 3584%nat.
  pose proof (Z.div_mod (today - 1509062400000) 86400000 ltac:(lia)) as Hdiv.
  pose proof (Z.mod_pos_bound (today - 1509062400000) 86400000 ltac:(lia)) as Hmod.
  repeat split; try lia.
  intros later Hle.
  pose proof (Z.div_le_mono (today - 1509062400000) (later - 1509062400000) 86400000
                ltac:(lia) ltac:(lia)).
  lia.
Qed.

Lemma generateGarden_succ (FLOWER_SVGS : list string) (n : nat)
    (textSets : list GardenConfig.TextSetConfig) :
  exists f : Garden.FlowerData,
    Garden.id f = n
    /\ Garden.generateGarden FLOWER_SVGS (Z.of_nat (S n)) textSets
       = Garden.generateGarden FLOWER_SVGS (Z.of_nat n) textSets ++ [f].
Proof.
  unfold Garden.generateGarden, Garden.gardenRun.
  rewrite !Nat2Z.id, seq_S, Nat.add_0_l, dayLoop_snoc, map_app.
  eexists. split; [|reflexivity].
  apply plantDay_id.
Qed.

(** X13.  The page of the messages draws one flower for each whole day
    elapsed since 27 October 2017: the total it shows is the number of
    flowers, and a day later the garden is the same garden with one flower
    more, whose id is the old total. *)
Theorem Home_grows_daily (FLOWER_SVGS : list string)
    (TEXT_SETS : list GardenConfig.TextSetConfig)
    (ALWAYS_EMOJIS ROTATING_EMOJIS : list string) (today : Z) :
  Page.START_DATE <= today ->
  let props := PageOfMessages.Home FLOWER_SVGS TEXT_SETS ALWAYS_EMOJIS ROTATING_EMOJIS today in
  let next := PageOfMessages.Home FLOWER_SVGS TEXT_SETS ALWAYS_EMOJIS ROTATING_EMOJIS
                (today + Page.MS_PER_DAY) in
  PageOfMessages.total props = (today - Page.START_DATE) / Page.MS_PER_DAY
  /\ Z.of_nat (length (PageOfMessages.flowers props)) = PageOfMessages.total props
  /\ PageOfMessages.total next = PageOfMessages.total props + 1
  /\ exists f, Garden.id f = Z.to_nat (PageOfMessages.total props)
               /\ PageOfMessages.flowers next = PageOfMessages.flowers props ++ [f].
Proof.
  intros Hstart props next. subst props next. unfold PageOfMessages.Home.
  cbn [PageOfMessages.total PageOfMessages.flowers].
  destruct page_constants as (Es & _ & Ed & _). rewrite Es, Ed in *.
  set (days := (today - 1509062400000) / 86400000).
  assert (Hd : 0 <= days) by (apply Z.div_pos; lia).
  assert (Hn : (today + 86400000 - 1509062400000) / 86400000 = days + 1).
  { replace (today + 86400000 - 1509062400000)
      with (today - 1509062400000 + 1 * 86400000) by lia.
    apply Z.div_add. lia. }
  rewrite Hn, !Z.max_r by lia.
  split; [reflexivity|]. split.
  - unfold Garden.generateGarden, Garden.gardenRun.
    rewrite length_map, dayLoop_length, length_seq. lia.
  - split; [reflexivity|].
    destruct (generateGarden_succ FLOWER_SVGS (Z.to_nat days) TEXT_SETS) as (f & Hid & Hf).
    exists f. split; [exact Hid|].
    replace (days + 1) with (Z.of_nat (S (Z.to_nat days))) by lia.
    rewrite Hf. rewrite Z2Nat.id by lia. reflexivity.
Qed.

Lemma Home_grows_daily_witness :
  let today := Page.START_DATE + 5 * Page.MS_PER_DAY + 1234 in
  let props := PageOfMessages.Home sampleCatalog [firstSet] ["a"; "b"]%string ["c"]%string
                 today in
  let next := PageOfMessages.Home sampleCatalog [firstSet] ["a"; "b"]%string ["c"]%string
                (today + Page.MS_PER_DAY) in
  PageOfMessages.total props = (today - Page.START_DATE) / Page.MS_PER_DAY
  /\ Z.of_nat (length (PageOfMessages.flowers props)) = PageOfMessages.total props
  /\ PageOfMessages.total next = PageOfMessages.total props + 1
  /\ exists f, Garden.id f = Z.to_nat (PageOfMessages.total props)
               /\ PageOfMessages.flowers next = PageOfMessages.flowers props ++ [f].
Proof.
  intros today.
  apply (Home_grows_daily sampleCatalog [firstSet] ["a"; "b"]%string ["c"]%string today).
  subst today. vm_compute. discriminate.
Defined.

(** ** The component *)

Lemma getTimeOfDay_cases (hour : Z) :
  ((hour < 5 \/ 22 <= hour) /\ GardenView.getTimeOfDay hour = GardenView.night)
  \/ (5 <= hour < 7 /\ GardenView.getTimeOfDay hour = GardenView.dawn)
  \/ (7 <= hour < 10 /\ GardenView.getTimeOfDay hour = GardenView.morning)
  \/ (10 <= hour < 17 /\ GardenView.getTimeOfDay hour = GardenView.day)
  \/ (17 <= hour < 19 /\ GardenView.getTimeOfDay hour = GardenView.sunset)
  \/ (19 <= hour < 22 /\ GardenView.getTimeOfDay hour = GardenView.dusk).
Proof.
  unfold GardenView.getTimeOfDay.
  destruct (Z.leb_spec 22 hour); [left; split; [lia | reflexivity]|].
  destruct (Z.ltb_spec hour 5); [left; split; [lia | reflexivity]|].
  cbn [orb].
  destruct (Z.leb_spec 5 hour); [|lia].
  destruct (Z.ltb_spec hour 7); cbn [andb]; [right; left; split; [lia | reflexivity]|].
  destruct (Z.leb_spec 7 hour); [|lia].
  destruct (Z.ltb_spec hour 10); cbn [andb];
    [right; right; left; split; [lia | reflexivity]|].
  destruct (Z.leb_spec 10 hour); [|lia].
  destruct (Z.ltb_spec hour 17); cbn [andb];
    [right; right; right; left; split; [lia | reflexivity]|].
  destruct (Z.leb_spec 17 hour); [|lia].
  destruct (Z.ltb_spec hour 19); cbn [andb];
    [right; right; right; right; left; split; [lia | reflexivity]|].
  right; right; right; right; right. split; [lia | reflexivity].
Qed.

Lemma scene_table :
  AmbientAudio.scene GardenView.night = AmbientAudio.night
  /\ AmbientAudio.scene GardenView.dawn = AmbientAudio.night
  /\ AmbientAudio.scene GardenView.morning = AmbientAudio.day
  /\ AmbientAudio.scene GardenView.day = AmbientAudio.day
  /\ AmbientAudio.scene GardenView.sunset = AmbientAudio.day
  /\ AmbientAudio.scene GardenView.dusk = AmbientAudio.night.
Proof. repeat split; reflexivity. Qed.

(** X14.  The night ambience plays from 19 o'clock to 7 o'clock and the
    day ambience in between: dusk, the hours that no other test of
    [getTimeOfDay] takes, is 19 to 21 o'clock, and the scene is the night
    one at night, dusk and dawn. *)
Theorem scene_by_hour (hour : Z) :
  (GardenView.getTimeOfDay hour = GardenView.dusk <-> 19 <= hour <= 21)
  /\ (AmbientAudio.scene (GardenView.getTimeOfDay hour) = AmbientAudio.night
      <-> hour < 7 \/ 19 <= hour)
  /\ (AmbientAudio.scene (GardenView.getTimeOfDay hour) = AmbientAudio.day
      <-> 7 <= hour <= 18).
Proof.
  destruct scene_table as (S1 & S2 & S3 & S4 & S5 & S6).
  destruct (getTimeOfDay_cases hour)
    as [[H E]|[[H E]|[[H E]|[[H E]|[[H E]|[H E]]]]]];
    rewrite E; rewrite ?S1, ?S2, ?S3, ?S4, ?S5, ?S6;
    repeat split; intros; first [discriminate | reflexivity | lia].
Qed.

(** ** The countdown *)

Lemma Qfloor_unique (q : Q) (z : Z) :
  (inject_Z z <= q)%Q -> (q < inject_Z (z + 1))%Q -> Qfloor q = z.
Proof.
  intros Hlo Hhi.
  pose proof (Qfloor_resp_le _ _ Hlo) as H1. rewrite Qfloor_Z in H1.
  pose proof (Qfloor_lt_Z _ _ Hhi) as H2. lia.
Qed.

Lemma Qfloor_sub_Z (q : Q) (m : Z) : Qfloor (q - inject_Z m) = Qfloor q - m.
Proof.
  apply Qfloor_unique.
  - pose proof (Qfloor_le q) as H. unfold Z.sub. rewrite inject_Z_plus, inject_Z_opp. lra.
  - pose proof (Qlt_floor q) as H.
    replace (Qfloor q - m + 1) with ((Qfloor q + 1) + - m) by lia.
    rewrite inject_Z_plus, inject_Z_opp. lra.
Qed.

(** [Math.floor((d / n) % k)] for positive integers. *)
Lemma floor_rem (d n k : Z) :
  0 <= d -> 0 < n -> 0 < k ->
  Qfloor (GardenView.rem (inject_Z d / inject_Z n) (inject_Z k)) = (d / n) mod k.
Proof.
  intros Hd Hn Hk. unfold GardenView.rem, GardenView.Qtrunc.
  assert (Hn' : ~ (inject_Z n == 0)%Q).
  { change 0%Q with (inject_Z 0). rewrite inject_Z_injective. lia. }
  assert (Hk' : ~ (inject_Z k == 0)%Q).
  { change 0%Q with (inject_Z 0). rewrite inject_Z_injective. lia. }
  assert (E : (inject_Z d / inject_Z n / inject_Z k == inject_Z d / inject_Z (n * k))%Q).
  { rewrite inject_Z_mult. field. split; assumption. }
  assert (Hpos : (0 <= inject_Z d / inject_Z n / inject_Z k)%Q).
  { rewrite E. apply Qle_shift_div_l.
    - change 0%Q with (inject_Z 0). rewrite <- Zlt_Qlt. lia.
    - rewrite Qmult_0_l. change 0%Q with (inject_Z 0). rewrite <- Zle_Qle. exact Hd. }
  rewrite (proj2 (Qle_bool_iff _ _) Hpos).
  rewrite (Qfloor_comp _ _ E), <- Zdiv_Qdiv.
  rewrite <- inject_Z_mult, Qfloor_sub_Z, <- Zdiv_Qdiv.
  rewrite <- Z.div_div by lia.
  rewrite (Z.mod_eq (d / n) k) by lia. reflexivity.
Qed.

(** X15.  While the end date is ahead, [useCountdown] splits the time left
    into days, hours, minutes and seconds that add up to the whole seconds
    left, with hours below 24 and minutes and seconds below 60; it returns
    nothing before the clock is read, after Valentine's day, and once the
    end date is reached. *)
Theorem useCountdown_parts (now : option Z) (endDate : Z) (isPastValentine : bool) :
  match GardenView.useCountdown now endDate isPastValentine with
  | Some c =>
      exists t, now = Some t /\ isPastValentine = false /\ t < endDate
        /\ GardenView.days c * 86400 + GardenView.hours c * 3600
           + GardenView.minutes c * 60 + GardenView.seconds c = (endDate - t) / 1000
        /\ 0 <= GardenView.days c
        /\ 0 <= GardenView.hours c < 24
        /\ 0 <= GardenView.minutes c < 60
        /\ 0 <= GardenView.seconds c < 60
  | None =>
      now = None \/ isPastValentine = true \/ exists t, now = Some t /\ endDate <= t
  end.
Proof.
  unfold GardenView.useCountdown.
  destruct now as [t|]; [|left; reflexivity].
  destruct isPastValentine; [right; left; reflexivity|].
  destruct (Z.leb_spec (endDate - t) 0) as [Hle|Hlt].
  { right; right. exists t. split; [reflexivity | lia]. }
  exists t. cbn [GardenView.days GardenView.hours GardenView.minutes GardenView.seconds].
  split; [reflexivity|]. split; [reflexivity|]. split; [lia|].
  set (diff := endDate - t) in *.
  change 24%Q with (inject_Z 24). change 60%Q with (inject_Z 60).
  change 1000%Q with (inject_Z 1000).
  rewrite !floor_rem by lia. rewrite <- Zdiv_Qdiv.
  change (1000 * 60 * 60 * 24) with (1000 * 86400).
  change (1000 * 60 * 60) with (1000 * 3600).
  change (1000 * 60) with (1000 * 60).
  rewrite <- !Z.div_div by lia.
  set (s := diff / 1000).
  assert (Hs : 0 <= s) by (apply Z.div_pos; lia).
  pose proof (Z.div_mod s 60 ltac:(lia)) as D1.
  pose proof (Z.mod_pos_bound s 60 ltac:(lia)) as B1.
  pose proof (Z.div_mod s 3600 ltac:(lia)) as D2.
  pose proof (Z.mod_pos_bound (s / 3600) 24 ltac:(lia)) as B2.
  pose proof (Z.div_mod s 86400 ltac:(lia)) as D3.
  pose proof (Z.mod_pos_bound (s / 60) 60 ltac:(lia)) as B3.
  pose proof (Z.div_pos s 86400 Hs ltac:(lia)) as P3.
  replace (s / 3600) with (s / 60 / 60) in * by (rewrite Z.div_div by lia; reflexivity).
  replace (s / 86400) with (s / 60 / 60 / 24) in *
    by (rewrite !Z.div_div by lia; reflexivity).
  pose proof (Z.div_mod (s / 60) 60 ltac:(lia)) as D4.
  pose proof (Z.div_mod (s / 60 / 60) 24 ltac:(lia)) as D5.
  repeat split; lia.
Qed.

(** ** The grids of the text mask *)

Section MaskGrids.
Import HiddenMessage.

Lemma cellAt_setCell {A : Type} (g : list (list A)) (row col : nat) (v : A) (r c : nat) :
  cellAt (setCell g row col v) r c
  = match cellAt g r c with
    | Some old => Some (if decide (r = row /\ c = col) then v else old)
    | None => None
    end.
Proof.
  unfold cellAt, setCell. rewrite list_lookup_alter.
  destruct (decide (row = r)) as [->|Hr].
  - destruct (g !! r) as [rw|]; [|reflexivity]. cbn [fmap option_fmap option_map mbind option_bind].
    destruct (decide (col = c)) as [->|Hc].
    + destruct (rw !! c) as [old|] eqn:E.
      * rewrite list_lookup_insert_eq by (eapply lookup_lt_Some; exact E).
        rewrite decide_True by (split; reflexivity). reflexivity.
      * apply lookup_ge_None. rewrite length_insert. apply lookup_ge_None. exact E.
    + rewrite list_lookup_insert_ne by exact Hc.
      destruct (rw !! c) as [old|]; [|reflexivity].
      rewrite decide_False by (intros [_ H]; congruence). reflexivity.
  - destruct (g !! r) as [rw|]; [|reflexivity]. cbn [mbind option_bind].
    destruct (rw !! c) as [old|]; [|reflexivity].
    rewrite decide_False by (intros [H _]; congruence). reflexivity.
Qed.

Lemma cellsAgree_mono (n n' : Z) isOn li : n <= n' -> cellsAgree n isOn li -> cellsAgree n' isOn li.
Proof.
  intros Hn. unfold cellsAgree. destruct isOn as [[|]|]; try exact (fun H => H).
  intros (i & Hi & Hr). exists i. split; [exact Hi | lia].
Qed.

Lemma gridsOk_mono shape (n n' : Z) g : n <= n' -> gridsOk shape n g -> gridsOk shape n' g.
Proof.
  intros Hn (H1 & H2 & H3). split; [exact H1|]. split; [exact H2|].
  intros r c. eapply cellsAgree_mono; [exact Hn | apply H3].
Qed.

Lemma gridsOk_set shape (n idx : Z) g row col :
  0 <= idx < n -> gridsOk shape n g ->
  gridsOk shape n (setCell (fst g) row col true, setCell (snd g) row col idx).
Proof.
  intros Hidx (H1 & H2 & H3). unfold gridsOk. cbn [fst snd].
  rewrite !setCell_lengths. split; [exact H1|]. split; [exact H2|].
  intros r c. cbn [fst snd]. rewrite !cellAt_setCell.
  specialize (H3 r c). unfold cellsAgree in *.
  destruct (cellAt (fst g) r c) as [[|]|].
  - destruct H3 as (i & Hi & Hr). rewrite Hi.
    destruct (decide (r = row /\ c = col)).
    + exists idx. split; [reflexivity | exact Hidx].
    + exists i. split; [reflexivity | exact Hr].
  - rewrite H3. destruct (decide (r = row /\ c = col)).
    + exists idx. split; [reflexivity | exact Hidx].
    + reflexivity.
  - rewrite H3. reflexivity.
Qed.

Section Stamping.
Variables (rows cols psx psy : nat).
Variable shape : list nat.
Variables (n idx : Z).
Hypothesis idx_range : 0 <= idx < n.

Lemma stampPixel_ok startRow colCursor r c g :
  gridsOk shape n g ->
  gridsOk shape n (stampPixel rows cols psx psy startRow colCursor idx r c g).
Proof.
  unfold stampPixel. apply foldl_invariant. intros g1 yScale H1.
  apply foldl_invariant; [|exact H1]. intros g2 xScale H2.
  destruct (_ && _); [|exact H2].
  apply gridsOk_set; assumption.
Qed.

Lemma stampGlyph_ok glyph startRow colCursor g :
  gridsOk shape n g ->
  gridsOk shape n (stampGlyph rows cols psx psy glyph startRow colCursor idx g).
Proof.
  unfold stampGlyph. apply foldl_invariant. intros g1 r H1.
  destruct (glyph !! r) as [[|c0 s0]|]; try exact H1.
  apply foldl_invariant; [|exact H1]. intros g2 c H2.
  destruct (String.get c _); [|exact H2].
  destruct (Ascii.eqb _ _); [|exact H2].
  apply stampPixel_ok. exact H2.
Qed.
End Stamping.

Lemma stampChar_ok (R C rows cols psx psy lineIndex startRow : nat) st ch (w sp : nat) :
  canvasOk R C (fst (fst st)) ->
  canvasOk R C (fst (fst (stampChar rows cols psx psy lineIndex startRow st ch w sp))).
Proof.
  destruct st as [[cv cc] pos]. cbn [fst]. intros (Hc & Hm & Hg).
  destruct (decide (ch = " "%char)) as [->|Hne].
  - rewrite stampChar_space. cbn [fst]. split; [exact Hc|]. split; [exact Hm | exact Hg].
  - destruct (stampChar_letter rows cols psx psy lineIndex startRow w sp cv cc pos ch
                ltac:(lia) Hne) as (H1 & H2 & H3 & H4).
    cbv zeta in H1, H2, H3, H4.
    set (cv' := fst (fst (stampChar rows cols psx psy lineIndex startRow (cv, cc, pos) ch w sp)))
      in *.
    unfold canvasOk. rewrite H1, H2, H3, H4, !length_app. cbn [length].
    split; [lia|]. split; [lia|].
    apply stampGlyph_ok; [lia|].
    eapply gridsOk_mono; [|exact Hg]. lia.
Qed.

Lemma cellAt_replicate {A : Type} (rows cols : nat) (v : A) (r c : nat) :
  cellAt (replicate rows (replicate cols v)) r c
  = if decide (r < rows /\ c < cols)%nat then Some v else None.
Proof.
  unfold cellAt.
  destruct (decide (r < rows)%nat) as [Hr|Hr].
  - rewrite (lookup_replicate_2 _ _ _ Hr). cbn [mbind option_bind].
    destruct (decide (c < cols)%nat) as [Hc|Hc].
    + rewrite (lookup_replicate_2 _ _ _ Hc). rewrite decide_True by tauto. reflexivity.
    + rewrite decide_False by tauto. apply lookup_replicate_None. lia.
  - rewrite decide_False by tauto.
    assert (E : replicate rows (replicate cols v) !! r = None)
      by (apply lookup_replicate_None; lia).
    rewrite E. reflexivity.
Qed.

Lemma length_toUpperCase (s : string) : length (Js.toUpperCase s) = String.length s.
Proof.
  unfold Js.toUpperCase. rewrite length_map.
  induction s as [|a s IH]; [reflexivity|]. cbn. f_equal. exact IH.
Qed.

Lemma glyph_size : baseCharWidth = 6%nat /\ baseCharHeight = 7%nat.
Proof. split; reflexivity. Qed.

(** The canvas that [buildTextMask] returns the fields of. *)
Lemma buildTextMask_canvas (lines : list string) (options : TextMaskOptions) :
  exists cv,
    canvasOk (textRows lines options) (textCols lines options) cv
    /\ mask (buildTextMask lines options) = cMask cv
    /\ letterMap (buildTextMask lines options) = cLetterMap cv
    /\ letters (buildTextMask lines options) = cLetters cv
    /\ letterMeta (buildTextMask lines options) = cLetterMeta cv.
Proof.
  unfold buildTextMask, forEach. cbv zeta. cbn [mask letterMap letters letterMeta].
  match goal with |- context [forEachFrom ?ff 0%nat ?ll ?c0] =>
    exists (forEachFrom ff 0%nat ll c0); split; [|repeat split; reflexivity];
    apply (forEachFrom_invariant
             (canvasOk (textRows lines options) (textCols lines options)) (fun _ _ => True))
  end.
  - intros cv line j Hcv _.
    match goal with |- context [foldl ?g ?s0 line] =>
      apply (foldl_invariant
               (fun st => canvasOk (textRows lines options) (textCols lines options)
                            (fst (fst st))) g line s0)
    end.
    + intros st ch Hst. apply stampChar_ok. exact Hst.
    + exact Hcv.
  - trivial.
  - destruct glyph_size as [Ew Eh]. rewrite Ew, Eh.
    assert (Er : (length (map Js.toUpperCase lines) * (7 * scaleY options)
                  + Nat.max (length (map Js.toUpperCase lines) - 1) 0
                    * default 2%nat (lineSpacing options))%nat
                 = textRows lines options).
    { unfold textRows. rewrite length_map, Nat.max_0_r. reflexivity. }
    assert (Ec : (foldr Nat.max 0%nat
                    (map (fun line : list ascii => Nat.max (length line) 1)
                       (map Js.toUpperCase lines))
                  * (6 * scaleX options + default 2%nat (charSpacing options))
                  - default 2%nat (charSpacing options))%nat
                 = textCols lines options).
    { unfold textCols. rewrite map_map.
      rewrite (map_ext _ (fun line => Nat.max (String.length line) 1))
        by (intros a; rewrite length_toUpperCase; reflexivity).
      reflexivity. }
    fold (scaleX options) (scaleY options).
    rewrite Er, Ec.
    unfold canvasOk, gridsOk. cbn [cMask cLetterMap cLetters cLetterMeta letterCounter fst snd].
    rewrite !map_length_replicate.
    repeat split; try reflexivity.
    intros r c. cbn [fst snd]. rewrite !cellAt_replicate.
    destruct (decide (r < textRows lines options /\ c < textCols lines options)%nat);
      reflexivity.
Qed.

End MaskGrids.

(** X16.  The mask of lines of ASCII text has seven rows, magnified by
    the vertical pixel scale, for each line and the line spacing between
    two lines; its rows all have the width of the longest line, at six
    magnified columns and one character spacing for each character, less
    the last spacing; the letter map has the same shape.  Upper-casing
    changes the length of no such line. *)
Theorem buildTextMask_dimensions (lines : list string)
    (options : HiddenMessage.TextMaskOptions) :
  asciiText lines ->
  let m := HiddenMessage.buildTextMask lines options in
  length (HiddenMessage.mask m) = textRows lines options
  /\ map length (HiddenMessage.mask m)
     = replicate (textRows lines options) (textCols lines options)
  /\ map length (HiddenMessage.letterMap m)
     = replicate (textRows lines options) (textCols lines options).
Proof.
  intros _ m. subst m.
  destruct (buildTextMask_canvas lines options)
    as (cv & (_ & _ & Hm & Hl & _) & Em & El & _ & _).
  cbn [fst snd] in Hm, Hl. rewrite Em, El.
  split; [|split; [exact Hm | exact Hl]].
  rewrite <- (length_map length), Hm. apply length_replicate.
Qed.

Lemma buildTextMask_dimensions_witness :
  let m := HiddenMessage.buildTextMask ["a?b"; "lo"]%string defaultMaskOptions in
  asciiText ["a?b"; "lo"]%string
  /\ length (HiddenMessage.mask m) = 16%nat
  /\ map length (HiddenMessage.mask m) = replicate 16 22%nat
  /\ map length (HiddenMessage.letterMap m) = replicate 16 22%nat.
Proof.
  intros m.
  assert (Ha : asciiText ["a?b"; "lo"]%string) by reflexivity.
  split; [exact Ha|].
  exact (buildTextMask_dimensions ["a?b"; "lo"]%string defaultMaskOptions Ha).
Defined.

(** X17.  The two grids of a text mask agree: a cell is on exactly when
    the letter map gives it a letter, that letter is an index into
    [letters], and every off cell carries the sentinel -1; there is one
    [letterMeta] entry for each letter. *)
Theorem buildTextMask_grids_agree (lines : list string)
    (options : HiddenMessage.TextMaskOptions) (r c : nat) :
  let m := HiddenMessage.buildTextMask lines options in
  cellsAgree (Z.of_nat (length (HiddenMessage.letters m)))
    (cellAt (HiddenMessage.mask m) r c) (cellAt (HiddenMessage.letterMap m) r c)
  /\ length (HiddenMessage.letterMeta m) = length (HiddenMessage.letters m).
Proof.
  intros m. subst m.
  destruct (buildTextMask_canvas lines options)
    as (cv & (Hc & Hmeta & _ & _ & Hg) & Em & El & Elet & Emeta).
  rewrite Em, El, Elet, Emeta, <- Hc. split; [apply (Hg r c) | exact Hmeta].
Qed.

Section LetterMeta.
Import HiddenMessage.

Lemma stampLine_meta rows cols psx psy lineIndex startRow w sp line cv colCursor pos :
  0 <= letterCounter cv ->
  let cv' := fst (fst (foldl (fun st ch =>
                 stampChar rows cols psx psy lineIndex startRow st ch w sp)
               (cv, colCursor, pos) line)) in
  0 <= letterCounter cv'
  /\ cLetterMeta cv' = cLetterMeta cv ++ lineMeta lineIndex pos line.
Proof.
  revert cv colCursor pos.
  induction line as [|ch line IH]; intros cv colCursor pos Hc.
  - cbn. rewrite app_nil_r. split; [exact Hc | reflexivity].
  - cbn [foldl lineMeta]. destruct (decide (ch = " "%char)) as [->|Hne].
    + rewrite stampChar_space. cbn [Ascii.eqb Bool.eqb app]. apply IH. exact Hc.
    + destruct (stampChar_letter rows cols psx psy lineIndex startRow w sp
                  cv colCursor pos ch Hc Hne) as (H1 & _ & H3 & _).
      assert (Epos : snd (stampChar rows cols psx psy lineIndex startRow
                            (cv, colCursor, pos) ch w sp) = S pos).
      { unfold stampChar. destruct (if _ =? -1 then _ else _). reflexivity. }
      destruct (stampChar rows cols psx psy lineIndex startRow (cv, colCursor, pos) ch w sp)
        as [[cv1 cc1] pos1].
      cbn [fst snd] in H1, H3, Epos. subst pos1.
      destruct (IH cv1 cc1 (S pos) ltac:(lia)) as (I0 & I1).
      cbv zeta. split; [exact I0|]. rewrite I1, H3, <- app_assoc.
      destruct (Ascii.eqb ch " "%char) eqn:E; [apply Ascii.eqb_eq in E; contradiction|].
      reflexivity.
Qed.

Lemma forEachFrom_meta (f : Canvas -> list ascii -> nat -> Canvas) :
  (forall cv line i, 0 <= letterCounter cv ->
      0 <= letterCounter (f cv line i)
      /\ cLetterMeta (f cv line i) = cLetterMeta cv ++ lineMeta i 0 line) ->
  forall l i cv, 0 <= letterCounter cv ->
    cLetterMeta (forEachFrom f i l cv)
    = cLetterMeta cv ++ concat (imap (fun j line => lineMeta (i + j) 0 line) l).
Proof.
  intros Hf. induction l as [|line l IH]; intros i cv Hc.
  - cbn. rewrite app_nil_r. reflexivity.
  - cbn [forEachFrom imap concat]. destruct (Hf cv line i Hc) as (I0 & I1).
    rewrite (IH (S i) (f cv line i) I0), I1, <- app_assoc, Nat.add_0_r.
    do 3 f_equal. apply imap_ext. intros j x _. cbn. f_equal. lia.
Qed.

End LetterMeta.

(** X18.  For lines of ASCII text, [letterMeta] lists, line by line, one
    entry for each character that is not a space: it records the line of
    the character and the position of the character in its line, spaces
    counted. *)
Theorem buildTextMask_letterMeta (lines : list string)
    (options : HiddenMessage.TextMaskOptions) :
  asciiText lines ->
  HiddenMessage.letterMeta (HiddenMessage.buildTextMask lines options)
  = concat (imap (fun lineIndex line => lineMeta lineIndex 0 (Js.toUpperCase line)) lines).
Proof.
  intros _.
  unfold HiddenMessage.buildTextMask, HiddenMessage.forEach. cbv zeta.
  cbn [HiddenMessage.letterMeta].
  match goal with |- context [HiddenMessage.forEachFrom ?ff 0%nat ?ll ?c0] =>
    rewrite (forEachFrom_meta ff); [| |cbn; lia]
  end.
  - cbn [HiddenMessage.cLetterMeta app]. rewrite imap_fmap. reflexivity.
  - intros cv line i Hc.
    match goal with |- context [foldl ?g (cv, ?cc, 0%nat) line] =>
      pose proof (stampLine_meta _ _ _ _ _ _ _ _ line cv cc 0%nat Hc
                  : let cv' := fst (fst (foldl g (cv, cc, 0%nat) line)) in _) as HL
    end.
    exact HL.
Qed.

Lemma buildTextMask_letterMeta_witness :
  asciiText ["a b"; "?"]%string
  /\ HiddenMessage.letterMeta (HiddenMessage.buildTextMask ["a b"; "?"]%string defaultMaskOptions)
     = [ {| HiddenMessage.metaLineIndex := 0; HiddenMessage.metaLetterIndex := 0;
            HiddenMessage.metaChar := "A" |};
         {| HiddenMessage.metaLineIndex := 0; HiddenMessage.metaLetterIndex := 2;
            HiddenMessage.metaChar := "B" |};
         {| HiddenMessage.metaLineIndex := 1; HiddenMessage.metaLetterIndex := 0;
            HiddenMessage.metaChar := "?" |} ].
Proof.
  assert (Ha : asciiText ["a b"; "?"]%string) by reflexivity.
  split; [exact Ha|].
  rewrite (buildTextMask_letterMeta ["a b"; "?"]%string defaultMaskOptions Ha).
  reflexivity.
Defined.

(** ** The scan of the mask *)

(** A loop over an array whose invariant moves with the index. *)
Lemma forEachFrom_indexed {A St : Type} (P : nat -> St -> Prop)
    (f : St -> A -> nat -> St) (l : list A) (i : nat) (s : St) :
  (forall s a j, l !! j = Some a -> P (i + j)%nat s -> P (S (i + j)) (f s a (i + j)%nat)) ->
  P i s -> P (i + length l)%nat (HiddenMessage.forEachFrom f i l s).
Proof.
  revert i s. induction l as [|a l IH]; intros i s Hf Hs.
  - cbn. rewrite Nat.add_0_r. exact Hs.
  - cbn [HiddenMessage.forEachFrom length].
    replace (i + S (length l))%nat with (S i + length l)%nat by lia.
    apply IH.
    + intros s' b j Hj Hp.
      replace (S i + j)%nat with (i + S j)%nat in * by lia.
      apply (Hf s' b (S j)); assumption.
    + specialize (Hf s a 0%nat eq_refl). rewrite Nat.add_0_r in Hf. apply Hf. exact Hs.
Qed.

Lemma StronglySorted_snoc {A : Type} (R : A -> A -> Prop) (l : list A) (a : A) :
  StronglySorted R l -> Forall (fun b => R b a) l -> StronglySorted R (l ++ [a]).
Proof.
  induction l as [|h t IH]; intros Hs Hall.
  - cbn. constructor; constructor.
  - cbn [app]. apply StronglySorted_inv in Hs. destruct Hs as [Hs Hh].
    apply Forall_cons in Hall. destruct Hall as [Hha Hta].
    constructor; [apply IH; assumption|].
    apply Forall_app. split; [exact Hh|]. constructor; [exact Hha | constructor].
Qed.

Section Scan.
Import HiddenMessage.

Variable maskResult : TextMaskResult.
Variables (offX offY cw chh jit density : Q).

Local Abbreviation copies :=
  (copiesLoop (letterMap maskResult) (letterMeta maskResult) offX offY cw chh jit).
Local Abbreviation cell :=
  (spawnCell (letterMap maskResult) (letterMeta maskResult) offX offY cw chh jit density).

Lemma scanOk_next_col row col st :
  scanOk maskResult row col st -> scanOk maskResult row (S col) st.
Proof.
  intros (H1 & H2 & H3). split; [exact H1|]. split; [|exact H3].
  eapply List.Forall_impl; [|exact H2]. intros p [Hp [Hb|[Hr Hc]]].
  - split; [exact Hp|]. left. exact Hb.
  - split; [exact Hp|]. right. split; [exact Hr | lia].
Qed.

Lemma scanOk_next_row row col st :
  scanOk maskResult row col st -> scanOk maskResult (S row) 0 st.
Proof.
  intros (H1 & H2 & H3). split; [exact H1|]. split; [|exact H3].
  eapply List.Forall_impl; [|exact H2]. intros p [Hp [Hb|[Hr Hc]]].
  - split; [exact Hp|]. left. lia.
  - split; [exact Hp|]. left. lia.
Qed.

Lemma copiesLoop_scan n row col st :
  cellAt (mask maskResult) row col = Some true ->
  scanOk maskResult row col st -> scanOk maskResult row col (copies n row col st).
Proof.
  intros Hon. revert st. induction n as [|n IH]; intros st Hst; [exact Hst|].
  cbn [copiesLoop].
  destruct (Random.next (fst st)) as [r1 a1].
  destruct (Random.next a1) as [r2 a2].
  fold (cellAt (letterMap maskResult) row col).
  destruct (default (-1) (cellAt (letterMap maskResult) row col) =? -1) eqn:E.
  { destruct st as [a pts]. exact Hst. }
  apply Z.eqb_neq in E. apply IH.
  destruct Hst as (H1 & H2 & H3). unfold scanOk. cbn [snd].
  assert (Hli : cellAt (letterMap maskResult) row col
                = Some (default (-1) (cellAt (letterMap maskResult) row col))).
  { destruct (cellAt (letterMap maskResult) row col) as [li|]; [reflexivity|].
    exfalso. apply E. reflexivity. }
  split; [|split].
  - apply StronglySorted_snoc; [exact H1|].
    eapply List.Forall_impl; [|exact H2]. intros p [_ Hp]. exact Hp.
  - apply Forall_app. split; [exact H2|].
    constructor; [|constructor]. split.
    + unfold onLetter.
      cbn [HiddenMessage.row HiddenMessage.col letterIndex lineIndex letterChar].
      split; [exact Hon|]. split; [exact Hli|]. split; [exact E|].
      split; reflexivity.
    + right. cbn [HiddenMessage.row HiddenMessage.col]. split; [reflexivity | lia].
  - rewrite map_app, length_app, H3. cbn [map length pixelIndex].
    rewrite Nat.add_1_r, seq_S. reflexivity.
Qed.

Lemma spawnCell_scan st isOn row col :
  cellAt (mask maskResult) row col = Some isOn ->
  scanOk maskResult row col st -> scanOk maskResult row col (cell st isOn row col).
Proof.
  intros Hon Hst. unfold spawnCell. destruct isOn; cbn [negb]; [|exact Hst].
  destruct (extraCopy density (fst st)) as [extra a1].
  destruct (_ <=? 0).
  - destruct st as [a pts]. exact Hst.
  - apply copiesLoop_scan; [exact Hon|]. destruct st as [a pts]. exact Hst.
Qed.

Lemma scanRow_scan st rowVals row :
  mask maskResult !! row = Some rowVals ->
  scanOk maskResult row 0 st ->
  scanOk maskResult (S row) 0 (forEach (fun st isOn col => cell st isOn row col) rowVals st).
Proof.
  intros Hrow Hst. unfold forEach.
  apply (scanOk_next_row row (0 + length rowVals)).
  apply (forEachFrom_indexed (fun c st => scanOk maskResult row c st)); [|exact Hst].
  intros s isOn j Hj Hs. apply scanOk_next_col. apply spawnCell_scan; [|exact Hs].
  unfold cellAt. rewrite Hrow. cbn [mbind option_bind]. exact Hj.
Qed.

Lemma scan_scan (a : Z) :
  scanOk maskResult (length (mask maskResult)) 0
    (forEach (fun st rowVals row =>
                forEach (fun st isOn col => cell st isOn row col) rowVals st)
       (mask maskResult) (a, [])).
Proof.
  unfold forEach at 1.
  apply (forEachFrom_indexed (fun r st => scanOk maskResult r 0 st)
           (fun st rowVals row =>
              forEach (fun st isOn col => cell st isOn row col) rowVals st)
           (mask maskResult) 0 (a, [])).
  - intros s rowVals j Hj Hs. apply scanRow_scan; assumption.
  - split; [constructor|]. split; [constructor | reflexivity].
Qed.

End Scan.

(** The scan leaves its points in order, whatever the bounds. *)
Lemma spawnScan_ok (maskResult : HiddenMessage.TextMaskResult)
    (bounds : HiddenMessage.MaskBounds) (density : Q) :
  scanOk maskResult (length (HiddenMessage.mask maskResult)) 0
    (HiddenMessage.spawnScan maskResult bounds density).
Proof. unfold HiddenMessage.spawnScan. cbv zeta. apply scan_scan. Qed.

(** X19.  The spawn points come in reading order, rows from the top and
    each row from the left, the copies of a cell together; each sits on an
    on cell of the mask and carries the letter index that the letter map
    gives for the cell, with the line and the character of that letter;
    [pixelIndex] numbers the points in output order. *)
Theorem generateFlowerPositionsFromMask_reading_order
    (maskResult : HiddenMessage.TextMaskResult) (bounds : HiddenMessage.MaskBounds)
    (density : Q) :
  let points := HiddenMessage.generateFlowerPositionsFromMask maskResult bounds density in
  StronglySorted readingOrder points
  /\ Forall (onLetter maskResult) points
  /\ map HiddenMessage.pixelIndex points = seq 0 (length points).
Proof.
  intros points. subst points. unfold HiddenMessage.generateFlowerPositionsFromMask.
  cbv zeta. destruct (_ || _).
  { split; [constructor|]. split; [constructor | reflexivity]. }
  destruct (spawnScan_ok maskResult bounds density) as (H1 & H2 & H3).
  split; [exact H1|]. split; [|exact H3].
  eapply List.Forall_impl; [|exact H2]. intros p [Hp _]. exact Hp.
Qed.

(** ** How many points a mask gives *)

Section Copies.
Import HiddenMessage.

Lemma extraCopy_range (density : Q) (a : Z) :
  0 <= fst (extraCopy density a) <= 1
  /\ (~ hasFraction density -> fst (extraCopy density a) = 0)
  /\ (fst (extraCopy density a) = 1 -> hasFraction density).
Proof.
  unfold extraCopy. destruct (Js.Qltb 0 (fractional density)) eqn:E.
  - apply fractional_positive in E.
    destruct (Random.next a) as [r a1]. cbn [fst].
    destruct (Js.Qltb r (fractional density)).
    + split; [lia|]. split; [contradiction | intros _; exact E].
    + split; [lia|]. split; [reflexivity | discriminate].
  - cbn [fst]. split; [lia|]. split; [reflexivity | discriminate].
Qed.

(** A density that is not positive gives no copy. *)
Lemma totalCopies_nonpositive (density : Q) (a : Z) :
  (density <= 0)%Q -> baseCopies density + fst (extraCopy density a) <= 0.
Proof.
  intros Hd. destruct (extraCopy_range density a) as (Hr & _ & Hfrac). unfold baseCopies.
  pose proof (Qfloor_resp_le _ _ Hd) as Hfl. change (Qfloor 0) with 0 in Hfl.
  destruct (Z.eq_dec (fst (extraCopy density a)) 1) as [E|E]; [|lia].
  specialize (Hfrac E). unfold hasFraction in Hfrac.
  assert (Qfloor density < 0); [|lia].
  rewrite Zlt_Qlt. change (inject_Z 0) with 0%Q. lra.
Qed.

Variables (letterMapV : list (list Z)) (letterMetaV : list LetterMeta).
Variables (offX offY cw chh jit density : Q).

Local Abbreviation cell := (spawnCell letterMapV letterMetaV offX offY cw chh jit density).

Lemma spawnCell_nonpositive st isOn row col :
  (density <= 0)%Q -> snd (cell st isOn row col) = snd st.
Proof.
  intros Hd. unfold spawnCell. destruct (negb isOn); [reflexivity|].
  pose proof (totalCopies_nonpositive density (fst st) Hd) as Ht.
  destruct (extraCopy density (fst st)) as [extra a1]. cbn [fst] in Ht.
  rewrite (proj2 (Z.leb_le _ _) Ht). reflexivity.
Qed.

(** An on cell with a letter behind it gives [floor density] copies, and
    one more when the draw for the fractional part says so. *)
Lemma spawnCell_count st row col li :
  (0 <= density)%Q ->
  cellAt letterMapV row col = Some li -> li <> -1 ->
  exists extra : nat,
    (extra <= 1)%nat /\ (~ hasFraction density -> extra = 0%nat)
    /\ length (snd (cell st true row col))
       = (length (snd st) + Z.to_nat (Qfloor density) + extra)%nat.
Proof.
  intros Hd Hli Hne. unfold spawnCell. cbn [negb].
  destruct (extraCopy_range density (fst st)) as (Hr & Hwhole & _).
  pose proof (Qfloor_resp_le _ _ Hd) as Hfl. change (Qfloor 0) with 0 in Hfl.
  destruct (extraCopy density (fst st)) as [extra a1]. cbn [fst] in Hr, Hwhole.
  exists (Z.to_nat extra). split; [lia|]. split; [intros H; rewrite (Hwhole H); reflexivity|].
  unfold baseCopies.
  destruct (Qfloor density + extra <=? 0) eqn:E.
  - apply Z.leb_le in E. cbn [snd]. lia.
  - destruct (copiesLoop_draws letterMapV letterMetaV offX offY cw chh jit
                (Z.to_nat (Qfloor density + extra)) row col (a1, snd st) li Hli Hne)
      as [_ H].
    rewrite H. cbn [snd]. apply Z.leb_gt in E. lia.
Qed.

Hypothesis density_nonneg : (0 <= density)%Q.

(** One row of the mask, from column [j] on. *)
Lemma scanRow_count (rowVals : list bool) (row j : nat) st :
  (forall k, rowVals !! k = Some true ->
     exists li, cellAt letterMapV row (j + k) = Some li /\ li <> -1) ->
  exists extra : nat,
    (extra <= length (List.filter (fun b : bool => b) rowVals))%nat
    /\ (~ hasFraction density -> extra = 0%nat)
    /\ length (snd (forEachFrom (fun st isOn col => cell st isOn row col) j rowVals st))
       = (length (snd st)
          + Z.to_nat (Qfloor density) * length (List.filter (fun b : bool => b) rowVals)
          + extra)%nat.
Proof.
  revert j st. induction rowVals as [|isOn rest IH]; intros j st Hcells.
  - exists 0%nat. cbn. split; [lia|]. split; [reflexivity | lia].
  - cbn [forEachFrom List.filter].
    destruct (IH (S j) (cell st isOn row j)) as (e2 & He2 & Hw2 & Hlen).
    { intros k Hk. replace (S j + k)%nat with (j + S k)%nat by lia. apply Hcells. exact Hk. }
    rewrite Hlen. destruct isOn.
    + destruct (Hcells 0%nat eq_refl) as (li & Hli & Hne). rewrite Nat.add_0_r in Hli.
      destruct (spawnCell_count st row j li density_nonneg Hli Hne) as (e1 & He1 & Hw1 & Hc).
      rewrite Hc. exists (e1 + e2)%nat. cbn [length].
      split; [lia|]. split; [intros H; rewrite (Hw1 H), (Hw2 H); reflexivity | lia].
    + exists e2. unfold spawnCell. cbn [negb].
      split; [exact He2|]. split; [exact Hw2 | lia].
Qed.

(** The rows of the mask from row [i] on. *)
Lemma scan_count (rowsLeft : list (list bool)) (i : nat) st :
  (forall k rowVals c, rowsLeft !! k = Some rowVals -> rowVals !! c = Some true ->
     exists li, cellAt letterMapV (i + k) c = Some li /\ li <> -1) ->
  exists extra : nat,
    (extra <= onCells rowsLeft)%nat
    /\ (~ hasFraction density -> extra = 0%nat)
    /\ length (snd (forEachFrom
                      (fun st rowVals row =>
                         forEach (fun st isOn col => cell st isOn row col) rowVals st)
                      i rowsLeft st))
       = (length (snd st) + Z.to_nat (Qfloor density) * onCells rowsLeft + extra)%nat.
Proof.
  revert i st. induction rowsLeft as [|rowVals rest IH]; intros i st Hcells.
  - exists 0%nat. cbn. split; [lia|]. split; [reflexivity | lia].
  - cbn [forEachFrom]. unfold onCells in *. cbn [concat].
    rewrite List.filter_app, length_app.
    destruct (IH (S i) (forEach (fun st isOn col => cell st isOn i col) rowVals st))
      as (e2 & He2 & Hw2 & Hlen).
    { intros k rv c Hk Hc. replace (S i + k)%nat with (i + S k)%nat by lia.
      apply (Hcells (S k) rv c); assumption. }
    rewrite Hlen. unfold forEach.
    destruct (scanRow_count rowVals i 0 st) as (e1 & He1 & Hw1 & Hrow).
    { intros k Hk. specialize (Hcells 0%nat rowVals k eq_refl Hk).
      rewrite Nat.add_0_r in Hcells. exact Hcells. }
    rewrite Hrow. exists (e1 + e2)%nat.
    split; [lia|]. split; [intros H; rewrite (Hw1 H), (Hw2 H); reflexivity | lia].
Qed.

End Copies.

Lemma onCells_empty_rows (m : list (list bool)) :
  (forall r, r ∈ m -> length r = 0%nat) -> onCells m = 0%nat.
Proof.
  intros H. unfold onCells. replace (concat m) with (@nil bool); [reflexivity|].
  induction m as [|r m IH]; [reflexivity|]. cbn [concat].
  rewrite <- IH by (intros r' Hr'; apply H; right; exact Hr').
  assert (E : r = []) by (apply nil_length_inv, H; left).
  rewrite E. reflexivity.
Qed.

(** X20.  A density that is not positive gives no spawn point, whatever
    the mask. *)
Theorem generateFlowerPositionsFromMask_no_density
    (maskResult : HiddenMessage.TextMaskResult) (bounds : HiddenMessage.MaskBounds)
    (density : Q) :
  (density <= 0)%Q ->
  HiddenMessage.generateFlowerPositionsFromMask maskResult bounds density = [].
Proof.
  intros Hd. unfold HiddenMessage.generateFlowerPositionsFromMask. cbv zeta.
  destruct (_ || _); [reflexivity|].
  unfold HiddenMessage.spawnScan, HiddenMessage.forEach. cbv zeta.
  apply (forEachFrom_invariant (fun st => snd st = []) (fun _ _ => True)).
  - intros st rowVals j Hst _.
    apply (forEachFrom_invariant (fun st => snd st = []) (fun _ _ => True)).
    + intros st1 isOn c Hst1 _. rewrite spawnCell_nonpositive by exact Hd. exact Hst1.
    + trivial.
    + exact Hst.
  - trivial.
  - reflexivity.
Qed.

Lemma generateFlowerPositionsFromMask_no_density_witness :
  HiddenMessage.generateFlowerPositionsFromMask
    (HiddenMessage.buildTextMask ["L"%string] defaultMaskOptions)
    {| HiddenMessage.width := 60; HiddenMessage.height := 40;
       HiddenMessage.offsetX := None; HiddenMessage.offsetY := None;
       HiddenMessage.seed := Some 7; HiddenMessage.jitter := None |} (- (1 # 2))
  = [].
Proof.
  apply (generateFlowerPositionsFromMask_no_density
           (HiddenMessage.buildTextMask ["L"%string] defaultMaskOptions)).
  unfold Qle. cbn. lia.
Defined.

(** X21.  On the mask of a text every on cell gives [floor density] spawn
    points, and at most one more: at a whole density the number of points
    is the density times the number of on cells, and otherwise it lies
    between [floor density] and [floor density + 1] points for each on
    cell. *)
Theorem generateFlowerPositionsFromMask_count (lines : list string)
    (options : HiddenMessage.TextMaskOptions) (bounds : HiddenMessage.MaskBounds)
    (density : Q) :
  (0 <= density)%Q ->
  let m := HiddenMessage.buildTextMask lines options in
  let n := length (HiddenMessage.generateFlowerPositionsFromMask m bounds density) in
  let base := Z.to_nat (Qfloor density) in
  (base * onCells (HiddenMessage.mask m) <= n)%nat
  /\ (n <= (base + 1) * onCells (HiddenMessage.mask m))%nat
  /\ (~ hasFraction density -> n = (base * onCells (HiddenMessage.mask m))%nat).
Proof.
  intros Hd m n base. subst n base.
  unfold HiddenMessage.generateFlowerPositionsFromMask. cbv zeta.
  destruct ((length (HiddenMessage.mask m) =? 0)%nat
            || (HiddenMessage.maskCols (HiddenMessage.mask m) =? 0)%nat) eqn:E.
  - assert (H0 : onCells (HiddenMessage.mask m) = 0%nat).
    { apply onCells_empty_rows. intros r Hr.
      apply orb_true_iff in E. destruct E as [E|E]; apply Nat.eqb_eq in E.
      - destruct (HiddenMessage.mask m); [inversion Hr | discriminate].
      - subst m. rewrite (buildTextMask_rectangular lines options r Hr). exact E. }
    rewrite H0. cbn [length]. split; [lia|]. split; [lia|]. intros _. lia.
  - unfold HiddenMessage.spawnScan. cbv zeta.
    match goal with |- context [HiddenMessage.forEach ?f ?l (?a, [])] =>
      change (HiddenMessage.forEach f l (a, []))
        with (HiddenMessage.forEachFrom f 0%nat l (a, []));
      destruct (scan_count (HiddenMessage.letterMap m) (HiddenMessage.letterMeta m)
                  (HiddenMessage.resolvedOffsetX bounds) (HiddenMessage.resolvedOffsetY bounds)
                  (HiddenMessage.width bounds
                   / inject_Z (Z.of_nat (HiddenMessage.maskCols (HiddenMessage.mask m))))
                  (HiddenMessage.height bounds
                   / inject_Z (Z.of_nat (length (HiddenMessage.mask m))))
                  (default (3 # 20)%Q (HiddenMessage.jitter bounds)) density Hd
                  (HiddenMessage.mask m) 0 (a, []))
        as (extra & He & Hw & Hlen)
    end.
    + intros k rowVals c Hk Hc. rewrite Nat.add_0_l.
      destruct (buildTextMask_canvas lines options)
        as (cv & (_ & _ & _ & _ & Hg) & Em & El & _ & _).
      specialize (Hg k c). cbn [fst snd] in Hg. fold m in Em, El.
      rewrite <- Em, <- El in Hg. unfold cellAt at 1 in Hg. rewrite Hk in Hg.
      cbn [mbind option_bind] in Hg. rewrite Hc in Hg.
      destruct Hg as (li & Hli & Hr). exists li. split; [exact Hli | lia].
    + rewrite Hlen. cbn [snd length]. split; [lia|]. split; [lia|].
      intros H. rewrite (Hw H). lia.
Qed.

Lemma generateFlowerPositionsFromMask_count_witness :
  let m := HiddenMessage.buildTextMask ["L"%string] defaultMaskOptions in
  let n := length (HiddenMessage.generateFlowerPositionsFromMask m
                     {| HiddenMessage.width := 60; HiddenMessage.height := 40;
                        HiddenMessage.offsetX := None; HiddenMessage.offsetY := None;
                        HiddenMessage.seed := Some 7; HiddenMessage.jitter := None |}
                     (5 # 2)) in
  (2 * onCells (HiddenMessage.mask m) <= n)%nat
  /\ (n <= 3 * onCells (HiddenMessage.mask m))%nat.
Proof.
  intros m n.
  destruct (generateFlowerPositionsFromMask_count ["L"%string] defaultMaskOptions
              {| HiddenMessage.width := 60; HiddenMessage.height := 40;
                 HiddenMessage.offsetX := None; HiddenMessage.offsetY := None;
                 HiddenMessage.seed := Some 7; HiddenMessage.jitter := None |}
              (5 # 2) ltac:(unfold Qle; cbn; lia)) as (H1 & H2 & _).
  split; [exact H1 | exact H2].
Defined.

(** ** Every point gets a species *)

Section Picks.
Import HiddenMessage.

Variables (maskResult : TextMaskResult) (lineSpecies : list (list string)).
Variable fallbackPool : list string.
Hypothesis fallback_nonempty : fallbackPool <> [].

Local Abbreviation active := (activePoolOf maskResult lineSpecies fallbackPool).

Lemma activePoolOf_nonempty li : active li <> [].
Proof.
  unfold activePoolOf. cbv zeta.
  destruct (filter _ (filter _ _)) as [|h t]; [exact fallback_nonempty | discriminate].
Qed.

Lemma perLetterPoolOf_pick (pool : list string) (start counter : nat) :
  pool <> [] ->
  exists s,
    perLetterPoolOf pool start !! (counter mod length (perLetterPoolOf pool start))%nat
    = Some (Some s)
    /\ s ∈ pool.
Proof.
  intros Hne.
  assert (Hlen : (0 < length pool)%nat) by (destruct pool; [contradiction | cbn; lia]).
  unfold perLetterPoolOf.
  destruct (SPECIES_PER_LETTER <=? length pool)%nat eqn:E.
  - rewrite length_map, length_seq.
    assert (Hk : (counter mod SPECIES_PER_LETTER < SPECIES_PER_LETTER)%nat)
      by (apply Nat.mod_upper_bound; discriminate).
    destruct (lookup_lt_is_Some_2 pool
                ((start + counter mod SPECIES_PER_LETTER) mod length pool)) as [s Hs].
    { apply Nat.mod_upper_bound. lia. }
    exists s. split; [|eapply list_elem_of_lookup_2; exact Hs].
    rewrite map_lookup, lookup_seq_lt by exact Hk.
    cbn [fmap option_fmap option_map Nat.add]. rewrite Hs. reflexivity.
  - rewrite length_map.
    destruct (lookup_lt_is_Some_2 pool (counter mod length pool)) as [s Hs].
    { apply Nat.mod_upper_bound. lia. }
    exists s. split; [|eapply list_elem_of_lookup_2; exact Hs].
    rewrite map_lookup, Hs. reflexivity.
Qed.

Lemma pickSpecies_some (pool : list string) (start counter idx : nat) :
  pool <> [] ->
  exists s, pickSpecies fallbackPool pool start counter idx = Some s /\ s ∈ pool.
Proof.
  intros Hne. destruct (perLetterPoolOf_pick pool start counter Hne) as (s & Hs & Hin).
  exists s. split; [|exact Hin].
  unfold pickSpecies. cbv zeta. rewrite Hs. reflexivity.
Qed.

Lemma assignPoint_some st p idx :
  exists s,
    snd (assignPoint maskResult lineSpecies fallbackPool st p idx) = withSpecies p (Some s)
    /\ s ∈ active (letterIndex p).
Proof.
  unfold assignPoint. destruct st as [lc ls].
  destruct (ls !! letterIndex p) as [s0|]; cbn [snd].
  - destruct (pickSpecies_some (active (letterIndex p)) s0
                (default 0%nat (lc !! letterIndex p)) idx (activePoolOf_nonempty _))
      as (s & Hs & Hin).
    exists s. rewrite Hs. split; [reflexivity | exact Hin].
  - destruct (pickSpecies_some (active (letterIndex p))
                (firstStartIndex maskResult lineSpecies fallbackPool p idx)
                (default 0%nat (lc !! letterIndex p)) idx (activePoolOf_nonempty _))
      as (s & Hs & Hin).
    exists s. rewrite Hs. split; [reflexivity | exact Hin].
Qed.

Lemma assignFrom_some idx points st :
  Forall2 (fun p q => exists s, q = withSpecies p (Some s) /\ s ∈ active (letterIndex p))
          points (assignFrom maskResult lineSpecies fallbackPool idx points st).
Proof.
  revert idx st. induction points as [|p r IH]; intros idx st; [constructor|].
  cbn [assignFrom]. pose proof (assignPoint_some st p idx) as Hp.
  destruct (assignPoint maskResult lineSpecies fallbackPool st p idx) as [st' p'].
  cbn [snd] in Hp. constructor; [exact Hp | apply IH].
Qed.

(** The pool of a letter whose line has a palette with a usable species
    is drawn from that palette. *)
Lemma activePoolOf_palette li meta palette s :
  Js.at_Z (letterMeta maskResult) li = Some meta ->
  lineSpecies !! metaLineIndex meta = Some palette ->
  (exists s0, s0 ∈ palette /\ s0 <> "sunflower"%string /\ s0 ∈ fallbackPool) ->
  s ∈ active li -> s ∈ palette /\ s <> "sunflower"%string.
Proof.
  intros Hmeta Hpal (s0 & H0 & H0' & H0''). unfold activePoolOf. cbv zeta.
  rewrite Hmeta, Hpal. cbn [default from_option].
  destruct (filter (fun s => s ∈ fallbackPool)
              (filter (fun s => s <> "sunflower"%string) (Datatypes.id palette)))
    as [|h t] eqn:E.
  - exfalso.
    assert (Hin : s0 ∈ filter (fun s => s ∈ fallbackPool)
                         (filter (fun s => s <> "sunflower"%string) (Datatypes.id palette))).
    { apply list_elem_of_filter. split; [exact H0''|].
      apply list_elem_of_filter. split; [exact H0' | exact H0]. }
    rewrite E in Hin. inversion Hin.
  - rewrite <- E. intros Hin. apply list_elem_of_filter in Hin. destruct Hin as [_ Hin].
    apply list_elem_of_filter in Hin. destruct Hin as [Hne Hin]. split; assumption.
Qed.

End Picks.

Lemma assignSpeciesToPoints_some (points : list HiddenMessage.SpawnPoint)
    (maskResult : HiddenMessage.TextMaskResult) (enabledSpecies : list string)
    (lineSpecies : list (list string)) :
  Forall2 (fun p q =>
             exists s,
               q = HiddenMessage.withSpecies p (Some s)
               /\ s ∈ HiddenMessage.activePoolOf maskResult lineSpecies
                        (HiddenMessage.fallbackPoolOf enabledSpecies)
                        (HiddenMessage.letterIndex p))
          points
          (HiddenMessage.assignSpeciesToPoints points maskResult enabledSpecies lineSpecies).
Proof.
  unfold HiddenMessage.assignSpeciesToPoints. cbv zeta.
  pose proof (fallbackPoolOf_nonempty enabledSpecies) as Hne.
  destruct (HiddenMessage.fallbackPoolOf enabledSpecies) as [|h t] eqn:E; [contradiction|].
  apply (assignFrom_some maskResult lineSpecies (h :: t) Hne).
Qed.

(** X22.  [assignSpeciesToPoints] returns the points in their order, each
    with a species and otherwise as it was: no point is left without a
    species, and the species is one of the pool of the point's letter and
    so one of the fallback pool. *)
Theorem assignSpeciesToPoints_total (points : list HiddenMessage.SpawnPoint)
    (maskResult : HiddenMessage.TextMaskResult) (enabledSpecies : list string)
    (lineSpecies : list (list string)) :
  Forall2 (fun p q =>
             exists s,
               q = HiddenMessage.withSpecies p (Some s)
               /\ s ∈ HiddenMessage.activePoolOf maskResult lineSpecies
                        (HiddenMessage.fallbackPoolOf enabledSpecies)
                        (HiddenMessage.letterIndex p)
               /\ s ∈ HiddenMessage.fallbackPoolOf enabledSpecies)
          points
          (HiddenMessage.assignSpeciesToPoints points maskResult enabledSpecies lineSpecies).
Proof.
  eapply Forall2_impl; [apply assignSpeciesToPoints_some|].
  intros p q (s & Hq & Hin). exists s. split; [exact Hq|]. split; [exact Hin|].
  eapply activePoolOf_subset. exact Hin.
Qed.

(** X23.  A letter whose line has a palette takes its species from that
    palette, sunflower left out, as soon as the palette names one species
    other than sunflower that is enabled. *)
Theorem assignSpeciesToPoints_line_palette (points : list HiddenMessage.SpawnPoint)
    (maskResult : HiddenMessage.TextMaskResult) (enabledSpecies : list string)
    (lineSpecies : list (list string)) (li : Z) (meta : HiddenMessage.LetterMeta)
    (palette : list string) :
  Js.at_Z (HiddenMessage.letterMeta maskResult) li = Some meta ->
  lineSpecies !! HiddenMessage.metaLineIndex meta = Some palette ->
  (exists s0, s0 ∈ palette /\ s0 <> "sunflower"%string
              /\ s0 ∈ HiddenMessage.fallbackPoolOf enabledSpecies) ->
  Forall (fun q =>
            HiddenMessage.letterIndex q = li ->
            exists s, HiddenMessage.species q = Some s
                      /\ s ∈ palette /\ s <> "sunflower"%string)
         (HiddenMessage.assignSpeciesToPoints points maskResult enabledSpecies lineSpecies).
Proof.
  intros Hmeta Hpal Hex.
  pose proof (assignSpeciesToPoints_some points maskResult enabledSpecies lineSpecies) as H2.
  apply Forall_lookup. intros k q Hq Hli.
  destruct (Forall2_lookup_r _ _ _ _ _ H2 Hq) as (p & _ & s & -> & Hin).
  cbn [HiddenMessage.withSpecies HiddenMessage.letterIndex HiddenMessage.species] in Hli |- *.
  exists s. split; [reflexivity|]. subst li.
  eapply activePoolOf_palette; eassumption.
Qed.

Lemma assignSpeciesToPoints_line_palette_witness :
  let maskResult := HiddenMessage.buildTextMask ["L"%string] defaultMaskOptions in
  let points :=
    HiddenMessage.generateFlowerPositionsFromMask maskResult
      {| HiddenMessage.width := 60; HiddenMessage.height := 40;
         HiddenMessage.offsetX := None; HiddenMessage.offsetY := None;
         HiddenMessage.seed := Some 7; HiddenMessage.jitter := None |} 1 in
  Forall (fun q =>
            HiddenMessage.letterIndex q = 0 ->
            exists s, HiddenMessage.species q = Some s
                      /\ s ∈ ["peony"; "lily"; "rose"]%string /\ s <> "sunflower"%string)
         (HiddenMessage.assignSpeciesToPoints points maskResult
            ["rose"; "peony"; "lily"; "sunflower"]%string plainPalette).
Proof.
  intros maskResult points.
  apply (assignSpeciesToPoints_line_palette points maskResult
           ["rose"; "peony"; "lily"; "sunflower"]%string plainPalette 0
           {| HiddenMessage.metaLineIndex := 0; HiddenMessage.metaLetterIndex := 0;
              HiddenMessage.metaChar := "L"%char |}
           ["peony"; "lily"; "rose"]%string).
  - reflexivity.
  - reflexivity.
  - exists "peony"%string. split; [left|]. split; [discriminate|].
    vm_compute. right. left.
Defined.

(** ** The earlier revision of the garden *)

Section GardenV1Loop.
Import GardenV1.

Variable FLOWER_SVGS : list string.
Variable indices : list nat.

Lemma plantCell_facts a i :
  id (fst (plantCell FLOWER_SVGS indices a i)) = i
  /\ inCellV1 (default 0%nat (indices !! i)) (fst (plantCell FLOWER_SVGS indices a i)).
Proof.
  unfold plantCell.
  pose proof (next_range a) as [H1 H1'].
  destruct (Random.next a) as [r1 a1].
  pose proof (next_range a1) as [H2 H2'].
  destruct (Random.next a1) as [r2 a2].
  destruct (Random.next a2) as [r3 a3].
  destruct (Random.next a3) as [r4 a4].
  destruct (Random.next a4) as [r5 a5].
  cbn [fst id] in *. split; [reflexivity|].
  unfold inCellV1. cbn [x y].
  assert (Hw : (0 < cellW)%Q) by reflexivity.
  assert (Hh : (0 < cellH)%Q) by reflexivity.
  pose proof (scaled_draw_range r1
    (inject_Z (Z.of_nat (default 0%nat (indices !! i) mod COLS))) cellW H1 H1' Hw) as [Hx Hx'].
  pose proof (scaled_draw_range r2
    (inject_Z (Z.of_nat (default 0%nat (indices !! i) / COLS))) cellH H2 H2' Hh) as [Hy Hy'].
  auto.
Qed.

Lemma flowerLoop_facts days a :
  map id (flowerLoop FLOWER_SVGS indices days a) = days
  /\ Forall (fun f => inCellV1 (default 0%nat (indices !! id f)) f)
            (flowerLoop FLOWER_SVGS indices days a).
Proof.
  revert a. induction days as [|i r IH]; intros a; [split; [reflexivity | constructor]|].
  cbn [flowerLoop]. destruct (plantCell_facts a i) as [Hid Hcell].
  destruct (plantCell FLOWER_SVGS indices a i) as [f a']. cbn [fst] in Hid, Hcell.
  destruct (IH a') as [I1 I2]. cbn [map]. split.
  - rewrite Hid, I1. reflexivity.
  - constructor; [rewrite Hid; exact Hcell | exact I2].
Qed.

End GardenV1Loop.

Lemma shuffledV1_perm : Permutation (snd GardenV1.shuffled) (seq 0 GardenV1.totalCells).
Proof. unfold GardenV1.shuffled. apply shuffleFrom_perm. Qed.

Lemma lookups_take {A : Type} (d : A) (l : list A) (n : nat) :
  (n <= length l)%nat -> map (fun i => default d (l !! i)) (seq 0 n) = take n l.
Proof.
  intros Hn. apply list_eq. intros k. rewrite map_lookup.
  destruct (decide (k < n)%nat) as [Hk|Hk].
  - rewrite lookup_seq_lt, lookup_take_lt by exact Hk. cbn.
    destruct (lookup_lt_is_Some_2 l k ltac:(lia)) as [a Ha]. rewrite Ha. reflexivity.
  - rewrite lookup_seq_ge, lookup_take_ge by lia. reflexivity.
Qed.

(** X24.  The earlier [generateGarden] never draws more flowers than the
    grid has cells: it returns [count] flowers, at most 1968, with the ids
    0, 1, ... in order; flower [i] lies in the cell that the shuffle put
    at place [i], and the shuffle lists every cell once, so the cells of
    the flowers are pairwise distinct. *)
Theorem generateGardenV1_capped (FLOWER_SVGS : list string) (count : Z) :
  let flowers := GardenV1.generateGarden FLOWER_SVGS count in
  let cellOf := fun f => default 0%nat (snd GardenV1.shuffled !! GardenV1.id f) in
  length flowers = Z.to_nat (Z.min count 1968)
  /\ map GardenV1.id flowers = seq 0 (length flowers)
  /\ Forall (fun f => inCellV1 (cellOf f) f) flowers
  /\ map cellOf flowers = take (length flowers) (snd GardenV1.shuffled)
  /\ NoDup (map cellOf flowers).
Proof.
  intros flowers cellOf. subst flowers cellOf. unfold GardenV1.generateGarden.
  destruct (flowerLoop_facts FLOWER_SVGS (snd GardenV1.shuffled)
              (seq 0 (Z.to_nat (Z.min count (Z.of_nat GardenV1.totalCells))))
              (fst GardenV1.shuffled)) as [Hids Hcells].
  set (flowers := GardenV1.flowerLoop FLOWER_SVGS (snd GardenV1.shuffled)
                    (seq 0 (Z.to_nat (Z.min count (Z.of_nat GardenV1.totalCells))))
                    (fst GardenV1.shuffled)) in *.
  assert (Hlen : length flowers = Z.to_nat (Z.min count (Z.of_nat GardenV1.totalCells))).
  { rewrite <- (length_map GardenV1.id), Hids. apply length_seq. }
  assert (Hsh : length (snd GardenV1.shuffled) = GardenV1.totalCells).
  { rewrite (Permutation_length shuffledV1_perm). apply length_seq. }
  assert (Hnd : NoDup (snd GardenV1.shuffled)).
  { rewrite shuffledV1_perm. apply NoDup_seq. }
  assert (Htake : map (fun f => default 0%nat (snd GardenV1.shuffled !! GardenV1.id f)) flowers
                  = take (length flowers) (snd GardenV1.shuffled)).
  { rewrite <- (map_map GardenV1.id (fun i => default 0%nat (snd GardenV1.shuffled !! i))).
    rewrite Hids, <- Hlen. apply lookups_take. rewrite Hsh, Hlen. lia. }
  split; [exact Hlen|]. split; [rewrite Hlen; exact Hids|]. split; [exact Hcells|].
  split; [exact Htake|].
  rewrite Htake. eapply sublist_NoDup; [exact Hnd | apply sublist_take].
Qed.

(** ** The earlier revision of the species *)

Lemma Forall2_imap {A B : Type} (R : A -> B -> Prop) (f : nat -> A -> B) (l : list A) :
  (forall i a, l !! i = Some a -> R a (f i a)) -> Forall2 R l (imap f l).
Proof.
  revert f. induction l as [|a l IH]; intros f H; [constructor|].
  cbn [imap]. constructor; [apply (H 0%nat a); reflexivity|].
  apply IH. intros i b Hb. apply (H (S i) b). exact Hb.
Qed.

Section SpeciesV1.
Import HiddenMessage.

Variables (maskResult : TextMaskResult) (lineSpecies : list (list string)).
Variable fallbackPool : list string.
Hypothesis fallback_nonempty : fallbackPool <> [].

Lemma poolOf_subset meta s :
  s ∈ HiddenMessageV1.poolOf lineSpecies fallbackPool meta -> s ∈ fallbackPool.
Proof.
  unfold HiddenMessageV1.poolOf. cbv zeta.
  destruct (filter _ _) as [|h t] eqn:E; [tauto|].
  rewrite <- E. intros Hin. apply list_elem_of_filter in Hin. tauto.
Qed.

Lemma poolOf_nonempty meta : HiddenMessageV1.poolOf lineSpecies fallbackPool meta <> [].
Proof.
  unfold HiddenMessageV1.poolOf. cbv zeta.
  destruct (filter _ _) as [|h t]; [exact fallback_nonempty | discriminate].
Qed.

Lemma letterSpeciesOf_some :
  exists letterSpecies : list string,
    HiddenMessageV1.letterSpeciesOf maskResult lineSpecies fallbackPool
    = map Some letterSpecies
    /\ length letterSpecies = length (letterMeta maskResult)
    /\ Forall (fun s => s ∈ fallbackPool) letterSpecies.
Proof.
  unfold HiddenMessageV1.letterSpeciesOf. cbv zeta.
  induction (letterMeta maskResult) as [|meta r IH].
  - exists []. split; [reflexivity|]. split; [reflexivity | constructor].
  - destruct IH as (l & El & Hl & Hin).
    pose proof (poolOf_nonempty meta) as Hne.
    destruct (lookup_lt_is_Some_2 (HiddenMessageV1.poolOf lineSpecies fallbackPool meta)
                (metaLetterIndex meta
                 mod length (HiddenMessageV1.poolOf lineSpecies fallbackPool meta)))
      as [s Hs].
    { apply Nat.mod_upper_bound.
      destruct (HiddenMessageV1.poolOf lineSpecies fallbackPool meta);
        [contradiction | discriminate]. }
    exists (s :: l). cbn [map length]. rewrite Hs, El, Hl.
    split; [reflexivity|]. split; [reflexivity|].
    constructor; [|exact Hin]. eapply poolOf_subset, list_elem_of_lookup_2. exact Hs.
Qed.

End SpeciesV1.

Lemma at_Z_map {A B : Type} (f : A -> B) (l : list A) (i : Z) :
  Js.at_Z (map f l) i = f <$> Js.at_Z l i.
Proof. unfold Js.at_Z. destruct (i <? 0); [reflexivity | apply map_lookup]. Qed.

(** X25.  The earlier [assignSpeciesToPoints] gives every letter one
    species of the enabled pool (sunflower not excepted): all the points
    of a letter carry that species, a point whose letter index names no
    letter takes one from the pool by its own index, and no point is left
    without a species. *)
Theorem assignSpeciesToPointsV1_one_per_letter (points : list HiddenMessage.SpawnPoint)
    (maskResult : HiddenMessage.TextMaskResult) (enabledSpecies : list string)
    (lineSpecies : list (list string)) :
  exists letterSpecies : list string,
    length letterSpecies = length (HiddenMessage.letterMeta maskResult)
    /\ Forall (fun s => s ∈ HiddenMessage.basePoolOf enabledSpecies) letterSpecies
    /\ Forall2 (fun p q =>
                  exists s,
                    q = HiddenMessage.withSpecies p (Some s)
                    /\ s ∈ HiddenMessage.basePoolOf enabledSpecies
                    /\ (forall s', Js.at_Z letterSpecies (HiddenMessage.letterIndex p) = Some s'
                                   -> s = s'))
               points
               (HiddenMessageV1.assignSpeciesToPoints points maskResult enabledSpecies
                  lineSpecies).
Proof.
  unfold HiddenMessageV1.assignSpeciesToPoints. cbv zeta.
  fold (HiddenMessage.basePoolOf enabledSpecies).
  pose proof (basePoolOf_nonempty enabledSpecies) as Hne.
  destruct (letterSpeciesOf_some maskResult lineSpecies
              (HiddenMessage.basePoolOf enabledSpecies) Hne) as (l & El & Hlen & Hin).
  exists l. split; [exact Hlen|]. split; [exact Hin|].
  destruct (HiddenMessage.basePoolOf enabledSpecies) as [|h t] eqn:E; [contradiction|].
  rewrite El. apply Forall2_imap. intros idx p _.
  rewrite at_Z_map.
  destruct (Js.at_Z l (HiddenMessage.letterIndex p)) as [s|] eqn:Es.
  - exists s. cbn [fmap option_fmap option_map mjoin option_join Js.orElse].
    split; [reflexivity|]. split.
    + unfold Js.at_Z in Es. destruct (_ <? 0); [discriminate|].
      apply list_elem_of_lookup_2 in Es.
      rewrite Forall_forall in Hin. apply Hin. exact Es.
    + intros s' Hs'. congruence.
  - cbn [fmap option_fmap option_map mjoin option_join Js.orElse].
    destruct (lookup_lt_is_Some_2 (h :: t) (idx mod length (h :: t))) as [s Hs].
    { apply Nat.mod_upper_bound. discriminate. }
    exists s. rewrite Hs. split; [reflexivity|].
    split; [eapply list_elem_of_lookup_2; exact Hs | discriminate].
Qed.

(** ** The flowers that the component draws *)

Lemma hiddenFlowers_imap (FLOWER_SVGS : list string)
    (points : list HiddenMessage.SpawnPoint) :
  exists pick : nat -> HiddenMessage.SpawnPoint -> option string,
    GardenView.hiddenFlowers FLOWER_SVGS points
    = imap (fun index point =>
              {| GardenView.id := - Z.of_nat (S index);
                 GardenView.x := HiddenMessage.x point;
                 GardenView.y := HiddenMessage.y point;
                 GardenView.svg := pick index point;
                 GardenView.scale := 21 # 20;
                 GardenView.rotation := 0;
                 GardenView.zIndex := 200 + Z.of_nat (HiddenMessage.row point);
                 GardenView.dayNumber := 0;
                 GardenView.date := "2025-02-14" |}) points.
Proof.
  exists (fun index point =>
            Js.orElse
              (default
                 (default (List.filter (fun svg => Js.startsWith "rose-" svg) FLOWER_SVGS)
                    (Garden.buildSpeciesVariants FLOWER_SVGS !! "rose"%string))
                 (Garden.buildSpeciesVariants FLOWER_SVGS
                    !! default "rose"%string (HiddenMessage.species point))
                 !! (index
                     mod length
                           (default
                              (default
                                 (List.filter (fun svg => Js.startsWith "rose-" svg)
                                    FLOWER_SVGS)
                                 (Garden.buildSpeciesVariants FLOWER_SVGS !! "rose"%string))
                              (Garden.buildSpeciesVariants FLOWER_SVGS
                                 !! default "rose"%string (HiddenMessage.species point))))%nat)
              (default
                 (default (List.filter (fun svg => Js.startsWith "rose-" svg) FLOWER_SVGS)
                    (Garden.buildSpeciesVariants FLOWER_SVGS !! "rose"%string))
                 (Garden.buildSpeciesVariants FLOWER_SVGS
                    !! default "rose"%string (HiddenMessage.species point))
                 !! 0%nat)).
  unfold GardenView.hiddenFlowers. cbv zeta.
  destruct points as [|p r]; reflexivity.
Qed.

Lemma imap_ids {A B : Type} (f : nat -> A -> B) (g : B -> Z) (h : nat -> Z) (l : list A) :
  (forall i a, g (f i a) = h i) -> map g (imap f l) = map h (seq 0 (length l)).
Proof.
  revert f h. induction l as [|a l IH]; intros f h H; [reflexivity|].
  cbn [imap map length seq]. rewrite H. f_equal.
  rewrite <- seq_shift, map_map. apply IH. intros i b. apply H.
Qed.

(** X26.  The flowers of the hidden message take the ids -1, -2, ... in
    the order of their points, keep the place of their point and lie on a
    layer from 200 up; drawn after flowers with the ids 0, 1, ... no two
    of the flowers on screen share an id, and the flowers with a negative
    id are the hidden ones. *)
Theorem renderFlowers_keys (FLOWER_SVGS : list string) (flowers : list Garden.FlowerData)
    (points : list HiddenMessage.SpawnPoint) :
  map Garden.id flowers = seq 0 (length flowers) ->
  let hidden := GardenView.hiddenFlowers FLOWER_SVGS points in
  map GardenView.id hidden = map (fun k => - Z.of_nat (S k)) (seq 0 (length points))
  /\ Forall2 (fun p f =>
                GardenView.x f = HiddenMessage.x p /\ GardenView.y f = HiddenMessage.y p
                /\ GardenView.zIndex f = 200 + Z.of_nat (HiddenMessage.row p))
             points hidden
  /\ NoDup (map GardenView.id (GardenView.renderFlowers flowers hidden))
  /\ Forall (fun f => 0 <= GardenView.id f) (map GardenView.ofFlower flowers)
  /\ Forall (fun f => GardenView.id f < 0) hidden.
Proof.
  intros Hids hidden. subst hidden.
  destruct (hiddenFlowers_imap FLOWER_SVGS points) as (pick & ->).
  assert (Hh : map GardenView.id
                 (imap (fun index point =>
                    {| GardenView.id := - Z.of_nat (S index);
                       GardenView.x := HiddenMessage.x point;
                       GardenView.y := HiddenMessage.y point;
                       GardenView.svg := pick index point;
                       GardenView.scale := 21 # 20;
                       GardenView.rotation := 0;
                       GardenView.zIndex := 200 + Z.of_nat (HiddenMessage.row point);
                       GardenView.dayNumber := 0;
                       GardenView.date := "2025-02-14" |}) points)
               = map (fun k => - Z.of_nat (S k)) (seq 0 (length points))).
  { apply imap_ids. reflexivity. }
  assert (Hf : map GardenView.id (map GardenView.ofFlower flowers)
               = map Z.of_nat (seq 0 (length flowers))).
  { rewrite <- Hids, !map_map. reflexivity. }
  assert (Hneg : forall z, z ∈ map (fun k => - Z.of_nat (S k)) (seq 0 (length points)) -> z < 0).
  { intros z Hz. apply list_elem_of_In, in_map_iff in Hz. destruct Hz as (k & <- & _). lia. }
  assert (Hpos : forall z, z ∈ map Z.of_nat (seq 0 (length flowers)) -> 0 <= z).
  { intros z Hz. apply list_elem_of_In, in_map_iff in Hz. destruct Hz as (k & <- & _). lia. }
  split; [exact Hh|]. split; [|split; [|split]].
  - apply Forall2_imap. intros i p _. cbn. auto.
  - unfold GardenView.renderFlowers. rewrite map_app, Hh, Hf.
    apply NoDup_app. split; [|split].
    + apply (NoDup_fmap_2 Z.of_nat). apply NoDup_seq.
    + intros z Hz Hz'. specialize (Hneg z Hz'). specialize (Hpos z Hz). lia.
    + assert (Hinj : Inj eq eq (fun k : nat => - Z.of_nat (S k)))
        by (intros a b Hab; lia).
      apply (NoDup_fmap_2 (fun k : nat => - Z.of_nat (S k))). apply NoDup_seq.
  - apply Forall_forall. intros f Hf'. apply Hpos. rewrite <- Hf.
    apply list_elem_of_In, in_map, list_elem_of_In. exact Hf'.
  - apply Forall_forall. intros f Hf'. apply Hneg. rewrite <- Hh.
    apply list_elem_of_In, in_map, list_elem_of_In. exact Hf'.
Qed.

Lemma renderFlowers_keys_witness :
  let flowers := Garden.generateGarden sampleCatalog 5 [] in
  let hidden := GardenView.hiddenFlowers sampleCatalog (Garden.assignedPointsOf firstSet) in
  NoDup (map GardenView.id (GardenView.renderFlowers flowers hidden)).
Proof.
  intros flowers hidden.
  destruct (renderFlowers_keys sampleCatalog flowers (Garden.assignedPointsOf firstSet))
    as (_ & _ & H & _).
  - subst flowers. vm_compute. reflexivity.
  - exact H.
Defined.

(** ** The points of a text set *)

Lemma readingOrder_transfer (l l' : list HiddenMessage.SpawnPoint) :
  Forall2 (fun p q => HiddenMessage.row q = HiddenMessage.row p
                      /\ HiddenMessage.col q = HiddenMessage.col p) l l' ->
  StronglySorted readingOrder l -> StronglySorted readingOrder l'.
Proof.
  intros H2. induction H2 as [|p q l l' (Hr & Hc) H2 IH]; intros Hs; [constructor|].
  apply StronglySorted_inv in Hs. destruct Hs as [Hs Hall].
  constructor; [apply IH; exact Hs|].
  clear IH Hs. induction H2 as [|p1 q1 l l' (Hr1 & Hc1) H2 IH]; [constructor|].
  apply Forall_cons in Hall. destruct Hall as [H1 Hall].
  constructor; [|apply IH; exact Hall].
  unfold readingOrder, atOrBefore in *. rewrite Hr, Hc, Hr1, Hc1. exact H1.
Qed.

(** X27.  The points of a text set, as [precomputeTextFlowers] computes
    them, come in reading order and are numbered in that order, so that
    the days of a message draw its cells row by row from the top; each
    point sits on an on cell of the mask of the text, names one of its
    letters and has a species. *)
Theorem assignedPointsOf_reading_order (ts : GardenConfig.TextSetConfig) :
  let points := Garden.assignedPointsOf ts in
  let m := HiddenMessage.buildTextMask (GardenConfig.lines ts) (GardenConfig.maskOptions ts) in
  StronglySorted readingOrder points
  /\ map HiddenMessage.pixelIndex points = seq 0 (length points)
  /\ Forall (knowsLetter m) points.
Proof.
  intros points m. subst points. unfold Garden.assignedPointsOf. cbv zeta. fold m.
  match goal with
  | |- context [HiddenMessage.assignSpeciesToPoints
                  (HiddenMessage.generateFlowerPositionsFromMask m ?b ?d) m ?e ?ls] =>
      pose proof (spawnScan_ok m b d) as (Hs & Hon & Hpix);
      pose proof (assignSpeciesToPoints_some
                    (HiddenMessage.generateFlowerPositionsFromMask m b d) m e ls) as H2;
      assert (Hscan : HiddenMessage.generateFlowerPositionsFromMask m b d = []
                      \/ HiddenMessage.generateFlowerPositionsFromMask m b d
                         = snd (HiddenMessage.spawnScan m b d))
        by (unfold HiddenMessage.generateFlowerPositionsFromMask; cbv zeta;
            destruct (_ || _); [left | right]; reflexivity);
      set (spawn := HiddenMessage.generateFlowerPositionsFromMask m b d) in *;
      set (scan := HiddenMessage.spawnScan m b d) in *;
      set (out := HiddenMessage.assignSpeciesToPoints spawn m e ls) in *
  end.
  assert (Hspawn : StronglySorted readingOrder spawn
                   /\ Forall (onLetter m) spawn
                   /\ map HiddenMessage.pixelIndex spawn = seq 0 (length spawn)).
  { destruct Hscan as [->| ->].
    - split; [constructor|]. split; [constructor | reflexivity].
    - split; [exact Hs|]. split; [|exact Hpix].
      eapply List.Forall_impl; [|exact Hon]. intros p [Hp _]. exact Hp. }
  clear Hs Hon Hpix Hscan. destruct Hspawn as (Hs & Hon & Hpix).
  split; [|split].
  - apply (readingOrder_transfer spawn out); [|exact Hs].
    eapply Forall2_impl; [exact H2|]. intros p q (s & -> & _). split; reflexivity.
  - assert (E : map HiddenMessage.pixelIndex out = map HiddenMessage.pixelIndex spawn).
    { clear -H2. induction H2 as [|p q l l' (s & -> & _) H2 IH]; [reflexivity|].
      cbn [map]. rewrite IH. reflexivity. }
    rewrite E, Hpix. rewrite (Forall2_length _ _ _ H2). reflexivity.
  - apply Forall_lookup. intros k q Hq.
    destruct (Forall2_lookup_r _ _ _ _ _ H2 Hq) as (p & Hp & s & -> & _).
    rewrite Forall_lookup in Hon. specialize (Hon k p Hp).
    destruct Hon as (H1 & H3 & H4 & H5 & H6).
    unfold knowsLetter, onLetter.
    cbn [HiddenMessage.withSpecies HiddenMessage.row HiddenMessage.col
         HiddenMessage.letterIndex HiddenMessage.lineIndex HiddenMessage.letterChar
         HiddenMessage.species].
    split; [repeat split; assumption|]. split; [|exists s; reflexivity].
    destruct (buildTextMask_canvas (GardenConfig.lines ts) (GardenConfig.maskOptions ts))
      as (cv & (Hc & _ & _ & _ & Hg) & Em & El & Elet & _).
    fold m in Em, El, Elet.
    specialize (Hg (HiddenMessage.row p) (HiddenMessage.col p)). cbn [fst snd] in Hg.
    rewrite <- Em, <- El, H1, H3 in Hg. destruct Hg as (i & Hi & Hr).
    rewrite Elet, <- Hc. congruence.
Qed.
